(** * GhostHand: gesture state machine and adaptive coordinate filter

    A shallow embedding of [gesture_engine.py] and [smoothing.py], with the
    part of [main.py] that configures the click threshold.  The later
    sections add [input_controller.py], the worker loop of [main.py] and the
    profile checks of its configuration loader.

    Python floats are modelled as real numbers ([R]): comparisons are the
    exact order of the reals and arithmetic is exact.  Every reading of
    [time.time()] is an explicit input of the call that performs it.

    Where rounding or a float that is not finite decides a property, the
    code is modelled with them: [Binary64] is [smoothing.py] in IEEE double
    arithmetic, and the values of the configuration file include [NaN] and
    [Infinity]. *)

From Stdlib Require Import String.
From Stdlib Require Import Reals Lra Lia List Bool Arith ZArith.
From Stdlib Require PrimFloat.
Import ListNotations.

Open Scope R_scope.

(** ** Numeric helpers *)

(** Python's [a < b] on floats, as a boolean. *)
Definition Rltb (a b : R) : bool := if Rlt_dec a b then true else false.

(** Python's [a <= b] on floats, as a boolean. *)
Definition Rleb (a b : R) : bool := if Rle_dec a b then true else false.

(** Python's [a == b] on floats, as a boolean. *)
Definition Reqb (a b : R) : bool := if Req_dec_T a b then true else false.

(** [min(xs)] and [max(xs)] of a sequence of floats.  Python raises on an
    empty sequence; both callers test the length first, so the value chosen
    for the empty list is never observed. *)
Definition list_min (l : list R) : R :=
  match l with
  | [] => 0
  | x :: xs => fold_left Rmin xs x
  end.

Definition list_max (l : list R) : R :=
  match l with
  | [] => 0
  | x :: xs => fold_left Rmax xs x
  end.

(** [collections.deque(maxlen=n).append(x)]: append on the right and, when the
    length then exceeds [n], drop the leftmost element. *)
Definition deque_append (maxlen : nat) (l : list R) (x : R) : list R :=
  if (length l <? maxlen)%nat then l ++ [x] else tl (l ++ [x]).

(** ** Observations *)

Record Point : Type := mkPoint { x : R; y : R }.

(** [landmarks.landmark[i]]: the tracker always delivers the 21 points of one
    hand, so indexing is total. *)
Record Landmarks : Type := mkLandmarks { landmark : nat -> Point }.

(** The Euclidean distance of two landmark points in the image plane. *)
Definition euclid (p q : Point) : R :=
  sqrt ((x p - x q) ^ 2 + (y p - y q) ^ 2).

Module GestureState.
Inductive t : Type := SLEEP | IDLE | TRACKING | CLICK_PENDING | SCROLLING.

Definition eqb (a b : t) : bool :=
  match a, b with
  | SLEEP, SLEEP | IDLE, IDLE | TRACKING, TRACKING
  | CLICK_PENDING, CLICK_PENDING | SCROLLING, SCROLLING => true
  | _, _ => false
  end.
End GestureState.

Module GestureAction.
Inductive t : Type := NONE | CLICK | WAKE | SLEEP | SCROLL.
End GestureAction.

(** ** gesture_engine.py: GestureManager *)

Module GestureManager.

(** Attributes assigned once in [__init__] and never reassigned. *)
Definition WAVE_HISTORY_SIZE : nat := 20.
Definition WAVE_MOVEMENT_THRESHOLD : R := 4 / 10.
Definition WAVE_COOLDOWN : R := 2.
Definition HOLD_TIME_REQUIRED : R := 1.
Definition HOLD_STABILITY_THRESH : R := 5 / 100.

(** The mutable attributes of an instance. *)
Record t : Type := mk {
  CLICK_THRESHOLD : R;
  hold_start_time : R;
  current_state : GestureState.t;
  prev_state : GestureState.t;
  was_thumb_closed : bool;
  wrist_history : list R;
  last_toggle_time : R
}.

Definition __init__ : t :=
  {| CLICK_THRESHOLD := 14 / 100;
     hold_start_time := 0;
     current_state := GestureState.SLEEP;
     prev_state := GestureState.SLEEP;
     was_thumb_closed := false;
     wrist_history := [];
     last_toggle_time := 0 |}.

Definition set_click_threshold (self : t) (val : R) : t :=
  {| CLICK_THRESHOLD := val;
     hold_start_time := hold_start_time self;
     current_state := current_state self;
     prev_state := prev_state self;
     was_thumb_closed := was_thumb_closed self;
     wrist_history := wrist_history self;
     last_toggle_time := last_toggle_time self |}.

Definition set_hold_start_time (self : t) (v : R) : t :=
  {| CLICK_THRESHOLD := CLICK_THRESHOLD self;
     hold_start_time := v;
     current_state := current_state self;
     prev_state := prev_state self;
     was_thumb_closed := was_thumb_closed self;
     wrist_history := wrist_history self;
     last_toggle_time := last_toggle_time self |}.

Definition set_wrist_history (self : t) (h : list R) : t :=
  {| CLICK_THRESHOLD := CLICK_THRESHOLD self;
     hold_start_time := hold_start_time self;
     current_state := current_state self;
     prev_state := prev_state self;
     was_thumb_closed := was_thumb_closed self;
     wrist_history := h;
     last_toggle_time := last_toggle_time self |}.

Definition set_last_toggle_time (self : t) (v : R) : t :=
  {| CLICK_THRESHOLD := CLICK_THRESHOLD self;
     hold_start_time := hold_start_time self;
     current_state := current_state self;
     prev_state := prev_state self;
     was_thumb_closed := was_thumb_closed self;
     wrist_history := wrist_history self;
     last_toggle_time := v |}.

Definition set_current_state (self : t) (st : GestureState.t) : t :=
  {| CLICK_THRESHOLD := CLICK_THRESHOLD self;
     hold_start_time := hold_start_time self;
     current_state := st;
     prev_state := prev_state self;
     was_thumb_closed := was_thumb_closed self;
     wrist_history := wrist_history self;
     last_toggle_time := last_toggle_time self |}.

(** [self.wrist_history.append(v)] on the [deque(maxlen=WAVE_HISTORY_SIZE)]. *)
Definition history_append (self : t) (v : R) : t :=
  set_wrist_history self (deque_append WAVE_HISTORY_SIZE (wrist_history self) v).

(** [_is_palm_facing]: the sign of the 2D cross product of wrist->index
    knuckle and wrist->pinky knuckle, read according to the hand label. *)
Definition cross_z (landmarks : Landmarks) : R :=
  let p0 := landmark landmarks 0 in
  let p5 := landmark landmarks 5 in
  let p17 := landmark landmarks 17 in
  let v1_x := x p5 - x p0 in
  let v1_y := y p5 - y p0 in
  let v2_x := x p17 - x p0 in
  let v2_y := y p17 - y p0 in
  (v1_x * v2_y) - (v1_y * v2_x).

Definition _is_palm_facing (landmarks : Landmarks) (handedness : option string)
  : bool :=
  match handedness with
  | None => true
  | Some h =>
      if String.eqb h EmptyString then true
      else if String.eqb h "Right"%string then Rltb 0 (cross_z landmarks)
      else if String.eqb h "Left"%string then Rltb (cross_z landmarks) 0
      else true
  end.

(** The loop of [_detect_hold_to_wake] over [tips_ids[1..4]] and
    [pips_ids[1..4]]. *)
Definition tips_ids : list nat := [4; 8; 12; 16; 20]%nat.
Definition pips_ids : list nat := [2; 6; 10; 14; 18]%nat.

Definition hold_fingers_open (landmarks : Landmarks) : nat :=
  fold_left
    (fun acc i =>
       if Rltb (y (landmark landmarks (nth i tips_ids 0%nat)))
               (y (landmark landmarks (nth i pips_ids 0%nat)))
       then S acc else acc)
    (seq 1 4) 0%nat.

(** [_detect_hold_to_wake(landmarks)]; [now] is the value of the one
    [time.time()] reading the method performs. *)
Definition _detect_hold_to_wake (self : t) (now : R) (landmarks : Landmarks)
  : t * bool :=
  if (hold_fingers_open landmarks <? 4)%nat then
    (set_hold_start_time self 0, false)
  else if (length (wrist_history self) <? WAVE_HISTORY_SIZE)%nat then
    (self, false)
  else
    let x_min := list_min (wrist_history self) in
    let x_max := list_max (wrist_history self) in
    let diff := x_max - x_min in
    if Rltb diff HOLD_STABILITY_THRESH then
      if Reqb (hold_start_time self) 0 then
        (set_hold_start_time self now, false)
      else if Rltb HOLD_TIME_REQUIRED (now - hold_start_time self) then
        (set_hold_start_time self 0, true)
      else (self, false)
    else
      (set_hold_start_time self 0, false).

(** [_detect_wave()]. *)
Definition _detect_wave (self : t) : bool :=
  if (length (wrist_history self) <? WAVE_HISTORY_SIZE)%nat then false
  else
    let x_min := list_min (wrist_history self) in
    let x_max := list_max (wrist_history self) in
    if Rltb x_min (1 / 10) || Rltb (9 / 10) x_max then false
    else
      let diff := x_max - x_min in
      if Rltb (15 / 100) diff then true else false.

(** Features computed at the top of [process]. *)
Definition is_index_up (lm : Landmarks) : bool :=
  Rltb (y (landmark lm 8)) (y (landmark lm 5)).
Definition is_middle_up (lm : Landmarks) : bool :=
  Rltb (y (landmark lm 12)) (y (landmark lm 9)).
Definition is_ring_up (lm : Landmarks) : bool :=
  Rltb (y (landmark lm 16)) (y (landmark lm 13)).
Definition is_pinky_up (lm : Landmarks) : bool :=
  Rltb (y (landmark lm 20)) (y (landmark lm 17)).

Definition fingers_open (lm : Landmarks) : nat :=
  ((if is_index_up lm then 1 else 0) + (if is_middle_up lm then 1 else 0)
   + (if is_ring_up lm then 1 else 0) + (if is_pinky_up lm then 1 else 0))%nat.

Definition is_tracking_pose (lm : Landmarks) : bool :=
  is_index_up lm && negb (is_middle_up lm) && negb (is_ring_up lm)
  && negb (is_pinky_up lm).

Definition is_scroll_pose (lm : Landmarks) : bool :=
  is_index_up lm && is_middle_up lm && negb (is_ring_up lm)
  && negb (is_pinky_up lm).

(** [scale_ref], [raw_dist] and [click_ratio] of the normal-operation part. *)
Definition scale_ref (lm : Landmarks) : R :=
  let wrist := landmark lm 0 in
  let index_mcp := landmark lm 5 in
  let d := sqrt ((x wrist - x index_mcp) ^ 2 + (y wrist - y index_mcp) ^ 2) in
  if Rltb d (1 / 100) then 1 / 100 else d.

Definition raw_dist (lm : Landmarks) : R :=
  let thumb_tip := landmark lm 4 in
  let index_mcp := landmark lm 5 in
  sqrt ((x thumb_tip - x index_mcp) ^ 2 + (y thumb_tip - y index_mcp) ^ 2).

Definition click_ratio (lm : Landmarks) : R := raw_dist lm / scale_ref lm.

Definition is_thumb_closed (self : t) (lm : Landmarks) : bool :=
  Rltb (click_ratio lm) (CLICK_THRESHOLD self).

(** The pose classification that ends [process] (lines "NORMAL OPERATION"
    onwards). *)
Definition normal_operation (self : t) (lm : Landmarks)
  : t * (GestureState.t * GestureAction.t) :=
  let closed := is_thumb_closed self lm in
  let is_thumb_open := negb closed in
  let '(new_state, action) :=
    if is_tracking_pose lm then
      if was_thumb_closed self && is_thumb_open
      then (GestureState.CLICK_PENDING, GestureAction.CLICK)
      else (GestureState.TRACKING, GestureAction.NONE)
    else if is_scroll_pose lm then
      (GestureState.SCROLLING, GestureAction.SCROLL)
    else (GestureState.IDLE, GestureAction.NONE) in
  ({| CLICK_THRESHOLD := CLICK_THRESHOLD self;
      hold_start_time := hold_start_time self;
      current_state := new_state;
      prev_state := current_state self;
      was_thumb_closed := closed;
      wrist_history := wrist_history self;
      last_toggle_time := last_toggle_time self |},
   (new_state, action)).

(** Part B of [process] (wave detection) and everything after it. *)
Definition wave_and_after (self : t) (current_time : R) (lm : Landmarks)
  (is_palm : bool) : t * (GestureState.t * GestureAction.t) :=
  let self := history_append self (x (landmark lm 0)) in
  if Rltb WAVE_COOLDOWN (current_time - last_toggle_time self)
     && (3 <=? fingers_open lm)%nat && is_palm && _detect_wave self
  then
    let self := set_last_toggle_time self current_time in
    if GestureState.eqb (current_state self) GestureState.SLEEP then
      (set_current_state self GestureState.IDLE,
       (GestureState.IDLE, GestureAction.WAKE))
    else
      (set_current_state self GestureState.SLEEP,
       (GestureState.SLEEP, GestureAction.SLEEP))
  else if GestureState.eqb (current_state self) GestureState.SLEEP then
    (self, (current_state self, GestureAction.NONE))
  else normal_operation self lm.

(** [process(landmarks, handedness)].  [current_time] is the reading of
    [time.time()] on entry, [hold_time] the reading made inside
    [_detect_hold_to_wake] when that method is reached. *)
Definition process (self : t) (current_time hold_time : R)
  (landmarks : option Landmarks) (handedness : option string)
  : t * (GestureState.t * GestureAction.t) :=
  match landmarks with
  | None =>
      (set_hold_start_time self 0, (current_state self, GestureAction.NONE))
  | Some lm =>
      let is_palm := _is_palm_facing lm handedness in
      if GestureState.eqb (current_state self) GestureState.SLEEP then
        let self1 := history_append self (x (landmark lm 0)) in
        if is_palm then
          let '(self2, held) := _detect_hold_to_wake self1 hold_time lm in
          if held then
            let self3 := set_last_toggle_time self2 current_time in
            let self4 := set_current_state self3 GestureState.IDLE in
            let self5 := set_wrist_history self4 [] in
            (self5, (GestureState.IDLE, GestureAction.WAKE))
          else wave_and_after self2 current_time lm is_palm
        else wave_and_after self1 current_time lm is_palm
      else wave_and_after self current_time lm is_palm
  end.


(** The guard of the hold-to-wake branch,
    [is_palm and self._detect_hold_to_wake(landmarks)], evaluated as
    [process] evaluates it while asleep: after the first append. *)
Definition hold_to_wake_guard (self : t) (hold_time : R) (lm : Landmarks)
  (handedness : option string) : bool :=
  _is_palm_facing lm handedness
  && snd (_detect_hold_to_wake (history_append self (x (landmark lm 0)))
            hold_time lm).

(** The instance on which part B of [process] runs when the hold-to-wake
    branch does not return: [self] itself when awake; when asleep, [self]
    after the first append and, if the palm is facing, after the hold
    detector's update of [hold_start_time]. *)
Definition before_wave (self : t) (hold_time : R) (lm : Landmarks)
  (handedness : option string) : t :=
  if GestureState.eqb (current_state self) GestureState.SLEEP then
    let self1 := history_append self (x (landmark lm 0)) in
    if _is_palm_facing lm handedness
    then fst (_detect_hold_to_wake self1 hold_time lm)
    else self1
  else self.

(** One tick of the driving loop: the observation it passes to [process]
    together with the clock readings of that call. *)
Record Tick : Type := mkTick {
  tick_time : R;
  tick_hold_time : R;
  tick_landmarks : option Landmarks;
  tick_handedness : option string
}.

Definition tick (self : t) (tk : Tick)
  : t * (GestureState.t * GestureAction.t) :=
  process self (tick_time tk) (tick_hold_time tk) (tick_landmarks tk)
    (tick_handedness tk).

(** A sequence of calls on one instance: the final instance and the
    [(state, action)] pairs returned, in order. *)
Fixpoint run (self : t) (ticks : list Tick)
  : t * list (GestureState.t * GestureAction.t) :=
  match ticks with
  | [] => (self, [])
  | tk :: rest =>
      let '(self1, out) := tick self tk in
      let '(self2, outs) := run self1 rest in
      (self2, out :: outs)
  end.

Definition is_toggle (a : GestureAction.t) : bool :=
  match a with
  | GestureAction.WAKE | GestureAction.SLEEP => true
  | _ => false
  end.

(** Whether the call for [tk] takes the hold-to-wake branch of [process]. *)
Definition wakes_by_hold (self : t) (tk : Tick) : bool :=
  match tick_landmarks tk with
  | None => false
  | Some lm =>
      GestureState.eqb (current_state self) GestureState.SLEEP
      && hold_to_wake_guard self (tick_hold_time tk) lm (tick_handedness tk)
  end.

(** The toggles of a sequence of calls, in order: for each call that
    returns [WAKE] or [SLEEP], its entry clock reading and whether it woke
    through the hold-to-wake branch. *)
Fixpoint toggles (self : t) (ticks : list Tick) : list (R * bool) :=
  match ticks with
  | [] => []
  | tk :: rest =>
      let '(self1, (_, action)) := tick self tk in
      if is_toggle action
      then (tick_time tk, wakes_by_hold self tk) :: toggles self1 rest
      else toggles self1 rest
  end.

(** Events at least [gap] apart: the reading of "no two toggles closer
    together than the cooldown" on the [toggles] of a session. *)
Definition spaced_by (gap : R) (events : list (R * bool)) : Prop :=
  forall i j a b,
    (i < j)%nat -> nth_error events i = Some a -> nth_error events j = Some b ->
    gap <= fst b - fst a.

End GestureManager.

(** ** main.py: the configured click threshold *)

Module Config.

(** [DEFAULT_PROFILE["click_threshold"]]. *)
Definition DEFAULT_PROFILE_click_threshold : R := 20 / 100.

(** The two sanity checks [load_config] applies to a profile's
    [click_threshold]. *)
Definition enforce_click_threshold (v : R) : R :=
  let v := if Rltb v (5 / 100) then 20 / 100 else v in
  if Rltb 1 v then 20 / 100 else v.

(** The worker's start-up: a fresh manager, then on the first loop
    iteration [if self.pending_click_thresh > 0: set_click_threshold(...)]. *)
Definition worker_manager (pending_click_thresh : R) : GestureManager.t :=
  let gesture_mgr := GestureManager.__init__ in
  if Rltb 0 pending_click_thresh
  then GestureManager.set_click_threshold gesture_mgr pending_click_thresh
  else gesture_mgr.

End Config.

(** ** smoothing.py *)

Inductive exn : Type := TypeError | ZeroDivisionError.

Inductive outcome (A : Type) : Type :=
| Return (a : A)
| Raise (e : exn).
Arguments Return {A} a.
Arguments Raise {A} e.

Module LowPassFilter.

(** [last_val] is [None] until the first sample; [forced_alpha] exists only
    after [set_alpha] and is never read. *)
Record t : Type := mk {
  last_val : option R;
  forced_alpha : option R
}.

Definition __init__ : t := {| last_val := None; forced_alpha := None |}.

Definition set_alpha (self : t) (alpha : R) : t :=
  {| last_val := last_val self; forced_alpha := Some alpha |}.

(** [filter(val, alpha=None)].  The blend is computed exactly here;
    [Binary64.LowPassFilter.filter] is the same method with every operation
    rounded to a double. *)
Definition filter (self : t) (val : R) (alpha : option R) : t * R :=
  match last_val self with
  | None => ({| last_val := Some val; forced_alpha := forced_alpha self |}, val)
  | Some last =>
      let alpha := match alpha with None => 1 | Some a => a end in
      let v := alpha * val + (1 - alpha) * last in
      ({| last_val := Some v; forced_alpha := forced_alpha self |}, v)
  end.

End LowPassFilter.

Module OneEuroFilter.

Record t : Type := mk {
  freq : R;
  min_cutoff : R;
  beta : R;
  d_cutoff : R;
  x_filter : LowPassFilter.t;
  y_filter : LowPassFilter.t;
  dx_filter : LowPassFilter.t;
  last_time : option R
}.

Definition __init__ (min_cutoff beta d_cutoff freq : R) : t :=
  {| freq := freq;
     min_cutoff := min_cutoff;
     beta := beta;
     d_cutoff := d_cutoff;
     x_filter := LowPassFilter.__init__;
     y_filter := LowPassFilter.__init__;
     dx_filter := LowPassFilter.__init__;
     last_time := None |}.

(** The keyword defaults [min_cutoff=1.0, beta=0.0, d_cutoff=1.0, freq=30.0]. *)
Definition default : t := __init__ 1 0 1 30.

(** [filter(x, y, timestamp)].  [timestamp] is the effective time stamp:
    the argument, or the reading of [time.time()] when it is omitted.
    The returned pair holds Python values: a float, or [None] when a
    [last_val] that was never set is handed back. *)
Definition filter (self : t) (x y timestamp : R)
  : outcome (t * (option R * option R)) :=
  match last_time self with
  | None =>
      let xf := LowPassFilter.set_alpha (x_filter self) 1 in
      let yf := LowPassFilter.set_alpha (y_filter self) 1 in
      let '(xf, ox) := LowPassFilter.filter xf x None in
      let '(yf, oy) := LowPassFilter.filter yf y None in
      Return ({| freq := freq self;
                 min_cutoff := min_cutoff self;
                 beta := beta self;
                 d_cutoff := d_cutoff self;
                 x_filter := xf;
                 y_filter := yf;
                 dx_filter := dx_filter self;
                 last_time := Some timestamp |},
              (Some ox, Some oy))
  | Some last =>
      let dt := timestamp - last in
      if Rleb dt 0 then
        Return ({| freq := freq self;
                   min_cutoff := min_cutoff self;
                   beta := beta self;
                   d_cutoff := d_cutoff self;
                   x_filter := x_filter self;
                   y_filter := y_filter self;
                   dx_filter := dx_filter self;
                   last_time := Some timestamp |},
                (LowPassFilter.last_val (x_filter self),
                 LowPassFilter.last_val (y_filter self)))
      else
        match LowPassFilter.last_val (x_filter self),
              LowPassFilter.last_val (y_filter self) with
        | Some last_x, Some last_y =>
            let target_dx := (x - last_x) / dt in
            let target_dy := (y - last_y) / dt in
            let '(dxf, edx) :=
              LowPassFilter.filter (dx_filter self)
                (Rabs target_dx + Rabs target_dy) None in
            let cutoff := min_cutoff self + beta self * Rabs edx in
            if Reqb (2 * PI * cutoff) 0 then Raise ZeroDivisionError
            else
              let tau := 1 / (2 * PI * cutoff) in
              if Reqb (1 + tau / dt) 0 then Raise ZeroDivisionError
              else
                let alpha := 1 / (1 + tau / dt) in
                let '(xf, ox) :=
                  LowPassFilter.filter (x_filter self) x (Some alpha) in
                let '(yf, oy) :=
                  LowPassFilter.filter (y_filter self) y (Some alpha) in
                Return ({| freq := freq self;
                           min_cutoff := min_cutoff self;
                           beta := beta self;
                           d_cutoff := d_cutoff self;
                           x_filter := xf;
                           y_filter := yf;
                           dx_filter := dxf;
                           last_time := Some timestamp |},
                        (Some ox, Some oy))
        | _, _ => Raise TypeError
        end
  end.

(** The blend factor computed by a call that reaches the smoothing step. *)
Definition alpha_of (self : t) (x y timestamp last last_x last_y : R) : R :=
  let dt := timestamp - last in
  let edx := Rabs ((x - last_x) / dt) + Rabs ((y - last_y) / dt) in
  let cutoff := min_cutoff self + beta self * Rabs edx in
  1 / (1 + 1 / (2 * PI * cutoff) / dt).

(** Feeding the same input [(x, y)] at each of the time stamps of [stamps]:
    the final filter and the value returned by the last call ([start] when
    there is no call). *)
Fixpoint feed (self : t) (x y : R) (stamps : list R)
  (start : option R * option R) : outcome (t * (option R * option R)) :=
  match stamps with
  | [] => Return (self, start)
  | ts :: rest =>
      match filter self x y ts with
      | Return (self1, out) => feed self1 x y rest out
      | Raise e => Raise e
      end
  end.

(** The distance (sum of the two absolute differences) between the smoothed
    point held by the filter and the point [(x, y)]; [0] before the first
    sample. *)
Definition distance_to (self : t) (x y : R) : R :=
  match LowPassFilter.last_val (x_filter self),
        LowPassFilter.last_val (y_filter self) with
  | Some vx, Some vy => Rabs (x - vx) + Rabs (y - vy)
  | _, _ => 0
  end.

(** The time steps [dt] of a stream of calls at [stamps] that follows a call
    at [last]. *)
Fixpoint steps_from (last : R) (stamps : list R) : list R :=
  match stamps with
  | [] => []
  | ts :: rest => (ts - last) :: steps_from ts rest
  end.

(** The filter has seen its first sample, at time [last]. *)
Definition initialised (self : t) (last : R) : Prop :=
  last_time self = Some last
  /\ (exists vx, LowPassFilter.last_val (x_filter self) = Some vx)
  /\ (exists vy, LowPassFilter.last_val (y_filter self) = Some vy).

End OneEuroFilter.

(** ** Sample observations and sessions

    Concrete inputs on which the statements below are exercised. *)

(** A hand seen at horizontal position [wx]: the wrist at the bottom, the four
    base knuckles at height [mcp_y], the four mid-joints at height [pip_y],
    the finger tips at the given heights and the thumb tip at [thumb]. *)
Definition sample_hand (wx mcp_y pip_y ti tm tr tp : R) (thumb : Point)
  : Landmarks :=
  mkLandmarks (fun i =>
    match i with
    | 0%nat => mkPoint wx (9 / 10)
    | 4%nat => thumb
    | 5%nat | 9%nat | 13%nat | 17%nat => mkPoint wx mcp_y
    | 6%nat | 10%nat | 14%nat | 18%nat => mkPoint wx pip_y
    | 8%nat => mkPoint wx ti
    | 12%nat => mkPoint wx tm
    | 16%nat => mkPoint wx tr
    | 20%nat => mkPoint wx tp
    | _ => mkPoint wx (7 / 10)
    end).

(** Index, middle and ring finger up, pinky down. *)
Definition three_fingers (wx : R) : Landmarks :=
  sample_hand wx (1 / 2) (1 / 2) (1 / 4) (1 / 4) (1 / 4) (3 / 4)
    (mkPoint wx (1 / 2)).

(** All four fingers up. *)
Definition open_palm (wx : R) : Landmarks :=
  sample_hand wx (1 / 2) (1 / 2) (1 / 4) (1 / 4) (1 / 4) (1 / 4)
    (mkPoint wx (1 / 2)).

Definition seen (time : R) (lm : Landmarks) : GestureManager.Tick :=
  {| GestureManager.tick_time := time;
     GestureManager.tick_hold_time := time;
     GestureManager.tick_landmarks := Some lm;
     GestureManager.tick_handedness := None |}.

(** Ten calls, one second apart, of a three-finger hand that moves from 0.3
    to 0.5: the wave that wakes a new session. *)
Definition waking_wave : list GestureManager.Tick :=
  [ seen 101 (three_fingers (3 / 10)); seen 102 (three_fingers (1 / 2));
    seen 103 (three_fingers (1 / 2)); seen 104 (three_fingers (1 / 2));
    seen 105 (three_fingers (1 / 2)); seen 106 (three_fingers (1 / 2));
    seen 107 (three_fingers (1 / 2)); seen 108 (three_fingers (1 / 2));
    seen 109 (three_fingers (1 / 2)); seen 110 (three_fingers (1 / 2)) ].

(** The instance after [waking_wave]. *)
Definition woken_by_wave : GestureManager.t :=
  {| GestureManager.CLICK_THRESHOLD := 14 / 100;
     GestureManager.hold_start_time := 0;
     GestureManager.current_state := GestureState.IDLE;
     GestureManager.prev_state := GestureState.SLEEP;
     GestureManager.was_thumb_closed := false;
     GestureManager.wrist_history :=
       [ 3 / 10; 3 / 10; 1 / 2; 1 / 2; 1 / 2; 1 / 2; 1 / 2; 1 / 2; 1 / 2; 1 / 2;
         1 / 2; 1 / 2; 1 / 2; 1 / 2; 1 / 2; 1 / 2; 1 / 2; 1 / 2; 1 / 2; 1 / 2 ];
     GestureManager.last_toggle_time := 110 |}.

(** A session that wakes by a wave, is put to sleep by the still-buffered
    wave three seconds later, and is then woken by an open palm held still:
    the hold starts 0.1 s and fires 1.2 s after the [SLEEP]. *)
Definition sleep_then_hold : list GestureManager.Tick :=
  waking_wave
  ++ [ seen 113 (three_fingers (1 / 2));
       seen (1131 / 10) (open_palm (1 / 2));
       seen (1142 / 10) (open_palm (1 / 2)) ].




(** The instance after [held_still] of a hand at 0.5 whose four tips are
    above their mid-joints: asleep, the buffer full and steady, the hold
    timer started by the last call. *)
Definition holding : GestureManager.t :=
  {| GestureManager.CLICK_THRESHOLD := 14 / 100;
     GestureManager.hold_start_time := 100;
     GestureManager.current_state := GestureState.SLEEP;
     GestureManager.prev_state := GestureState.SLEEP;
     GestureManager.was_thumb_closed := false;
     GestureManager.wrist_history :=
       [ 1 / 2; 1 / 2; 1 / 2; 1 / 2; 1 / 2; 1 / 2; 1 / 2; 1 / 2; 1 / 2; 1 / 2;
         1 / 2; 1 / 2; 1 / 2; 1 / 2; 1 / 2; 1 / 2; 1 / 2; 1 / 2; 1 / 2; 1 / 2 ];
     GestureManager.last_toggle_time := 0 |}.


(** The instance before the last call of [waking_wave]. *)
Definition about_to_wake : GestureManager.t :=
  {| GestureManager.CLICK_THRESHOLD := 14 / 100;
     GestureManager.hold_start_time := 0;
     GestureManager.current_state := GestureState.SLEEP;
     GestureManager.prev_state := GestureState.SLEEP;
     GestureManager.was_thumb_closed := false;
     GestureManager.wrist_history :=
       [ 3 / 10; 3 / 10; 1 / 2; 1 / 2; 1 / 2; 1 / 2; 1 / 2; 1 / 2; 1 / 2; 1 / 2;
         1 / 2; 1 / 2; 1 / 2; 1 / 2; 1 / 2; 1 / 2; 1 / 2; 1 / 2 ];
     GestureManager.last_toggle_time := 0 |}.

(** A hand in the tracking pose whose thumb tip is [ratio] hand sizes away
    from the index knuckle: the wrist is 0.4 below that knuckle. *)
Definition pinch (ratio : R) : Landmarks :=
  sample_hand (1 / 2) (1 / 2) (1 / 2) (1 / 4) (3 / 4) (3 / 4) (3 / 4)
    (mkPoint (1 / 2 + ratio * (4 / 10)) (1 / 2)).

(** The woken instance with the threshold of the default profile. *)
Definition awake_tuned : GestureManager.t :=
  GestureManager.set_click_threshold woken_by_wave (20 / 100).

(** [awake_tuned] after two calls of a closed pinch. *)
Definition pinched : GestureManager.t :=
  {| GestureManager.CLICK_THRESHOLD := 20 / 100;
     GestureManager.hold_start_time := 0;
     GestureManager.current_state := GestureState.TRACKING;
     GestureManager.prev_state := GestureState.TRACKING;
     GestureManager.was_thumb_closed := true;
     GestureManager.wrist_history :=
       [ 1 / 2; 1 / 2; 1 / 2; 1 / 2; 1 / 2; 1 / 2; 1 / 2; 1 / 2; 1 / 2; 1 / 2;
         1 / 2; 1 / 2; 1 / 2; 1 / 2; 1 / 2; 1 / 2; 1 / 2; 1 / 2; 1 / 2; 1 / 2 ];
     GestureManager.last_toggle_time := 110 |}.

(** A filter with the constructor's defaults after its first call, made at
    time 10 on the point (0.3, 0.4). *)
Definition started_at_10 : OneEuroFilter.t :=
  {| OneEuroFilter.freq := 30;
     OneEuroFilter.min_cutoff := 1;
     OneEuroFilter.beta := 0;
     OneEuroFilter.d_cutoff := 1;
     OneEuroFilter.x_filter :=
       {| LowPassFilter.last_val := Some (3 / 10);
          LowPassFilter.forced_alpha := Some 1 |};
     OneEuroFilter.y_filter :=
       {| LowPassFilter.last_val := Some (4 / 10);
          LowPassFilter.forced_alpha := Some 1 |};
     OneEuroFilter.dx_filter := LowPassFilter.__init__;
     OneEuroFilter.last_time := Some 10 |}.

(** ** Sessions, hand geometry and sample streams

    Notions over the models above in which the further properties are
    stated. *)

Module GestureSession.
Import GestureManager.

(** The Wake and Sleep actions of a session, in order. *)
Definition toggle_actions (self : t) (ticks : list Tick) : list GestureAction.t :=
  List.filter is_toggle (map snd (snd (run self ticks))).

(** [l] starts with [first] and then alternates between Wake and Sleep. *)
Fixpoint alternates (first : GestureAction.t) (l : list GestureAction.t) : Prop :=
  match l with
  | [] => True
  | a :: rest =>
      a = first
      /\ alternates
           (match first with
            | GestureAction.WAKE => GestureAction.SLEEP
            | _ => GestureAction.WAKE
            end) rest
  end.
End GestureSession.

(** The same hand with every landmark moved by [f]. *)
Definition transform (f : Point -> Point) (lm : Landmarks) : Landmarks :=
  mkLandmarks (fun i => f (landmark lm i)).

(** The hand scaled by [k] and moved by [(a, b)]: nearer to or farther from
    the camera, elsewhere in the frame. *)
Definition similar (k a b : R) (lm : Landmarks) : Landmarks :=
  transform (fun p => mkPoint (a + k * x p) (b + k * y p)) lm.

(** The hand reflected in the vertical axis of the frame. *)
Definition mirrored (lm : Landmarks) : Landmarks :=
  transform (fun p => mkPoint (1 - x p) (y p)) lm.

Module FilterStream.
Import OneEuroFilter.

(** A stream of calls [filter(x, y, timestamp)] on one filter: the final
    filter and the returned pairs in order, or the first exception. *)
Fixpoint filter_all (self : t) (samples : list (R * R * R))
  : outcome (t * list (option R * option R)) :=
  match samples with
  | [] => Return (self, [])
  | (x, y, ts) :: rest =>
      match filter self x y ts with
      | Raise e => Raise e
      | Return (self1, out) =>
          match filter_all self1 rest with
          | Raise e => Raise e
          | Return (self2, outs) => Return (self2, out :: outs)
          end
      end
  end.

(** What the caller of a stream observes: the returned pairs or the
    exception. *)
Definition results (r : outcome (t * list (option R * option R)))
  : outcome (list (option R * option R)) :=
  match r with
  | Return (_, outs) => Return outs
  | Raise e => Raise e
  end.

(** Both coordinates of a returned pair are floats inside the rectangle
    [lx, hx] x [ly, hy]. *)
Definition in_box (lx hx ly hy : R) (out : option R * option R) : Prop :=
  match out with
  | (Some ox, Some oy) => lx <= ox <= hx /\ ly <= oy <= hy
  | _ => False
  end.

(** The fields a call of [filter] reads. *)
Definition same_core (f g : t) : Prop :=
  min_cutoff f = min_cutoff g
  /\ beta f = beta g
  /\ LowPassFilter.last_val (x_filter f) = LowPassFilter.last_val (x_filter g)
  /\ LowPassFilter.last_val (y_filter f) = LowPassFilter.last_val (y_filter g)
  /\ last_time f = last_time g.

(** The filter has seen a sample, is tuned with [mc] and [b], and holds a
    smoothed point inside the rectangle. *)
Definition box_inv (mc b lx hx ly hy : R) (self : t) : Prop :=
  exists last vx vy,
    last_time self = Some last
    /\ LowPassFilter.last_val (x_filter self) = Some vx
    /\ LowPassFilter.last_val (y_filter self) = Some vy
    /\ min_cutoff self = mc /\ beta self = b
    /\ lx <= vx <= hx /\ ly <= vy <= hy.

End FilterStream.

(** A filter built with [min_cutoff=0] after its first call, made at time 10
    on the point (0.3, 0.4). *)
Definition uncut_at_10 : OneEuroFilter.t :=
  {| OneEuroFilter.freq := 30;
     OneEuroFilter.min_cutoff := 0;
     OneEuroFilter.beta := 0;
     OneEuroFilter.d_cutoff := 1;
     OneEuroFilter.x_filter :=
       {| LowPassFilter.last_val := Some (3 / 10);
          LowPassFilter.forced_alpha := Some 1 |};
     OneEuroFilter.y_filter :=
       {| LowPassFilter.last_val := Some (4 / 10);
          LowPassFilter.forced_alpha := Some 1 |};
     OneEuroFilter.dx_filter := LowPassFilter.__init__;
     OneEuroFilter.last_time := Some 10 |}.

(** ** smoothing.py in double arithmetic *)

Module Binary64.

Import PrimFloat.

(** [LowPassFilter] with every operation rounded to the nearest double. *)
Module LowPassFilter.

Record t : Type := mk {
  last_val : option float;
  forced_alpha : option float
}.

Definition __init__ : t := {| last_val := None; forced_alpha := None |}.

Definition set_alpha (self : t) (alpha : float) : t :=
  {| last_val := last_val self; forced_alpha := Some alpha |}.

Definition filter (self : t) (val : float) (alpha : option float) : t * float :=
  match last_val self with
  | None => ({| last_val := Some val; forced_alpha := forced_alpha self |}, val)
  | Some last =>
      let alpha := match alpha with None => 1%float | Some a => a end in
      let v := (alpha * val + (1 - alpha) * last)%float in
      ({| last_val := Some v; forced_alpha := forced_alpha self |}, v)
  end.

End LowPassFilter.

(** [OneEuroFilter] in double arithmetic; [math.pi] is the double nearest
    to pi, and a division raises exactly when its divisor compares equal to
    zero. *)
Module OneEuroFilter.

Definition pi : float := 0x1.921fb54442d18p+1%float.

Record t : Type := mk {
  freq : float;
  min_cutoff : float;
  beta : float;
  d_cutoff : float;
  x_filter : LowPassFilter.t;
  y_filter : LowPassFilter.t;
  dx_filter : LowPassFilter.t;
  last_time : option float
}.

Definition __init__ (min_cutoff beta d_cutoff freq : float) : t :=
  {| freq := freq;
     min_cutoff := min_cutoff;
     beta := beta;
     d_cutoff := d_cutoff;
     x_filter := LowPassFilter.__init__;
     y_filter := LowPassFilter.__init__;
     dx_filter := LowPassFilter.__init__;
     last_time := None |}.

Definition filter (self : t) (x y timestamp : float)
  : outcome (t * (option float * option float)) :=
  match last_time self with
  | None =>
      let xf := LowPassFilter.set_alpha (x_filter self) 1 in
      let yf := LowPassFilter.set_alpha (y_filter self) 1 in
      let '(xf, ox) := LowPassFilter.filter xf x None in
      let '(yf, oy) := LowPassFilter.filter yf y None in
      Return ({| freq := freq self;
                 min_cutoff := min_cutoff self;
                 beta := beta self;
                 d_cutoff := d_cutoff self;
                 x_filter := xf;
                 y_filter := yf;
                 dx_filter := dx_filter self;
                 last_time := Some timestamp |},
              (Some ox, Some oy))
  | Some last =>
      let dt := (timestamp - last)%float in
      if (dt <=? 0)%float then
        Return ({| freq := freq self;
                   min_cutoff := min_cutoff self;
                   beta := beta self;
                   d_cutoff := d_cutoff self;
                   x_filter := x_filter self;
                   y_filter := y_filter self;
                   dx_filter := dx_filter self;
                   last_time := Some timestamp |},
                (LowPassFilter.last_val (x_filter self),
                 LowPassFilter.last_val (y_filter self)))
      else
        match LowPassFilter.last_val (x_filter self),
              LowPassFilter.last_val (y_filter self) with
        | Some last_x, Some last_y =>
            let target_dx := ((x - last_x) / dt)%float in
            let target_dy := ((y - last_y) / dt)%float in
            let '(dxf, edx) :=
              LowPassFilter.filter (dx_filter self)
                (abs target_dx + abs target_dy)%float None in
            let cutoff := (min_cutoff self + beta self * abs edx)%float in
            if (2 * pi * cutoff =? 0)%float then Raise ZeroDivisionError
            else
              let tau := (1 / (2 * pi * cutoff))%float in
              if (1 + tau / dt =? 0)%float then Raise ZeroDivisionError
              else
                let alpha := (1 / (1 + tau / dt))%float in
                let '(xf, ox) :=
                  LowPassFilter.filter (x_filter self) x (Some alpha) in
                let '(yf, oy) :=
                  LowPassFilter.filter (y_filter self) y (Some alpha) in
                Return ({| freq := freq self;
                           min_cutoff := min_cutoff self;
                           beta := beta self;
                           d_cutoff := d_cutoff self;
                           x_filter := xf;
                           y_filter := yf;
                           dx_filter := dxf;
                           last_time := Some timestamp |},
                        (Some ox, Some oy))
        | _, _ => Raise TypeError
        end
  end.

(** The keyword defaults [min_cutoff=1.0, beta=0.0, d_cutoff=1.0, freq=30.0]. *)
Definition default : t := __init__ 1 0 1 30.

(** What the caller of [filter] receives: the pair, or nothing when the call
    raised. *)
Definition returned (r : outcome (t * (option float * option float)))
  : option (option float * option float) :=
  match r with
  | Return (_, out) => Some out
  | Raise _ => None
  end.

End OneEuroFilter.
(** The doubles Python writes [0.3] and [0.30000000000000004], and the
    double of [1 / 30]. *)
Definition three_tenths : float := 0x1.3333333333333p-2%float.
Definition above_three_tenths : float := 0x1.3333333333334p-2%float.
Definition one_thirtieth : float := 0x1.1111111111111p-5%float.
Definition zero : float := 0%float.

(** The filter with the constructor's defaults after its first call, made
    at time 0 on the point (0.3, 0.3). *)
Definition resting : OneEuroFilter.t :=
  {| OneEuroFilter.freq := 30;
     OneEuroFilter.min_cutoff := 1;
     OneEuroFilter.beta := 0;
     OneEuroFilter.d_cutoff := 1;
     OneEuroFilter.x_filter :=
       {| LowPassFilter.last_val := Some three_tenths;
          LowPassFilter.forced_alpha := Some 1%float |};
     OneEuroFilter.y_filter :=
       {| LowPassFilter.last_val := Some three_tenths;
          LowPassFilter.forced_alpha := Some 1%float |};
     OneEuroFilter.dx_filter := LowPassFilter.__init__;
     OneEuroFilter.last_time := Some zero |}.

End Binary64.

(** Time stamps after [last] whose steps are [step], [step / 2],
    [step / 4], ...: strictly increasing, with a bounded sum. *)
Fixpoint halving (last step : R) (n : nat) : list R :=
  match n with
  | O => []
  | S n => (last + step) :: halving (last + step) (step / 2) n
  end.

(** ** input_controller.py and the worker loop of main.py *)

(** [int(v)] of a float: truncation toward zero. *)
Definition py_int (v : R) : Z :=
  if Rleb 0 v then Int_part v else (- Int_part (- v))%Z.

Module InputController.

(** The [win32con] flag values. *)
Definition MOUSEEVENTF_MOVE : Z := 1.
Definition MOUSEEVENTF_LEFTDOWN : Z := 2.
Definition MOUSEEVENTF_LEFTUP : Z := 4.
Definition MOUSEEVENTF_WHEEL : Z := 2048.

(** Storing a Python integer in a [ctypes] field keeps its low 32 bits:
    [c_long] reads them as a signed, [c_ulong] as an unsigned number. *)
Definition c_long (v : Z) : Z := ((v + 2 ^ 31) mod 2 ^ 32 - 2 ^ 31)%Z.
Definition c_ulong (v : Z) : Z := (v mod 2 ^ 32)%Z.

(** An [INPUT] structure as handed to [SendInput]: its [type] and the
    integer fields of its [MOUSEINPUT] ([dwExtraInfo] is always null). *)
Record INPUT : Type := mkINPUT {
  type : Z;
  dx : Z;
  dy : Z;
  mouseData : Z;
  dwFlags : Z;
  time : Z
}.

(** [INPUT()]: every field zero. *)
Definition INPUT0 : INPUT :=
  {| type := 0; dx := 0; dy := 0; mouseData := 0; dwFlags := 0; time := 0 |}.

(** Each method returns the structures it passes to [SendInput], in order. *)
Definition move_cursor_relative (dx dy sensitivity : R) : list INPUT :=
  let pixel_dx := py_int (dx * sensitivity) in
  let pixel_dy := py_int (dy * sensitivity) in
  if (pixel_dx =? 0)%Z && (pixel_dy =? 0)%Z then []
  else
    [ {| type := c_ulong 0;
         InputController.dx := c_long pixel_dx;
         InputController.dy := c_long pixel_dy;
         mouseData := c_ulong 0;
         dwFlags := c_ulong MOUSEEVENTF_MOVE;
         time := c_ulong 0 |} ].

Definition _send_mouse_event (flags : Z) : list INPUT :=
  [ {| type := c_ulong 0;
       dx := dx INPUT0;
       dy := dy INPUT0;
       mouseData := mouseData INPUT0;
       dwFlags := c_ulong flags;
       time := time INPUT0 |} ].

Definition left_click : list INPUT :=
  _send_mouse_event MOUSEEVENTF_LEFTDOWN ++ _send_mouse_event MOUSEEVENTF_LEFTUP.

Definition scroll_vertical (steps : R) : list INPUT :=
  let amount := py_int (steps * 120) in
  [ {| type := c_ulong 0;
       dx := c_long 0;
       dy := c_long 0;
       mouseData := c_ulong amount;
       dwFlags := c_ulong MOUSEEVENTF_WHEEL;
       time := c_ulong 0 |} ].

End InputController.

Module VisionWorker.

(** The fields of the worker that the settings dialog writes and the loop
    reads.  The loop is modelled one iteration at a time; the fields do not
    change while an iteration runs.  The sensitivities are finite floats,
    as the constructor and the sliders of the dialog provide; a [NaN] or an
    infinity copied from a profile is not a value of this model. *)
Record t : Type := mk {
  sensitivity_x : R;
  sensitivity_y : R;
  keep_awake : bool;
  request_wake : bool;
  invert_scroll : bool;
  pending_click_thresh : R;
  current_click_thresh_val : R
}.

Definition __init__ : t :=
  {| sensitivity_x := 1500;
     sensitivity_y := 1500;
     keep_awake := false;
     request_wake := false;
     invert_scroll := false;
     pending_click_thresh := -1;
     current_click_thresh_val := 20 / 100 |}.

Definition set_click_threshold (self : t) (val : R) : t :=
  {| sensitivity_x := sensitivity_x self;
     sensitivity_y := sensitivity_y self;
     keep_awake := keep_awake self;
     request_wake := request_wake self;
     invert_scroll := invert_scroll self;
     pending_click_thresh := val;
     current_click_thresh_val := val |}.

Definition set_sensitivity (self : t) (x y : R) : t :=
  {| sensitivity_x := x;
     sensitivity_y := y;
     keep_awake := keep_awake self;
     request_wake := request_wake self;
     invert_scroll := invert_scroll self;
     pending_click_thresh := pending_click_thresh self;
     current_click_thresh_val := current_click_thresh_val self |}.

Definition set_keep_awake (self : t) (enabled : bool) : t :=
  {| sensitivity_x := sensitivity_x self;
     sensitivity_y := sensitivity_y self;
     keep_awake := enabled;
     request_wake := request_wake self;
     invert_scroll := invert_scroll self;
     pending_click_thresh := pending_click_thresh self;
     current_click_thresh_val := current_click_thresh_val self |}.

Definition set_request_wake (self : t) (b : bool) : t :=
  {| sensitivity_x := sensitivity_x self;
     sensitivity_y := sensitivity_y self;
     keep_awake := keep_awake self;
     request_wake := b;
     invert_scroll := invert_scroll self;
     pending_click_thresh := pending_click_thresh self;
     current_click_thresh_val := current_click_thresh_val self |}.

Definition trigger_wake (self : t) : t := set_request_wake self true.

Definition set_invert_scroll (self : t) (enabled : bool) : t :=
  {| sensitivity_x := sensitivity_x self;
     sensitivity_y := sensitivity_y self;
     keep_awake := keep_awake self;
     request_wake := request_wake self;
     invert_scroll := enabled;
     pending_click_thresh := pending_click_thresh self;
     current_click_thresh_val := current_click_thresh_val self |}.

Definition set_pending_click_thresh (self : t) (val : R) : t :=
  {| sensitivity_x := sensitivity_x self;
     sensitivity_y := sensitivity_y self;
     keep_awake := keep_awake self;
     request_wake := request_wake self;
     invert_scroll := invert_scroll self;
     pending_click_thresh := val;
     current_click_thresh_val := current_click_thresh_val self |}.

(** The local variables of [run] that live across iterations. *)
Record Locals : Type := mkLocals {
  gesture_mgr : GestureManager.t;
  smoother : OneEuroFilter.t;
  prev_x : R;
  prev_y : R;
  first_frame : bool;
  screen_w : Z;
  screen_h : Z
}.

(** The locals before the first iteration; the screen size is what
    [InputController()] read from the system. *)
Definition start (screen_w screen_h : Z) : Locals :=
  {| gesture_mgr := GestureManager.__init__;
     smoother := OneEuroFilter.__init__ (1 / 10) (1 / 2) 1 30;
     prev_x := 0;
     prev_y := 0;
     first_frame := true;
     VisionWorker.screen_w := screen_w;
     VisionWorker.screen_h := screen_h |}.

(** What one iteration takes from outside: the hand [get_frame] found in a
    delivered frame, and the three clock readings made while handling it (by
    [process], by [_detect_hold_to_wake] and by the smoother). *)
Record Frame : Type := mkFrame {
  landmarks : option Landmarks;
  handedness : option string;
  process_time : R;
  hold_time : R;
  filter_time : R
}.

(** The arguments of [update_overlay_signal.emit]. *)
Record Signal : Type := mkSignal {
  ui_x : Z;
  ui_y : Z;
  is_tracking : bool;
  is_sleep : bool;
  is_scrolling : bool
}.

(** What an iteration leaves behind: the worker fields, the locals, the
    structures sent to [SendInput] in order and the emitted signal. *)
Record Result : Type := mkResult {
  worker : t;
  locals : Locals;
  sent : list InputController.INPUT;
  signal : option Signal
}.

(** The click-threshold and force-wake checks at the top of the loop body. *)
Definition apply_requests (self : t) (mgr : GestureManager.t)
  : t * GestureManager.t :=
  let '(self, mgr) :=
    if Rltb 0 (pending_click_thresh self)
    then (set_pending_click_thresh self (-1),
          GestureManager.set_click_threshold mgr (pending_click_thresh self))
    else (self, mgr) in
  if request_wake self
  then (set_request_wake self false,
        GestureManager.set_current_state mgr GestureState.IDLE)
  else (self, mgr).

(** The state reported for the frame and the manager after the
    [keep_awake] overrides. *)
Definition override_sleep (self : t) (mgr : GestureManager.t)
  (state : GestureState.t) (action : GestureAction.t)
  : GestureManager.t * GestureState.t :=
  let '(mgr, state) :=
    match action with
    | GestureAction.WAKE => (mgr, state)
    | GestureAction.SLEEP =>
        if keep_awake self
        then (GestureManager.set_current_state mgr GestureState.IDLE,
              GestureState.IDLE)
        else (mgr, state)
    | _ => (mgr, state)
    end in
  if keep_awake self && GestureState.eqb state GestureState.SLEEP
  then (GestureManager.set_current_state mgr GestureState.IDLE,
        GestureState.IDLE)
  else (mgr, state).

(** The MOVE / SCROLL / CLICK part of the loop body. *)
Definition pointer_events (self : t) (state : GestureState.t)
  (action : GestureAction.t) (curr_x_norm curr_y_norm prev_x prev_y : R)
  : list InputController.INPUT :=
  (if GestureState.eqb state GestureState.TRACKING
      || GestureState.eqb state GestureState.CLICK_PENDING
   then
     let dx := curr_x_norm - prev_x in
     let dy := curr_y_norm - prev_y in
     InputController.move_cursor_relative dx dy (sensitivity_x self)
   else if GestureState.eqb state GestureState.SCROLLING then
     let dy := curr_y_norm - prev_y in
     if Rltb (2 / 1000) (Rabs dy) then
       let dir := if Rltb 0 dy then -1 else 1 in
       let magnitude := Rabs dy * 50 in
       let dir := if invert_scroll self then - dir else dir in
       InputController.scroll_vertical (dir * magnitude)
     else []
   else [])
  ++ match action with
     | GestureAction.CLICK => InputController.left_click
     | _ => []
     end.

(** One iteration of the [while self.running] loop on a delivered frame.
    The performance switch and the debug window, which touch only the camera
    engine and the display, are left out. *)
Definition iteration (self : t) (l : Locals) (f : Frame) : outcome Result :=
  let '(self, mgr) := apply_requests self (gesture_mgr l) in
  match landmarks f with
  | None =>
      Return {| worker := self;
                locals := {| gesture_mgr := mgr;
                             smoother := smoother l;
                             prev_x := prev_x l;
                             prev_y := prev_y l;
                             first_frame := true;
                             screen_w := screen_w l;
                             screen_h := screen_h l |};
                sent := [];
                signal := None |}
  | Some lm =>
      let '(mgr, (state, action)) :=
        GestureManager.process mgr (process_time f) (hold_time f) (Some lm)
          (handedness f) in
      let '(mgr, state) := override_sleep self mgr state action in
      let i_tip := landmark lm 8 in
      match OneEuroFilter.filter (smoother l) (x i_tip) (y i_tip)
              (filter_time f) with
      | Raise e => Raise e
      | Return (sm, (Some curr_x_norm, Some curr_y_norm)) =>
          let ui_x := py_int (curr_x_norm * IZR (screen_w l)) in
          let ui_y := py_int (curr_y_norm * IZR (screen_h l)) in
          let '(px, py) :=
            if first_frame l then (curr_x_norm, curr_y_norm)
            else (prev_x l, prev_y l) in
          Return {| worker := self;
                    locals := {| gesture_mgr := mgr;
                                 smoother := sm;
                                 prev_x := curr_x_norm;
                                 prev_y := curr_y_norm;
                                 first_frame := false;
                                 screen_w := screen_w l;
                                 screen_h := screen_h l |};
                    sent := pointer_events self state action
                              curr_x_norm curr_y_norm px py;
                    signal :=
                      Some {| VisionWorker.ui_x := ui_x;
                              VisionWorker.ui_y := ui_y;
                              is_tracking :=
                                GestureState.eqb state GestureState.TRACKING
                                || GestureState.eqb state
                                     GestureState.CLICK_PENDING;
                              is_sleep :=
                                GestureState.eqb state GestureState.SLEEP;
                              is_scrolling :=
                                GestureState.eqb state GestureState.SCROLLING
                           |} |}
      | Return (_, _) => Raise TypeError
      end
  end.

(** What the settings dialog can do to the worker between two iterations. *)
Inductive Command : Type :=
| SetSensitivity (x y : R)
| SetKeepAwake (enabled : bool)
| SetClickThreshold (val : R)
| TriggerWake
| SetInvertScroll (enabled : bool).

Definition command (self : t) (c : Command) : t :=
  match c with
  | SetSensitivity x y => set_sensitivity self x y
  | SetKeepAwake enabled => set_keep_awake self enabled
  | SetClickThreshold val => set_click_threshold self val
  | TriggerWake => trigger_wake self
  | SetInvertScroll enabled => set_invert_scroll self enabled
  end.

(** The loop over the delivered frames, each preceded by the commands that
    arrived since the last one: the final fields and locals with everything
    sent to [SendInput], or the exception that ends the loop. *)
Fixpoint loop (self : t) (l : Locals) (frames : list (list Command * Frame))
  : outcome (t * Locals * list InputController.INPUT) :=
  match frames with
  | [] => Return (self, l, [])
  | (cs, f) :: rest =>
      match iteration (fold_left command cs self) l f with
      | Raise e => Raise e
      | Return r =>
          match loop (worker r) (locals r) rest with
          | Raise e => Raise e
          | Return (self', l', evs) => Return (self', l', sent r ++ evs)
          end
      end
  end.

(** The worker with its vertical sensitivity replaced by [y]. *)
Definition with_sensitivity_y (self : t) (y : R) : t :=
  set_sensitivity self (sensitivity_x self) y.

(** The command with the vertical sensitivity it carries, if any, replaced
    by [y]. *)
Definition command_with_y (y : R) (c : Command) : Command :=
  match c with
  | SetSensitivity x _ => SetSensitivity x y
  | c => c
  end.

(** What a session did to the machine: everything sent to [SendInput] and
    the final manager, or the exception. *)
Definition effects (r : outcome (t * Locals * list InputController.INPUT))
  : outcome (list InputController.INPUT * Locals) :=
  match r with
  | Return (_, l, evs) => Return (evs, l)
  | Raise e => Raise e
  end.

(** The smoother as the loop keeps it: the one [run] built, before or after
    its first sample. *)
Definition smoother_ready (sm : OneEuroFilter.t) : Prop :=
  sm = OneEuroFilter.__init__ (1 / 10) (1 / 2) 1 30
  \/ (OneEuroFilter.min_cutoff sm = 1 / 10
      /\ OneEuroFilter.beta sm = 1 / 2
      /\ exists last vx vy,
           OneEuroFilter.last_time sm = Some last
           /\ LowPassFilter.last_val (OneEuroFilter.x_filter sm) = Some vx
           /\ LowPassFilter.last_val (OneEuroFilter.y_filter sm) = Some vy).

(** The values a command of the settings dialog can carry: its sliders run
    from 100 to 5000 (sensitivities) and from 0.05 to 0.80 (click
    threshold). *)
Definition dialog_command (c : Command) : Prop :=
  match c with
  | SetSensitivity x y => 100 <= x <= 5000 /\ 100 <= y <= 5000
  | SetClickThreshold val => 50 / 1000 <= val <= 800 / 1000
  | _ => True
  end.

End VisionWorker.

(** A frame at time 113 that shows the hand [pinch 0.25]. *)
Definition pinch_frame : VisionWorker.Frame :=
  {| VisionWorker.landmarks := Some (pinch (25 / 100));
     VisionWorker.handedness := None;
     VisionWorker.process_time := 113;
     VisionWorker.hold_time := 113;
     VisionWorker.filter_time := 113 |}.

(** ** main.py: the profiles of the configuration file *)

Module ConfigFile.

(** A value as [json.load] builds it.  [Number] is a finite integer or
    float; [NaN] and [Infinity] are the floats the tokens [NaN], [Infinity]
    and [-Infinity], or a literal too large for a double, are read as. *)
#[warnings="-register-all"] Inductive value : Type :=
| Null
| Boolean (b : bool)
| Number (r : R)
| NaN
| Infinity (negative : bool)
| Str (s : string)
| Array (items : list value)
| Object (items : list (string * value)).

(** A Python [dict] with string keys, in insertion order. *)
Definition dict : Type := list (string * value).

Fixpoint dict_get (d : dict) (k : string) : option value :=
  match d with
  | [] => None
  | (k', v) :: rest => if String.eqb k' k then Some v else dict_get rest k
  end.

(** [d.get(k, default)]. *)
Definition get (d : dict) (k : string) (default : value) : value :=
  match dict_get d k with
  | Some v => v
  | None => default
  end.

(** [k in d]. *)
Definition contains (d : dict) (k : string) : bool :=
  match dict_get d k with
  | Some _ => true
  | None => false
  end.

(** [d[k] = v]: the value is replaced in place, a new key goes to the end. *)
Fixpoint set (d : dict) (k : string) (v : value) : dict :=
  match d with
  | [] => [(k, v)]
  | (k', v') :: rest =>
      if String.eqb k' k then (k', v) :: rest else (k', v') :: set rest k v
  end.

(** The exceptions the loop of [sanitize_config] can raise. *)
Inductive error : Type := TypeError | AttributeError.

Inductive result (A : Type) : Type :=
| Ok (a : A)
| Err (e : error).
Arguments Ok {A} a.
Arguments Err {A} e.

Definition bind {A B : Type} (m : result A) (f : A -> result B) : result B :=
  match m with
  | Ok a => f a
  | Err e => Err e
  end.

Notation "x <- m ;; f" := (bind m (fun x => f))
  (at level 61, m at next level, right associativity).

(** The finite number a value stands for in an order comparison: a number,
    or a boolean read as 0 or 1. *)
Definition as_number (v : value) : option R :=
  match v with
  | Number r => Some r
  | Boolean b => Some (if b then 1 else 0)
  | _ => None
  end.

(** The values Python orders against a float: integers, floats (the
    non-finite ones included) and booleans.  Every other value raises
    [TypeError]. *)
Definition orderable (v : value) : bool :=
  match v with
  | Number _ | Boolean _ | NaN | Infinity _ => true
  | _ => false
  end.

(** [v < c] and [v > c] for a finite float [c]: every comparison with [NaN]
    is false. *)
Definition lt (v : value) (c : R) : result bool :=
  match v with
  | NaN => Ok false
  | Infinity negative => Ok negative
  | _ =>
      match as_number v with
      | Some r => Ok (Rltb r c)
      | None => Err TypeError
      end
  end.

Definition gt (v : value) (c : R) : result bool :=
  match v with
  | NaN => Ok false
  | Infinity negative => Ok (negb negative)
  | _ =>
      match as_number v with
      | Some r => Ok (Rltb c r)
      | None => Err TypeError
      end
  end.

Definition DEFAULT_PROFILE : dict :=
  [ ("sensitivity_x"%string, Number 1500);
    ("sensitivity_y"%string, Number 1500);
    ("click_threshold"%string, Number (20 / 100));
    ("keep_awake"%string, Boolean false);
    ("high_performance"%string, Boolean false);
    ("invert_scroll"%string, Boolean false) ].

(** [if p.get(k, 0) < bound: p[k] = v]. *)
Definition raise_to (p : dict) (k : string) (bound : R) (v : value)
  : result dict :=
  low <- lt (get p k (Number 0)) bound ;;
  Ok (if low then set p k v else p).

(** [if p.get(k, 0) > bound: p[k] = v]. *)
Definition cap_at (p : dict) (k : string) (bound : R) (v : value)
  : result dict :=
  high <- gt (get p k (Number 0)) bound ;;
  Ok (if high then set p k v else p).

(** [for k, v in DEFAULT_PROFILE.items(): if k not in p: p[k] = v]. *)
Definition fill_missing (p : dict) : dict :=
  fold_left (fun p kv => if contains p (fst kv) then p else set p (fst kv) (snd kv))
    DEFAULT_PROFILE p.

(** The body of the loop of [sanitize_config] for one profile [p]; a profile
    that is not a [dict] has no [get]. *)
Definition sanitize_profile (p : value) : result value :=
  match p with
  | Object p =>
      p <- raise_to p "sensitivity_x" 100 (Number 1500) ;;
      p <- raise_to p "sensitivity_y" 100 (Number 1500) ;;
      p <- raise_to p "click_threshold" (5 / 100) (Number (20 / 100)) ;;
      p <- cap_at p "click_threshold" 1 (Number (20 / 100)) ;;
      Ok (Object (fill_missing p))
  | _ => Err AttributeError
  end.

(** The loop of [sanitize_config] over the items of the profiles
    dictionary: the profiles after it, or the first exception. *)
Fixpoint sanitize_profiles (profiles : dict) : result dict :=
  match profiles with
  | [] => Ok []
  | (name, p) :: rest =>
      p <- sanitize_profile p ;;
      rest <- sanitize_profiles rest ;;
      Ok ((name, p) :: rest)
  end.

(** The value under [k] is a number (or a boolean) of at least [lo]. *)
Definition at_least (p : dict) (k : string) (lo : R) : Prop :=
  exists v r, dict_get p k = Some v /\ as_number v = Some r /\ lo <= r.

(** A profile in range: the six keys of the default profile, both
    sensitivities finite and at least 100, the click threshold finite and
    in [0.05, 1]. *)
Definition valid (p : dict) : Prop :=
  at_least p "sensitivity_x" 100
  /\ at_least p "sensitivity_y" 100
  /\ (exists v r, dict_get p "click_threshold" = Some v
                  /\ as_number v = Some r /\ 5 / 100 <= r <= 1)
  /\ contains p "keep_awake" = true
  /\ contains p "high_performance" = true
  /\ contains p "invert_scroll" = true.

(** What the loop establishes for a profile: none of its four guards fires
    any more and the six keys of the default profile are present. *)
Definition settled (p : dict) : Prop :=
  lt (get p "sensitivity_x" (Number 0)) 100 = Ok false
  /\ lt (get p "sensitivity_y" (Number 0)) 100 = Ok false
  /\ lt (get p "click_threshold" (Number 0)) (5 / 100) = Ok false
  /\ gt (get p "click_threshold" (Number 0)) 1 = Ok false
  /\ (forall k v, In (k, v) DEFAULT_PROFILE -> contains p k = true).

(** The three checked keys hold finite numbers (or booleans) where they are
    present. *)
Definition finite_numbers (p : dict) : Prop :=
  as_number (get p "sensitivity_x" (Number 0)) <> None
  /\ as_number (get p "sensitivity_y" (Number 0)) <> None
  /\ as_number (get p "click_threshold" (Number 0)) <> None.

(** The profile after the four range checks, given which of them fired. *)
Definition checked (d : dict) (low_x low_y low_c high_c : bool) : dict :=
  let d1 := if low_x then set d "sensitivity_x" (Number 1500) else d in
  let d2 := if low_y then set d1 "sensitivity_y" (Number 1500) else d1 in
  let d3 := if low_c then set d2 "click_threshold" (Number (20 / 100)) else d2 in
  if high_c then set d3 "click_threshold" (Number (20 / 100)) else d3.

End ConfigFile.

(** A profile written by hand: the horizontal sensitivity not a number,
    the click threshold too high, three keys missing. *)
Definition rough_profile : ConfigFile.dict :=
  [ ("sensitivity_x"%string, ConfigFile.NaN);
    ("click_threshold"%string, ConfigFile.Number 2);
    ("keep_awake"%string, ConfigFile.Boolean true) ].

(** [rough_profile] after the loop: the [NaN] is still there. *)
Definition smooth_profile : ConfigFile.dict :=
  [ ("sensitivity_x"%string, ConfigFile.NaN);
    ("click_threshold"%string, ConfigFile.Number (20 / 100));
    ("keep_awake"%string, ConfigFile.Boolean true);
    ("sensitivity_y"%string, ConfigFile.Number 1500);
    ("high_performance"%string, ConfigFile.Boolean false);
    ("invert_scroll"%string, ConfigFile.Boolean false) ].

(** * Properties *)

(** ** Comparisons *)

Lemma Rltb_true (a b : R) : Rltb a b = true <-> a < b.
Proof. unfold Rltb; destruct (Rlt_dec a b); split; intros; auto; discriminate. Qed.

Lemma Rltb_false (a b : R) : Rltb a b = false <-> b <= a.
Proof.
  unfold Rltb; destruct (Rlt_dec a b); split; intros; auto; try discriminate; lra.
Qed.

Lemma Rleb_true (a b : R) : Rleb a b = true <-> a <= b.
Proof. unfold Rleb; destruct (Rle_dec a b); split; intros; auto; discriminate. Qed.

Lemma Rleb_false (a b : R) : Rleb a b = false <-> b < a.
Proof.
  unfold Rleb; destruct (Rle_dec a b); split; intros; auto; try discriminate; lra.
Qed.

Lemma Reqb_true (a b : R) : Reqb a b = true <-> a = b.
Proof. unfold Reqb; destruct (Req_dec_T a b); split; intros; auto; discriminate. Qed.

Lemma Reqb_false (a b : R) : Reqb a b = false <-> a <> b.
Proof.
  unfold Reqb; destruct (Req_dec_T a b); split; intros; auto; try discriminate.
  contradiction.
Qed.

Lemma GestureState_eqb_eq (a b : GestureState.t) :
  GestureState.eqb a b = true <-> a = b.
Proof. destruct a, b; simpl; split; intros; try discriminate; reflexivity. Qed.

Lemma GestureState_eqb_neq (a b : GestureState.t) :
  GestureState.eqb a b = false <-> a <> b.
Proof.
  destruct a, b; simpl; split; intros; try discriminate; try reflexivity;
    congruence.
Qed.

(** Decides the comparisons, minima and maxima of a goal whose numbers are
    literals. *)
Ltac rdecide :=
  repeat match goal with
  | |- context [Rltb ?a ?b] =>
      first [ rewrite (proj2 (Rltb_true a b)) by lra
            | rewrite (proj2 (Rltb_false a b)) by lra ]
  | |- context [Rleb ?a ?b] =>
      first [ rewrite (proj2 (Rleb_true a b)) by lra
            | rewrite (proj2 (Rleb_false a b)) by lra ]
  | |- context [Reqb ?a ?b] =>
      first [ rewrite (proj2 (Reqb_true a b)) by lra
            | rewrite (proj2 (Reqb_false a b)) by lra ]
  | |- context [Rmin ?a ?b] =>
      first [ rewrite (Rmin_left a b) by lra
            | rewrite (Rmin_right a b) by lra ]
  | |- context [Rmax ?a ?b] =>
      first [ rewrite (Rmax_left a b) by lra
            | rewrite (Rmax_right a b) by lra ]
  end.

(** ** Minimum, maximum and the bounded deque *)

Lemma fold_min_spec (l : list R) (a : R) :
  (fold_left Rmin l a = a \/ In (fold_left Rmin l a) l)
  /\ fold_left Rmin l a <= a
  /\ (forall v, In v l -> fold_left Rmin l a <= v).
Proof.
  revert a; induction l as [|b l IH]; intros a; simpl.
  - repeat split; auto; try lra. intros v [].
  - destruct (IH (Rmin a b)) as (Hin & Hle & Hall).
    pose proof (Rmin_l a b). pose proof (Rmin_r a b).
    repeat split.
    + destruct Hin as [E|Hin]; [|auto].
      rewrite E. unfold Rmin. destruct (Rle_dec a b); auto.
    + lra.
    + intros v [<-|Hv]; [lra | auto].
Qed.

Lemma fold_max_spec (l : list R) (a : R) :
  (fold_left Rmax l a = a \/ In (fold_left Rmax l a) l)
  /\ a <= fold_left Rmax l a
  /\ (forall v, In v l -> v <= fold_left Rmax l a).
Proof.
  revert a; induction l as [|b l IH]; intros a; simpl.
  - repeat split; auto; try lra. intros v [].
  - destruct (IH (Rmax a b)) as (Hin & Hle & Hall).
    pose proof (Rmax_l a b). pose proof (Rmax_r a b).
    repeat split.
    + destruct Hin as [E|Hin]; [|auto].
      rewrite E. unfold Rmax. destruct (Rle_dec a b); auto.
    + lra.
    + intros v [<-|Hv]; [lra | auto].
Qed.

(** [list_min] is Python's [min]: an element of the sequence below all the
    others. *)
Lemma list_min_spec (l : list R) :
  l <> [] -> In (list_min l) l /\ (forall v, In v l -> list_min l <= v).
Proof.
  destruct l as [|a l]; [congruence|intros _].
  unfold list_min. destruct (fold_min_spec l a) as (Hin & Hle & Hall).
  split.
  - destruct Hin as [->|Hin]; [left; reflexivity | right; exact Hin].
  - intros v [<-|Hv]; auto.
Qed.

Lemma list_max_spec (l : list R) :
  l <> [] -> In (list_max l) l /\ (forall v, In v l -> v <= list_max l).
Proof.
  destruct l as [|a l]; [congruence|intros _].
  unfold list_max. destruct (fold_max_spec l a) as (Hin & Hle & Hall).
  split.
  - destruct Hin as [->|Hin]; [left; reflexivity | right; exact Hin].
  - intros v [<-|Hv]; auto.
Qed.

Lemma deque_append_length (n : nat) (l : list R) (v : R) :
  (0 < n)%nat -> (length l <= n)%nat -> (length (deque_append n l v) <= n)%nat.
Proof.
  intros Hn Hl. unfold deque_append.
  destruct (length l <? n)%nat eqn:E.
  - apply Nat.ltb_lt in E. rewrite length_app. simpl. lia.
  - apply Nat.ltb_ge in E.
    destruct l as [|a l]; simpl in *; [lia|].
    rewrite length_app. simpl. lia.
Qed.

Lemma deque_append_In (n : nat) (l : list R) (v w : R) :
  In w (deque_append n l v) -> w = v \/ In w l.
Proof.
  unfold deque_append. destruct (length l <? n)%nat.
  - intros H. apply in_app_or in H. destruct H as [H|[H|[]]]; auto.
  - destruct l as [|a l]; simpl.
    + intros [].
    + intros H. apply in_app_or in H. destruct H as [H|[H|[]]]; auto.
Qed.

(** Square roots of the axis-parallel distances of the sample hands. *)
Lemma sqrt_horizontal (a b c : R) :
  a <= b -> sqrt ((b - a) ^ 2 + (c - c) ^ 2) = b - a.
Proof.
  intros H. replace ((b - a) ^ 2 + (c - c) ^ 2) with ((b - a) * (b - a)) by ring.
  apply sqrt_square. lra.
Qed.

Lemma sqrt_vertical (a b c : R) :
  a <= b -> sqrt ((c - c) ^ 2 + (b - a) ^ 2) = b - a.
Proof.
  intros H. replace ((c - c) ^ 2 + (b - a) ^ 2) with ((b - a) * (b - a)) by ring.
  apply sqrt_square. lra.
Qed.

(** Evaluates the call [tick s tk] at the head of a goal on literal data,
    deciding each comparison as it is met. *)
Ltac unfold_model :=
  cbv - [Rltb Rleb Reqb Rmin Rmax Rplus Rminus Rmult Rdiv Rinv Ropp IZR sqrt
         pow Rabs PI GestureManager.run GestureManager.toggles].

Ltac rsimplify :=
  rewrite ?sqrt_horizontal, ?sqrt_vertical by lra; rdecide.

Ltac eval_model := unfold_model; repeat (progress rsimplify; unfold_model).

Ltac eval_tick :=
  match goal with
  | |- context [GestureManager.tick ?s ?tk] =>
      let H := fresh "Htick" in
      eassert (H : GestureManager.tick s tk = _);
      [ eval_model; reflexivity
      | rewrite H; clear H ]
  end.

Ltac eval_hold :=
  match goal with
  | |- context [GestureManager.wakes_by_hold ?s ?tk] =>
      let H := fresh "Hhold" in
      eassert (H : GestureManager.wakes_by_hold s tk = _);
      [ eval_model; reflexivity
      | rewrite H; clear H ]
  end.

(** ** The gesture state machine *)

Section GestureFacts.

Import GestureManager.

(** *** What the parts of [process] leave alone *)

Lemma normal_operation_action (self : t) (lm : Landmarks) :
  snd (snd (normal_operation self lm)) <> GestureAction.WAKE
  /\ snd (snd (normal_operation self lm)) <> GestureAction.SLEEP.
Proof.
  unfold normal_operation.
  destruct (is_tracking_pose lm), (was_thumb_closed self),
    (is_thumb_closed self lm), (is_scroll_pose lm); simpl; split; discriminate.
Qed.

(** [_detect_hold_to_wake] writes [hold_start_time] only. *)
Lemma detect_hold_frame (self : t) (now : R) (lm : Landmarks) :
  let self' := fst (_detect_hold_to_wake self now lm) in
  current_state self' = current_state self
  /\ wrist_history self' = wrist_history self
  /\ last_toggle_time self' = last_toggle_time self
  /\ was_thumb_closed self' = was_thumb_closed self
  /\ prev_state self' = prev_state self
  /\ CLICK_THRESHOLD self' = CLICK_THRESHOLD self.
Proof.
  unfold _detect_hold_to_wake.
  repeat match goal with
  | |- context [if ?b then _ else _] => destruct b; simpl
  end; repeat split; reflexivity.
Qed.

Lemma detect_hold_state (self self2 : t) (now : R) (lm : Landmarks) (b : bool) :
  _detect_hold_to_wake self now lm = (self2, b) ->
  current_state self2 = current_state self.
Proof.
  intros H. pose proof (detect_hold_frame self now lm) as F.
  rewrite H in F. simpl in F. tauto.
Qed.

(** C6: a call of [process] without landmarks returns the current state and
    the action [NONE], resets [hold_start_time] to its unset value [0] and
    leaves every other attribute (wrist history, current state, previous
    state, last toggle time, click latch, click threshold) as it was; in
    particular it never moves the machine to [SLEEP]. *)
Theorem process_no_observation
  (self : t) (current_time hold_time : R) (handedness : option string) :
  let '(self', (state, action)) :=
    process self current_time hold_time None handedness in
  state = current_state self
  /\ action = GestureAction.NONE
  /\ hold_start_time self' = 0
  /\ current_state self' = current_state self
  /\ wrist_history self' = wrist_history self
  /\ last_toggle_time self' = last_toggle_time self
  /\ was_thumb_closed self' = was_thumb_closed self
  /\ prev_state self' = prev_state self
  /\ CLICK_THRESHOLD self' = CLICK_THRESHOLD self
  /\ (current_state self <> GestureState.SLEEP ->
      current_state self' <> GestureState.SLEEP).
Proof.
  simpl. repeat split; auto.
Qed.

(** C10: the pair returned by [process] is coherent: [WAKE] comes with
    [IDLE], [SLEEP] with [SLEEP], [CLICK] with [CLICK_PENDING], [SCROLL]
    with [SCROLLING]; the returned state is the committed one; and no
    [CLICK] is returned by a call that starts in [SLEEP]. *)
Theorem process_state_action_coherent
  (self : t) (current_time hold_time : R) (landmarks : option Landmarks)
  (handedness : option string) :
  let '(self', (state, action)) :=
    process self current_time hold_time landmarks handedness in
  (action = GestureAction.WAKE -> state = GestureState.IDLE)
  /\ (action = GestureAction.SLEEP -> state = GestureState.SLEEP)
  /\ (action = GestureAction.CLICK -> state = GestureState.CLICK_PENDING)
  /\ (action = GestureAction.SCROLL -> state = GestureState.SCROLLING)
  /\ state = current_state self'
  /\ (current_state self = GestureState.SLEEP ->
      action <> GestureAction.CLICK).
Proof.
  unfold process.
  destruct landmarks as [lm|]; simpl.
  2: { repeat split; intros; discriminate. }
  destruct (_is_palm_facing lm handedness) eqn:Hpalm;
  destruct (current_state self) eqn:Hst; simpl;
  try (destruct (_detect_hold_to_wake _ hold_time lm) as [self2 held] eqn:Hh;
       pose proof (detect_hold_state _ _ _ _ _ Hh) as Hst2; simpl in Hst2;
       rewrite Hst in Hst2);
  try destruct held; simpl;
  unfold wave_and_after, normal_operation; simpl;
  try rewrite Hst2; try rewrite Hst; simpl;
  repeat match goal with
  | |- context [if ?b then _ else _] => destruct b eqn:?; simpl
  end;
  repeat split; intros; try discriminate; try reflexivity; try congruence.
Qed.

(** C4: with the deque within its capacity, [_detect_wave] answers [True]
    exactly when the buffer holds 20 samples, their minimum is at least
    0.1, their maximum at most 0.9 and maximum minus minimum exceeds 0.15;
    and whenever the minimum is below 0.1 or the maximum above 0.9 (some
    buffered sample lies in an edge band) the answer is [False], whatever
    the range. *)
Theorem detect_wave_iff (self : t) :
  (length (wrist_history self) <= WAVE_HISTORY_SIZE)%nat ->
  (_detect_wave self = true <->
     length (wrist_history self) = 20%nat
     /\ 1 / 10 <= list_min (wrist_history self)
     /\ list_max (wrist_history self) <= 9 / 10
     /\ list_max (wrist_history self) - list_min (wrist_history self)
        > 15 / 100)
  /\ (list_min (wrist_history self) < 1 / 10
      \/ list_max (wrist_history self) > 9 / 10 ->
      _detect_wave self = false)
  /\ ((exists v, In v (wrist_history self) /\ (v < 1 / 10 \/ v > 9 / 10)) ->
      _detect_wave self = false).
Proof.
  intros Hcap. unfold WAVE_HISTORY_SIZE in Hcap.
  assert (Hedge : list_min (wrist_history self) < 1 / 10
                  \/ list_max (wrist_history self) > 9 / 10 ->
                  _detect_wave self = false).
  { intros H. unfold _detect_wave.
    destruct (length (wrist_history self) <? WAVE_HISTORY_SIZE)%nat; auto.
    destruct H as [H|H].
    - apply Rltb_true in H. rewrite H. reflexivity.
    - apply Rltb_true in H. rewrite H. rewrite orb_true_r. reflexivity. }
  split; [|split; [exact Hedge|]].
  - unfold _detect_wave, WAVE_HISTORY_SIZE.
    destruct (length (wrist_history self) <? 20)%nat eqn:Hlen.
    + apply Nat.ltb_lt in Hlen. split; [discriminate|]. intros (H & _). lia.
    + apply Nat.ltb_ge in Hlen.
      destruct (Rltb (list_min (wrist_history self)) (1 / 10)) eqn:Hmin; simpl.
      { apply Rltb_true in Hmin. split; [discriminate|]. intros (_ & H & _). lra. }
      destruct (Rltb (9 / 10) (list_max (wrist_history self))) eqn:Hmax; simpl.
      { apply Rltb_true in Hmax. split; [discriminate|]. intros (_ & _ & H & _). lra. }
      apply Rltb_false in Hmin. apply Rltb_false in Hmax.
      destruct (Rltb (15 / 100)
                  (list_max (wrist_history self) - list_min (wrist_history self)))
        eqn:Hd.
      * apply Rltb_true in Hd. split; [intros _|reflexivity].
        repeat split; try lra; lia.
      * apply Rltb_false in Hd. split; [discriminate|]. intros (_ & _ & _ & H). lra.
  - intros (v & Hin & Hv). apply Hedge.
    assert (Hne : wrist_history self <> []) by (intros E; rewrite E in Hin; destruct Hin).
    destruct (list_min_spec _ Hne) as (_ & Hmin).
    destruct (list_max_spec _ Hne) as (_ & Hmax).
    specialize (Hmin v Hin). specialize (Hmax v Hin).
    destruct Hv; [left|right]; lra.
Qed.

(** *** The click edge *)

Lemma tracking_pose_one_finger (lm : Landmarks) :
  is_tracking_pose lm = true -> fingers_open lm = 1%nat.
Proof.
  unfold is_tracking_pose, fingers_open.
  destruct (is_index_up lm), (is_middle_up lm), (is_ring_up lm),
    (is_pinky_up lm); simpl; intros; try discriminate; reflexivity.
Qed.

Lemma is_thumb_closed_threshold (self self' : t) (lm : Landmarks) :
  CLICK_THRESHOLD self' = CLICK_THRESHOLD self ->
  is_thumb_closed self' lm = is_thumb_closed self lm.
Proof. unfold is_thumb_closed. intros ->. reflexivity. Qed.

(** What [wave_and_after] returns, by cases on the wave guard. *)
Lemma wave_and_after_cases (self : t) (ct : R) (lm : Landmarks) (is_palm : bool) :
  let self1 := history_append self (x (landmark lm 0)) in
  let fires :=
    Rltb WAVE_COOLDOWN (ct - last_toggle_time self)
    && (3 <=? fingers_open lm)%nat && is_palm && _detect_wave self1 in
  wave_and_after self ct lm is_palm =
  if fires then
    if GestureState.eqb (current_state self) GestureState.SLEEP
    then (set_current_state (set_last_toggle_time self1 ct) GestureState.IDLE,
          (GestureState.IDLE, GestureAction.WAKE))
    else (set_current_state (set_last_toggle_time self1 ct) GestureState.SLEEP,
          (GestureState.SLEEP, GestureAction.SLEEP))
  else if GestureState.eqb (current_state self) GestureState.SLEEP
       then (self1, (current_state self, GestureAction.NONE))
       else normal_operation self1 lm.
Proof. reflexivity. Qed.

(** While asleep [process] never reaches the pose classification. *)
Lemma asleep_no_click (self : t) (ct ht : R) (landmarks : option Landmarks)
  (hd : option string) :
  current_state self = GestureState.SLEEP ->
  snd (snd (process self ct ht landmarks hd)) <> GestureAction.CLICK.
Proof.
  intros Hst. destruct landmarks as [lm|]; [|simpl; discriminate].
  assert (Hw : forall s, current_state s = GestureState.SLEEP ->
    snd (snd (wave_and_after s ct lm (_is_palm_facing lm hd)))
    <> GestureAction.CLICK).
  { intros s Hs. rewrite wave_and_after_cases. cbv zeta. rewrite Hs. simpl.
    destruct (_ && _); simpl; discriminate. }
  unfold process. rewrite Hst. simpl.
  destruct (_is_palm_facing lm hd) eqn:Hpalm.
  - destruct (_detect_hold_to_wake (history_append self (x (landmark lm 0))) ht lm)
      as [self2 held] eqn:Hh.
    destruct held; [simpl; discriminate|].
    apply Hw. rewrite (detect_hold_state _ _ _ _ _ Hh). exact Hst.
  - apply Hw. exact Hst.
Qed.

(** A [CLICK] needs the tracking pose, a set latch and an open thumb, from
    whatever state the call starts. *)
Lemma click_needs_edge (self : t) (ct ht : R) (landmarks : option Landmarks)
  (hd : option string) :
  snd (snd (process self ct ht landmarks hd)) = GestureAction.CLICK ->
  exists lm, landmarks = Some lm
             /\ current_state self <> GestureState.SLEEP
             /\ is_tracking_pose lm = true
             /\ was_thumb_closed self = true
             /\ is_thumb_closed self lm = false.
Proof.
  destruct landmarks as [lm|]; [|simpl; discriminate].
  intros Hc. exists lm. split; [reflexivity|].
  assert (Hawake : current_state self <> GestureState.SLEEP).
  { intros E. apply (asleep_no_click self ct ht (Some lm) hd E). exact Hc. }
  destruct (process self ct ht (Some lm) hd) as [self' [st act]] eqn:Hp.
  simpl in Hc. subst act.
  split; [exact Hawake|].
  unfold process in Hp.
  apply GestureState_eqb_neq in Hawake. rewrite Hawake in Hp.
  rewrite wave_and_after_cases in Hp. cbv zeta in Hp.
  rewrite Hawake in Hp.
  destruct (Rltb WAVE_COOLDOWN (ct - last_toggle_time self) &&
            (3 <=? fingers_open lm)%nat && _is_palm_facing lm hd &&
            _detect_wave (history_append self (x (landmark lm 0)))).
  - discriminate.
  - unfold normal_operation in Hp. simpl in Hp.
    change (is_thumb_closed (history_append self (x (landmark lm 0))) lm)
      with (is_thumb_closed self lm) in Hp.
    destruct (is_tracking_pose lm).
    + destruct (was_thumb_closed self), (is_thumb_closed self lm);
        simpl in Hp; try discriminate; auto.
    + destruct (is_scroll_pose lm); discriminate.
Qed.

Lemma click_on_edge (self : t) (ct ht : R) (lm : Landmarks) (hd : option string) :
  current_state self <> GestureState.SLEEP ->
  is_tracking_pose lm = true ->
  was_thumb_closed self = true ->
  is_thumb_closed self lm = false ->
  process self ct ht (Some lm) hd =
  ({| CLICK_THRESHOLD := CLICK_THRESHOLD self;
      hold_start_time := hold_start_time self;
      current_state := GestureState.CLICK_PENDING;
      prev_state := current_state self;
      was_thumb_closed := false;
      wrist_history :=
        deque_append WAVE_HISTORY_SIZE (wrist_history self) (x (landmark lm 0));
      last_toggle_time := last_toggle_time self |},
   (GestureState.CLICK_PENDING, GestureAction.CLICK)).
Proof.
  intros Hawake Htr Hlatch Hopen.
  unfold process. apply GestureState_eqb_neq in Hawake. rewrite Hawake.
  rewrite wave_and_after_cases. cbv zeta. rewrite Hawake.
  rewrite (tracking_pose_one_finger lm Htr). simpl (3 <=? 1)%nat.
  rewrite andb_false_r. simpl.
  unfold normal_operation. simpl.
  change (is_thumb_closed (history_append self (x (landmark lm 0))) lm)
    with (is_thumb_closed self lm).
  rewrite Htr, Hlatch, Hopen. reflexivity.
Qed.

(** The latch after a call: untouched, or the thumb state just computed. *)
Lemma latch_after (self : t) (ct ht : R) (landmarks : option Landmarks)
  (hd : option string) :
  let self' := fst (process self ct ht landmarks hd) in
  CLICK_THRESHOLD self' = CLICK_THRESHOLD self
  /\ (was_thumb_closed self' = was_thumb_closed self
      \/ exists lm, landmarks = Some lm
                    /\ was_thumb_closed self' = is_thumb_closed self lm).
Proof.
  destruct landmarks as [lm|]; [|simpl; auto].
  assert (Hw : forall s, CLICK_THRESHOLD s = CLICK_THRESHOLD self ->
                         was_thumb_closed s = was_thumb_closed self ->
    CLICK_THRESHOLD (fst (wave_and_after s ct lm (_is_palm_facing lm hd)))
    = CLICK_THRESHOLD self
    /\ (was_thumb_closed (fst (wave_and_after s ct lm (_is_palm_facing lm hd)))
        = was_thumb_closed self
        \/ exists lm0, Some lm = Some lm0
             /\ was_thumb_closed
                  (fst (wave_and_after s ct lm (_is_palm_facing lm hd)))
                = is_thumb_closed self lm0)).
  { intros s Hthr Hl. rewrite wave_and_after_cases. cbv zeta.
    destruct (Rltb WAVE_COOLDOWN (ct - last_toggle_time s) &&
              (3 <=? fingers_open lm)%nat && _is_palm_facing lm hd &&
              _detect_wave (history_append s (x (landmark lm 0))));
      destruct (GestureState.eqb (current_state s) GestureState.SLEEP);
      simpl; auto.
    unfold normal_operation.
    destruct (if is_tracking_pose lm then _ else _) as [new_state action].
    simpl. split; [exact Hthr|]. right. exists lm. split; [reflexivity|].
    apply is_thumb_closed_threshold. exact Hthr. }
  unfold process.
  destruct (GestureState.eqb (current_state self) GestureState.SLEEP);
    [|apply Hw; reflexivity].
  destruct (_is_palm_facing lm hd) eqn:Hpalm.
  - destruct (_detect_hold_to_wake (history_append self (x (landmark lm 0))) ht lm)
      as [self2 held] eqn:Hh.
    pose proof (detect_hold_frame (history_append self (x (landmark lm 0))) ht lm)
      as F. rewrite Hh in F. simpl in F.
    destruct F as (_ & _ & _ & Fl & _ & Ft).
    destruct held.
    + simpl. auto.
    + apply Hw; assumption.
  - apply Hw; reflexivity.
Qed.

Lemma run_cons (self : t) (tk : Tick) (rest : list Tick) :
  run self (tk :: rest) =
  (fst (run (fst (tick self tk)) rest),
   snd (tick self tk) :: snd (run (fst (tick self tk)) rest)).
Proof.
  simpl. destruct (tick self tk) as [s1 out]. simpl.
  destruct (run s1 rest) as [s2 outs]. reflexivity.
Qed.

Lemma run_app (self : t) (l1 l2 : list Tick) :
  run self (l1 ++ l2) =
  (fst (run (fst (run self l1)) l2),
   snd (run self l1) ++ snd (run (fst (run self l1)) l2)).
Proof.
  revert self; induction l1 as [|tk l1 IH]; intros self.
  - simpl. destruct (run self l2); reflexivity.
  - rewrite <- app_comm_cons, !run_cons, IH. reflexivity.
Qed.

Lemma run_length (self : t) (ticks : list Tick) :
  length (snd (run self ticks)) = length ticks.
Proof.
  revert self; induction ticks as [|tk l IH]; intros self; [reflexivity|].
  rewrite run_cons. simpl. rewrite IH. reflexivity.
Qed.

(** While the thumb stays closed no call clicks. *)
Lemma sustained_closed_no_click (ticks : list Tick) (self : t) :
  (forall tk lm, In tk ticks -> tick_landmarks tk = Some lm ->
                 is_thumb_closed self lm = true) ->
  forall out, In out (snd (run self ticks)) -> snd out <> GestureAction.CLICK.
Proof.
  revert self; induction ticks as [|tk l IH]; intros self Hall out Hin.
  - destruct Hin.
  - rewrite run_cons in Hin. simpl in Hin. destruct Hin as [<-|Hin].
    + intros Hc. apply click_needs_edge in Hc.
      destruct Hc as (lm & Hlm & _ & _ & _ & Hopen).
      rewrite (Hall tk lm (or_introl eq_refl) Hlm) in Hopen. discriminate.
    + destruct (latch_after self (tick_time tk) (tick_hold_time tk)
                  (tick_landmarks tk) (tick_handedness tk)) as (Hthr & _).
      apply (IH (fst (tick self tk))); [|exact Hin].
      intros tk' lm Htk' Hlm.
      unfold tick. rewrite (is_thumb_closed_threshold _ _ lm Hthr).
      apply (Hall tk' lm); [right; exact Htk'|exact Hlm].
Qed.

(** While the thumb stays open, starting with the latch unset, no call
    clicks. *)
Lemma sustained_open_no_click (ticks : list Tick) (self : t) :
  was_thumb_closed self = false ->
  (forall tk lm, In tk ticks -> tick_landmarks tk = Some lm ->
                 is_thumb_closed self lm = false) ->
  forall out, In out (snd (run self ticks)) -> snd out <> GestureAction.CLICK.
Proof.
  revert self; induction ticks as [|tk l IH]; intros self Hlatch Hall out Hin.
  - destruct Hin.
  - rewrite run_cons in Hin. simpl in Hin. destruct Hin as [<-|Hin].
    + intros Hc. apply click_needs_edge in Hc.
      destruct Hc as (lm & _ & _ & _ & Hl & _). congruence.
    + destruct (latch_after self (tick_time tk) (tick_hold_time tk)
                  (tick_landmarks tk) (tick_handedness tk)) as (Hthr & Hl).
      apply (IH (fst (tick self tk))); [| |exact Hin].
      * unfold tick. destruct Hl as [Hl|(lm & Hlm & Hl)]; rewrite Hl.
        -- exact Hlatch.
        -- apply (Hall tk lm); [left; reflexivity|exact Hlm].
      * intros tk' lm Htk' Hlm.
        unfold tick. rewrite (is_thumb_closed_threshold _ _ lm Hthr).
        apply (Hall tk' lm); [right; exact Htk'|exact Hlm].
Qed.

(** Calls without landmarks leave the latch and the state alone. *)
Lemma run_no_observation (ticks : list Tick) (self : t) :
  (forall tk, In tk ticks -> tick_landmarks tk = None) ->
  was_thumb_closed (fst (run self ticks)) = was_thumb_closed self
  /\ current_state (fst (run self ticks)) = current_state self.
Proof.
  revert self; induction ticks as [|tk l IH]; intros self Hall; [simpl; auto|].
  rewrite run_cons. simpl fst.
  destruct (IH (fst (tick self tk))) as (H1 & H2).
  { intros tk' Hin. apply Hall. right. exact Hin. }
  rewrite H1, H2. unfold tick.
  rewrite (Hall tk (or_introl eq_refl)). simpl. auto.
Qed.

(** C1: a call with landmarks that starts outside [SLEEP] returns [CLICK]
    exactly when the tracking pose holds, the latch [was_thumb_closed] is
    set and [is_thumb_closed] is false in this call, and it then commits
    [CLICK_PENDING] and clears the latch.  No call clicks in a run of calls
    whose thumb is closed throughout, nor in one whose thumb is open
    throughout when the run starts with the latch unset; the latch of a new
    instance is unset, and the first call with landmarks of a session never
    clicks. *)
Theorem click_exactly_on_release_edge :
  (forall (self : t) (ct ht : R) (lm : Landmarks) (hd : option string),
      current_state self <> GestureState.SLEEP ->
      (snd (snd (process self ct ht (Some lm) hd)) = GestureAction.CLICK
       <-> is_tracking_pose lm = true
           /\ was_thumb_closed self = true
           /\ is_thumb_closed self lm = false)
      /\ (snd (snd (process self ct ht (Some lm) hd)) = GestureAction.CLICK ->
          fst (snd (process self ct ht (Some lm) hd)) = GestureState.CLICK_PENDING
          /\ was_thumb_closed (fst (process self ct ht (Some lm) hd)) = false))
  /\ (forall (self : t) (ticks : list Tick),
         (forall tk lm, In tk ticks -> tick_landmarks tk = Some lm ->
                        is_thumb_closed self lm = true) ->
         forall out, In out (snd (run self ticks)) ->
                     snd out <> GestureAction.CLICK)
  /\ (forall (self : t) (ticks : list Tick),
         was_thumb_closed self = false ->
         (forall tk lm, In tk ticks -> tick_landmarks tk = Some lm ->
                        is_thumb_closed self lm = false) ->
         forall out, In out (snd (run self ticks)) ->
                     snd out <> GestureAction.CLICK)
  /\ was_thumb_closed __init__ = false
  /\ (forall (pre post : list Tick) (tk : Tick) out,
         (forall t, In t pre -> tick_landmarks t = None) ->
         nth_error (snd (run __init__ (pre ++ tk :: post))) (length pre)
         = Some out ->
         snd out <> GestureAction.CLICK).
Proof.
  split; [|split; [|split; [|split]]].
  - intros self ct ht lm hd Hawake. split; [split|].
    + intros Hc. apply click_needs_edge in Hc.
      destruct Hc as (lm' & E & _ & H1 & H2 & H3).
      injection E as <-. auto.
    + intros (H1 & H2 & H3).
      rewrite (click_on_edge self ct ht lm hd Hawake H1 H2 H3). reflexivity.
    + intros Hc. apply click_needs_edge in Hc.
      destruct Hc as (lm' & E & _ & H1 & H2 & H3).
      injection E as <-.
      rewrite (click_on_edge self ct ht lm hd Hawake H1 H2 H3). simpl. auto.
  - intros self ticks. apply sustained_closed_no_click.
  - intros self ticks. apply sustained_open_no_click.
  - reflexivity.
  - intros pre post tk out Hpre Hnth.
    rewrite run_app, run_cons in Hnth. cbn [snd] in Hnth.
    rewrite nth_error_app2 in Hnth by (rewrite run_length; lia).
    rewrite run_length, Nat.sub_diag in Hnth. cbn [nth_error] in Hnth.
    injection Hnth as <-.
    destruct (run_no_observation pre __init__ Hpre) as (Hl & _).
    intros Hc. apply click_needs_edge in Hc.
    destruct Hc as (lm & _ & _ & _ & Hlatch & _).
    rewrite Hl in Hlatch. discriminate.
Qed.

(** *** The sample sessions evaluated *)

Lemma waking_wave_run :
  run __init__ waking_wave =
  (woken_by_wave,
   [ (GestureState.SLEEP, GestureAction.NONE);
     (GestureState.SLEEP, GestureAction.NONE);
     (GestureState.SLEEP, GestureAction.NONE);
     (GestureState.SLEEP, GestureAction.NONE);
     (GestureState.SLEEP, GestureAction.NONE);
     (GestureState.SLEEP, GestureAction.NONE);
     (GestureState.SLEEP, GestureAction.NONE);
     (GestureState.SLEEP, GestureAction.NONE);
     (GestureState.SLEEP, GestureAction.NONE);
     (GestureState.IDLE, GestureAction.WAKE) ]).
Proof.
  unfold waking_wave.
  repeat (rewrite run_cons; eval_tick; cbn [fst snd]).
  reflexivity.
Qed.

Lemma sleep_then_hold_run :
  snd (run __init__ sleep_then_hold) =
  [ (GestureState.SLEEP, GestureAction.NONE);
    (GestureState.SLEEP, GestureAction.NONE);
    (GestureState.SLEEP, GestureAction.NONE);
    (GestureState.SLEEP, GestureAction.NONE);
    (GestureState.SLEEP, GestureAction.NONE);
    (GestureState.SLEEP, GestureAction.NONE);
    (GestureState.SLEEP, GestureAction.NONE);
    (GestureState.SLEEP, GestureAction.NONE);
    (GestureState.SLEEP, GestureAction.NONE);
    (GestureState.IDLE, GestureAction.WAKE);
    (GestureState.SLEEP, GestureAction.SLEEP);
    (GestureState.SLEEP, GestureAction.NONE);
    (GestureState.IDLE, GestureAction.WAKE) ].
Proof.
  unfold sleep_then_hold. rewrite run_app, waking_wave_run. cbn [fst snd].
  unfold woken_by_wave.
  repeat (rewrite run_cons; eval_tick; cbn [fst snd]).
  reflexivity.
Qed.

(** *** Toggles and the cooldown *)

(** [process] on an observation: the hold-to-wake return, or part B on
    [before_wave]. *)
Lemma process_cases (self : t) (ct ht : R) (lm : Landmarks) (hd : option string) :
  process self ct ht (Some lm) hd =
  if GestureState.eqb (current_state self) GestureState.SLEEP
     && hold_to_wake_guard self ht lm hd
  then
    (set_wrist_history
       (set_current_state
          (set_last_toggle_time
             (fst (_detect_hold_to_wake
                     (history_append self (x (landmark lm 0))) ht lm)) ct)
          GestureState.IDLE) [],
     (GestureState.IDLE, GestureAction.WAKE))
  else wave_and_after (before_wave self ht lm hd) ct lm (_is_palm_facing lm hd).
Proof.
  unfold process, before_wave, hold_to_wake_guard.
  destruct (GestureState.eqb (current_state self) GestureState.SLEEP); simpl;
    [|reflexivity].
  destruct (_is_palm_facing lm hd); simpl; [|reflexivity].
  destruct (_detect_hold_to_wake (history_append self (x (landmark lm 0))) ht lm)
    as [self2 held].
  destruct held; reflexivity.
Qed.

Lemma before_wave_frame (self : t) (ht : R) (lm : Landmarks) (hd : option string) :
  current_state (before_wave self ht lm hd) = current_state self
  /\ last_toggle_time (before_wave self ht lm hd) = last_toggle_time self
  /\ was_thumb_closed (before_wave self ht lm hd) = was_thumb_closed self
  /\ CLICK_THRESHOLD (before_wave self ht lm hd) = CLICK_THRESHOLD self.
Proof.
  unfold before_wave.
  destruct (GestureState.eqb (current_state self) GestureState.SLEEP); auto.
  destruct (_is_palm_facing lm hd); auto.
  pose proof (detect_hold_frame (history_append self (x (landmark lm 0))) ht lm)
    as F. simpl in F. tauto.
Qed.

(** Part B toggles only past the cooldown, and a toggle stamps
    [last_toggle_time]. *)
Lemma wave_and_after_toggle (s : t) (ct : R) (lm : Landmarks) (is_palm : bool) :
  let r := wave_and_after s ct lm is_palm in
  (is_toggle (snd (snd r)) = true ->
   WAVE_COOLDOWN < ct - last_toggle_time s /\ last_toggle_time (fst r) = ct)
  /\ (is_toggle (snd (snd r)) = false ->
      last_toggle_time (fst r) = last_toggle_time s).
Proof.
  cbv zeta. rewrite wave_and_after_cases. cbv zeta.
  pose proof (normal_operation_action (history_append s (x (landmark lm 0))) lm)
    as (Hnw & Hns).
  assert (Hkeep : last_toggle_time
                    (fst (normal_operation
                            (history_append s (x (landmark lm 0))) lm))
                  = last_toggle_time s).
  { unfold normal_operation.
    destruct (if is_tracking_pose lm then _ else _). reflexivity. }
  destruct (Rltb WAVE_COOLDOWN (ct - last_toggle_time s)) eqn:Hcool.
  - apply Rltb_true in Hcool.
    destruct ((3 <=? fingers_open lm)%nat) , is_palm,
      (_detect_wave (history_append s (x (landmark lm 0)))),
      (GestureState.eqb (current_state s) GestureState.SLEEP);
      cbn [andb fst snd is_toggle set_current_state set_last_toggle_time
           last_toggle_time history_append set_wrist_history];
      (split; intros H; try discriminate; try (split; [exact Hcool|reflexivity]);
       try reflexivity; try exact Hkeep);
      destruct (snd (snd (normal_operation
                            (history_append s (x (landmark lm 0))) lm)));
      try discriminate; congruence.
  - cbn [andb].
    destruct (GestureState.eqb (current_state s) GestureState.SLEEP);
      cbn [fst snd is_toggle last_toggle_time history_append set_wrist_history];
      (split; intros H; try discriminate; try reflexivity; try exact Hkeep).
    destruct (snd (snd (normal_operation
                          (history_append s (x (landmark lm 0))) lm)));
      try discriminate; congruence.
Qed.

(** One call and the cooldown: a hold-to-wake return ignores
    [last_toggle_time]; any other toggle comes more than [WAVE_COOLDOWN]
    after it; a toggle stamps it and any other call keeps it. *)
Lemma tick_toggle (self : t) (tk : Tick) :
  (wakes_by_hold self tk = true ->
   snd (tick self tk) = (GestureState.IDLE, GestureAction.WAKE))
  /\ (is_toggle (snd (snd (tick self tk))) = true ->
      wakes_by_hold self tk = false ->
      WAVE_COOLDOWN < tick_time tk - last_toggle_time self)
  /\ (is_toggle (snd (snd (tick self tk))) = true ->
      last_toggle_time (fst (tick self tk)) = tick_time tk)
  /\ (is_toggle (snd (snd (tick self tk))) = false ->
      last_toggle_time (fst (tick self tk)) = last_toggle_time self).
Proof.
  unfold tick, wakes_by_hold.
  destruct (tick_landmarks tk) as [lm|].
  2: { simpl. repeat split; intros; discriminate. }
  rewrite process_cases.
  destruct (GestureState.eqb (current_state self) GestureState.SLEEP
            && hold_to_wake_guard self (tick_hold_time tk) lm (tick_handedness tk))
    eqn:Hg.
  - simpl. repeat split; intros; try discriminate; reflexivity.
  - destruct (before_wave_frame self (tick_hold_time tk) lm (tick_handedness tk))
      as (_ & Hlt & _).
    destruct (wave_and_after_toggle
                (before_wave self (tick_hold_time tk) lm (tick_handedness tk))
                (tick_time tk) lm (_is_palm_facing lm (tick_handedness tk)))
      as (Ht & Hn).
    rewrite Hlt in Ht, Hn.
    split; [intros; discriminate|].
    split; [intros H _; apply (Ht H)|].
    split; [intros H; apply (Ht H)|exact Hn].
Qed.

Lemma toggles_cons (self : t) (tk : Tick) (rest : list Tick) :
  toggles self (tk :: rest) =
  if is_toggle (snd (snd (tick self tk)))
  then (tick_time tk, wakes_by_hold self tk) :: toggles (fst (tick self tk)) rest
  else toggles (fst (tick self tk)) rest.
Proof.
  simpl. destruct (tick self tk) as [s1 [st act]]. reflexivity.
Qed.

Lemma toggles_app (self : t) (l1 l2 : list Tick) :
  toggles self (l1 ++ l2) = toggles self l1 ++ toggles (fst (run self l1)) l2.
Proof.
  revert self; induction l1 as [|tk l1 IH]; intros self; [reflexivity|].
  rewrite <- app_comm_cons, !toggles_cons, run_cons, IH. cbn [fst].
  destruct (is_toggle (snd (snd (tick self tk)))); reflexivity.
Qed.

(** From an instance whose last toggle is not before [bound], a toggle
    reached through wave toggles only comes more than the cooldown after
    [bound]. *)
Lemma wave_toggle_after_bound (ticks : list Tick) :
  forall (self : t) (bound : R) (j : nat) (b : R * bool),
    bound <= last_toggle_time self ->
    nth_error (toggles self ticks) j = Some b ->
    (forall k c, (k <= j)%nat -> nth_error (toggles self ticks) k = Some c ->
                 snd c = false) ->
    WAVE_COOLDOWN < fst b - bound.
Proof.
  induction ticks as [|tk rest IH]; intros self bound j b Hb Hj Hwave.
  - destruct j; discriminate.
  - rewrite toggles_cons in Hj, Hwave.
    destruct (tick_toggle self tk) as (_ & Hcool & Hstamp & Hkeep).
    destruct (is_toggle (snd (snd (tick self tk)))) eqn:Htog.
    + assert (Hhead : wakes_by_hold self tk = false)
        by (apply (Hwave 0%nat (tick_time tk, wakes_by_hold self tk));
            [lia|reflexivity]).
      specialize (Hcool eq_refl Hhead). specialize (Hstamp eq_refl).
      destruct j as [|j].
      * injection Hj as <-. simpl. lra.
      * simpl in Hj. apply (IH (fst (tick self tk)) bound j b).
        -- rewrite Hstamp. unfold WAVE_COOLDOWN in Hcool. lra.
        -- exact Hj.
        -- intros k c Hk Hc. apply (Hwave (S k) c); [lia|exact Hc].
    + apply (IH (fst (tick self tk)) bound j b).
      * rewrite (Hkeep eq_refl). exact Hb.
      * exact Hj.
      * exact Hwave.
Qed.

Lemma sleep_then_hold_toggles :
  toggles __init__ sleep_then_hold =
  [ (110, false); (113, false); (1142 / 10, true) ].
Proof.
  unfold sleep_then_hold, waking_wave. cbn [app].
  repeat (rewrite toggles_cons; eval_tick; cbn [fst snd is_toggle];
          try eval_hold).
  reflexivity.
Qed.

(** C2, as stated, fails: in the session [sleep_then_hold] the wave-triggered
    [SLEEP] of the call at 113.0 s is followed by the hold-triggered [WAKE]
    of the call at 114.2 s, 1.2 s later. *)
Lemma sleep_then_hold_breaks_cooldown :
  snd (run __init__ sleep_then_hold) =
  [ (GestureState.SLEEP, GestureAction.NONE);
    (GestureState.SLEEP, GestureAction.NONE);
    (GestureState.SLEEP, GestureAction.NONE);
    (GestureState.SLEEP, GestureAction.NONE);
    (GestureState.SLEEP, GestureAction.NONE);
    (GestureState.SLEEP, GestureAction.NONE);
    (GestureState.SLEEP, GestureAction.NONE);
    (GestureState.SLEEP, GestureAction.NONE);
    (GestureState.SLEEP, GestureAction.NONE);
    (GestureState.IDLE, GestureAction.WAKE);
    (GestureState.SLEEP, GestureAction.SLEEP);
    (GestureState.SLEEP, GestureAction.NONE);
    (GestureState.IDLE, GestureAction.WAKE) ]
  /\ toggles __init__ sleep_then_hold =
     [ (110, false); (113, false); (1142 / 10, true) ]
  /\ ~ spaced_by WAVE_COOLDOWN (toggles __init__ sleep_then_hold).
Proof.
  split; [exact sleep_then_hold_run|].
  split; [exact sleep_then_hold_toggles|].
  rewrite sleep_then_hold_toggles. intros H.
  specialize (H 1%nat 2%nat (113, false) (1142 / 10, true)
                ltac:(lia) eq_refl eq_refl).
  unfold WAVE_COOLDOWN in H. simpl in H. lra.
Qed.

(** C2, amended: a hold-to-wake return is always a [WAKE] and is taken
    whatever [last_toggle_time] holds; every other toggle (each [SLEEP], and
    each [WAKE] by a wave) comes more than [WAVE_COOLDOWN] = 2.0 s after the
    last toggle before it.  Hence two toggles of a session are more than
    2.0 s apart whenever no toggle after the first of them, up to and
    including the second, is a hold-to-wake. *)
Theorem wave_toggles_respect_cooldown
  (self : t) (ticks : list Tick) (i j : nat) (a b : R * bool) :
  (i < j)%nat ->
  nth_error (toggles self ticks) i = Some a ->
  nth_error (toggles self ticks) j = Some b ->
  (forall k c, (i < k <= j)%nat -> nth_error (toggles self ticks) k = Some c ->
               snd c = false) ->
  WAVE_COOLDOWN < fst b - fst a
  /\ (forall s tk,
         (wakes_by_hold s tk = true ->
          snd (tick s tk) = (GestureState.IDLE, GestureAction.WAKE))
         /\ (is_toggle (snd (snd (tick s tk))) = true ->
             wakes_by_hold s tk = false ->
             WAVE_COOLDOWN < tick_time tk - last_toggle_time s)
         /\ (is_toggle (snd (snd (tick s tk))) = true ->
             last_toggle_time (fst (tick s tk)) = tick_time tk)
         /\ (is_toggle (snd (snd (tick s tk))) = false ->
             last_toggle_time (fst (tick s tk)) = last_toggle_time s)).
Proof.
  intros Hij Hi Hj Hwave. split; [|exact tick_toggle].
  revert self i j Hij Hi Hj Hwave.
  induction ticks as [|tk rest IH]; intros self i j Hij Hi Hj Hwave.
  - destruct i; discriminate.
  - rewrite toggles_cons in Hi, Hj, Hwave.
    destruct (tick_toggle self tk) as (_ & _ & Hstamp & _).
    destruct (is_toggle (snd (snd (tick self tk)))) eqn:Htog.
    + destruct j as [|j]; [lia|]. simpl in Hj.
      destruct i as [|i].
      * injection Hi as <-. cbn [fst].
        apply (wave_toggle_after_bound rest (fst (tick self tk)) (tick_time tk) j b).
        -- rewrite (Hstamp eq_refl). lra.
        -- exact Hj.
        -- intros k c Hk Hc. apply (Hwave (S k) c); [lia|exact Hc].
      * simpl in Hi. apply (IH (fst (tick self tk)) i j); try assumption; [lia|].
        intros k c Hk Hc. apply (Hwave (S k) c); [lia|exact Hc].
    + apply (IH (fst (tick self tk)) i j); assumption.
Qed.

(** C2, amended, on the two wave toggles of [sleep_then_hold]. *)
Lemma wave_toggles_respect_cooldown_witness :
  WAVE_COOLDOWN < fst (113, false) - fst (110, false)
  /\ (forall s tk,
         (wakes_by_hold s tk = true ->
          snd (tick s tk) = (GestureState.IDLE, GestureAction.WAKE))
         /\ (is_toggle (snd (snd (tick s tk))) = true ->
             wakes_by_hold s tk = false ->
             WAVE_COOLDOWN < tick_time tk - last_toggle_time s)
         /\ (is_toggle (snd (snd (tick s tk))) = true ->
             last_toggle_time (fst (tick s tk)) = tick_time tk)
         /\ (is_toggle (snd (snd (tick s tk))) = false ->
             last_toggle_time (fst (tick s tk)) = last_toggle_time s)).
Proof.
  apply (wave_toggles_respect_cooldown __init__ sleep_then_hold 0 1).
  - lia.
  - rewrite sleep_then_hold_toggles. reflexivity.
  - rewrite sleep_then_hold_toggles. reflexivity.
  - rewrite sleep_then_hold_toggles. intros k c Hk Hc.
    assert (k = 1%nat) as -> by lia. injection Hc as <-. reflexivity.
Defined.

(** *** The capacity of the wrist history *)

Lemma wave_and_after_history (s : t) (ct : R) (lm : Landmarks) (is_palm : bool) :
  wrist_history (fst (wave_and_after s ct lm is_palm))
  = deque_append WAVE_HISTORY_SIZE (wrist_history s) (x (landmark lm 0)).
Proof.
  rewrite wave_and_after_cases. cbv zeta.
  destruct (_ && _);
    destruct (GestureState.eqb (current_state s) GestureState.SLEEP);
    cbn [fst]; auto.
  unfold normal_operation.
  destruct (if is_tracking_pose lm then _ else _). reflexivity.
Qed.

(** [process] keeps the deque within [maxlen]. *)
Lemma process_capacity (self : t) (ct ht : R) (landmarks : option Landmarks)
  (hd : option string) :
  (length (wrist_history self) <= WAVE_HISTORY_SIZE)%nat ->
  (length (wrist_history (fst (process self ct ht landmarks hd)))
   <= WAVE_HISTORY_SIZE)%nat.
Proof.
  intros Hcap. destruct landmarks as [lm|]; [|exact Hcap].
  assert (Hpos : (0 < WAVE_HISTORY_SIZE)%nat) by (unfold WAVE_HISTORY_SIZE; lia).
  rewrite process_cases.
  destruct (GestureState.eqb (current_state self) GestureState.SLEEP
            && hold_to_wake_guard self ht lm hd).
  - simpl. lia.
  - rewrite wave_and_after_history.
    apply deque_append_length; [exact Hpos|].
    unfold before_wave.
    destruct (GestureState.eqb (current_state self) GestureState.SLEEP);
      [|exact Hcap].
    destruct (_is_palm_facing lm hd).
    + destruct (detect_hold_frame (history_append self (x (landmark lm 0))) ht lm)
        as (_ & Hh & _).
      rewrite Hh. apply deque_append_length; assumption.
    + apply deque_append_length; assumption.
Qed.

Lemma run_capacity (ticks : list Tick) (self : t) :
  (length (wrist_history self) <= WAVE_HISTORY_SIZE)%nat ->
  (length (wrist_history (fst (run self ticks))) <= WAVE_HISTORY_SIZE)%nat.
Proof.
  revert self; induction ticks as [|tk rest IH]; intros self Hcap; [exact Hcap|].
  rewrite run_cons. cbn [fst]. apply IH. apply process_capacity. exact Hcap.
Qed.

(** X1: every instance a session reaches has its deque within [maxlen]. *)
Lemma session_capacity (ticks : list Tick) :
  (length (wrist_history (fst (run __init__ ticks))) <= WAVE_HISTORY_SIZE)%nat.
Proof. apply run_capacity. simpl. lia. Qed.

(** *** Hold-to-wake *)


Lemma wave_and_after_frame (s : t) (ct : R) (lm : Landmarks) (is_palm : bool) :
  hold_start_time (fst (wave_and_after s ct lm is_palm)) = hold_start_time s
  /\ wrist_history (fst (wave_and_after s ct lm is_palm))
     = deque_append WAVE_HISTORY_SIZE (wrist_history s) (x (landmark lm 0)).
Proof.
  rewrite wave_and_after_cases. cbv zeta.
  destruct (_ && _);
    destruct (GestureState.eqb (current_state s) GestureState.SLEEP);
    cbn [fst]; auto.
  unfold normal_operation.
  destruct (if is_tracking_pose lm then _ else _). auto.
Qed.

Lemma deque_append_nonempty (l : list R) (v : R) :
  deque_append WAVE_HISTORY_SIZE l v <> [].
Proof.
  unfold deque_append, WAVE_HISTORY_SIZE.
  destruct (length l <? 20)%nat eqn:E.
  - destruct l; discriminate.
  - apply Nat.ltb_ge in E.
    destruct l as [|a [|b l]]; simpl in E; try lia. discriminate.
Qed.








(** *** Waking and the wrist history *)

Lemma wave_and_after_wake (s : t) (ct : R) (lm : Landmarks) (is_palm : bool) :
  snd (snd (wave_and_after s ct lm is_palm)) = GestureAction.WAKE ->
  current_state s = GestureState.SLEEP
  /\ _detect_wave (history_append s (x (landmark lm 0))) = true.
Proof.
  rewrite wave_and_after_cases. cbv zeta.
  pose proof (normal_operation_action (history_append s (x (landmark lm 0))) lm)
    as (Hnw & _).
  destruct (Rltb WAVE_COOLDOWN (ct - last_toggle_time s)),
    ((3 <=? fingers_open lm)%nat), is_palm,
    (_detect_wave (history_append s (x (landmark lm 0)))),
    (GestureState.eqb (current_state s) GestureState.SLEEP) eqn:Hs;
    cbn [andb fst snd]; intros H; try discriminate; try contradiction;
    split; try reflexivity; apply GestureState_eqb_eq; exact Hs.
Qed.

(** C5, amended: a call returns [WAKE] only from [SLEEP] and on landmarks;
    when it wakes through the hold-to-wake branch the wrist history is
    empty afterwards; when it wakes through a wave the wrist history is the
    buffer after both appends of the call: full and not cleared. *)
Theorem wake_clears_history_only_by_hold
  (self : t) (ct ht : R) (landmarks : option Landmarks) (hd : option string) :
  snd (snd (process self ct ht landmarks hd)) = GestureAction.WAKE ->
  exists lm,
    landmarks = Some lm
    /\ current_state self = GestureState.SLEEP
    /\ (hold_to_wake_guard self ht lm hd = true ->
        wrist_history (fst (process self ct ht landmarks hd)) = [])
    /\ (hold_to_wake_guard self ht lm hd = false ->
        wrist_history (fst (process self ct ht landmarks hd))
        = deque_append WAVE_HISTORY_SIZE
            (deque_append WAVE_HISTORY_SIZE (wrist_history self)
               (x (landmark lm 0)))
            (x (landmark lm 0))
        /\ wrist_history (fst (process self ct ht landmarks hd)) <> []
        /\ (WAVE_HISTORY_SIZE
            <= length (wrist_history (fst (process self ct ht landmarks hd))))%nat).
Proof.
  destruct landmarks as [lm|]; [|simpl; discriminate].
  intros Hw. exists lm. split; [reflexivity|].
  rewrite process_cases in Hw |- *.
  destruct (GestureState.eqb (current_state self) GestureState.SLEEP) eqn:Hst.
  - apply GestureState_eqb_eq in Hst. split; [exact Hst|].
    destruct (hold_to_wake_guard self ht lm hd) eqn:Hg; cbn [andb] in *.
    + split; [reflexivity|discriminate].
    + split; [discriminate|intros _].
      apply wave_and_after_wake in Hw. destruct Hw as (_ & Hdet).
      destruct (wave_and_after_frame (before_wave self ht lm hd) ct lm
                  (_is_palm_facing lm hd)) as (_ & Hh).
      assert (Hb : wrist_history (before_wave self ht lm hd)
                   = deque_append WAVE_HISTORY_SIZE (wrist_history self)
                       (x (landmark lm 0))).
      { unfold before_wave. rewrite Hst.
        rewrite (proj2 (GestureState_eqb_eq _ _) eq_refl).
        destruct (_is_palm_facing lm hd); [|reflexivity].
        apply (detect_hold_frame (history_append self (x (landmark lm 0))) ht lm). }
      rewrite Hh, Hb. split; [reflexivity|]. split.
      * apply deque_append_nonempty.
      * unfold _detect_wave in Hdet.
        change (wrist_history (history_append (before_wave self ht lm hd)
                                 (x (landmark lm 0))))
          with (deque_append WAVE_HISTORY_SIZE
                  (wrist_history (before_wave self ht lm hd)) (x (landmark lm 0)))
          in Hdet.
        rewrite Hb in Hdet.
        destruct (length _ <? WAVE_HISTORY_SIZE)%nat eqn:Hl in Hdet;
          [discriminate|].
        apply Nat.ltb_ge in Hl. exact Hl.
  - cbn [andb] in Hw. apply wave_and_after_wake in Hw. destruct Hw as (Hs & _).
    destruct (before_wave_frame self ht lm hd) as (Hcs & _).
    rewrite Hcs in Hs. apply GestureState_eqb_eq in Hs. congruence.
Qed.

(** C5, as stated, fails: the tenth call of [waking_wave] returns [WAKE] by
    a wave and leaves the 20 buffered samples in place. *)
Lemma wave_wake_keeps_history :
  fst (run __init__ (firstn 9 waking_wave)) = about_to_wake
  /\ tick about_to_wake (seen 110 (three_fingers (1 / 2)))
     = (woken_by_wave, (GestureState.IDLE, GestureAction.WAKE))
  /\ wrist_history woken_by_wave <> [].
Proof.
  split; [|split].
  - unfold waking_wave. cbn [firstn].
    repeat (rewrite run_cons; eval_tick; cbn [fst snd]). reflexivity.
  - eval_tick. reflexivity.
  - discriminate.
Qed.

(** C5, amended, on a hold-to-wake return. *)
Lemma wake_clears_history_only_by_hold_witness :
  snd (snd (process holding (1015 / 10) (1015 / 10)
              (Some (open_palm (1 / 2))) None)) = GestureAction.WAKE
  /\ wrist_history (fst (process holding (1015 / 10) (1015 / 10)
                           (Some (open_palm (1 / 2))) None)) = [].
Proof.
  assert (Hw : snd (snd (process holding (1015 / 10) (1015 / 10)
                           (Some (open_palm (1 / 2))) None))
               = GestureAction.WAKE).
  { change (process holding (1015 / 10) (1015 / 10) (Some (open_palm (1 / 2))) None)
      with (tick holding (seen (1015 / 10) (open_palm (1 / 2)))).
    eval_tick. reflexivity. }
  split; [exact Hw|].
  destruct (wake_clears_history_only_by_hold _ _ _ _ _ Hw)
    as (lm & Hlm & _ & Hhold & _).
  injection Hlm as <-. apply Hhold.
  eval_model. reflexivity.
Defined.

(** *** The click ratio and its threshold *)

Lemma scale_ref_floor (lm : Landmarks) :
  scale_ref lm = Rmax (euclid (landmark lm 0) (landmark lm 5)) (1 / 100).
Proof.
  unfold scale_ref, euclid. cbv zeta.
  set (d := sqrt _).
  unfold Rltb. destruct (Rlt_dec d (1 / 100)) as [H|H].
  - rewrite Rmax_right by lra. reflexivity.
  - rewrite Rmax_left by lra. reflexivity.
Qed.

Lemma pinch_ratio (ratio : R) : 0 <= ratio -> click_ratio (pinch ratio) = ratio.
Proof.
  intros H. unfold click_ratio, raw_dist, scale_ref, pinch, sample_hand.
  cbn [landmark x y].
  rewrite sqrt_horizontal by lra.
  rewrite sqrt_vertical by lra.
  rewrite (proj2 (Rltb_false _ _)) by lra.
  field.
Qed.

(** The sanity checks of [load_config] leave a threshold between 0.05 and
    1.0, and the worker installs a positive threshold in its manager. *)
Lemma enforce_click_threshold_range (v : R) :
  5 / 100 <= Config.enforce_click_threshold v <= 1
  /\ CLICK_THRESHOLD (Config.worker_manager (Config.enforce_click_threshold v))
     = Config.enforce_click_threshold v.
Proof.
  assert (Hr : 5 / 100 <= Config.enforce_click_threshold v <= 1).
  { unfold Config.enforce_click_threshold, Rltb.
    destruct (Rlt_dec v (5 / 100));
      repeat match goal with
      | |- context [Rlt_dec ?a ?b] => destruct (Rlt_dec a b)
      end; lra. }
  split; [exact Hr|].
  unfold Config.worker_manager.
  rewrite (proj2 (Rltb_true _ _)) by lra. reflexivity.
Qed.

(** C7, amended: [click_ratio] is the distance from the thumb tip (4) to the
    index base knuckle (5) divided by the larger of the distance from the
    wrist (0) to that knuckle and 0.01; [is_thumb_closed] holds exactly when
    [click_ratio] is strictly below the instance's [CLICK_THRESHOLD], and a
    call that reaches the pose classification stores it in the latch.  A new
    [GestureManager] starts with the threshold 0.14; 0.20 is the default of
    the application's profile, which the worker hands to the manager
    through [set_click_threshold] before its first call. *)
Theorem thumb_closed_by_click_ratio (self : t) (lm : Landmarks) :
  click_ratio lm
  = euclid (landmark lm 4) (landmark lm 5)
    / Rmax (euclid (landmark lm 0) (landmark lm 5)) (1 / 100)
  /\ (is_thumb_closed self lm = true <-> click_ratio lm < CLICK_THRESHOLD self)
  /\ (forall ct ht hd,
         current_state self <> GestureState.SLEEP ->
         snd (snd (process self ct ht (Some lm) hd)) <> GestureAction.SLEEP ->
         was_thumb_closed (fst (process self ct ht (Some lm) hd))
         = is_thumb_closed self lm)
  /\ CLICK_THRESHOLD __init__ = 14 / 100
  /\ (forall s val, CLICK_THRESHOLD (set_click_threshold s val) = val)
  /\ Config.DEFAULT_PROFILE_click_threshold = 20 / 100
  /\ CLICK_THRESHOLD (Config.worker_manager Config.DEFAULT_PROFILE_click_threshold)
     = 20 / 100.
Proof.
  split; [|split; [|split; [|split; [|split; [|split]]]]].
  - unfold click_ratio. rewrite scale_ref_floor. reflexivity.
  - unfold is_thumb_closed. apply Rltb_true.
  - intros ct ht hd Hawake Hns.
    apply GestureState_eqb_neq in Hawake.
    unfold process in *. rewrite Hawake in *.
    rewrite wave_and_after_cases in *. cbv zeta in *. rewrite Hawake in *.
    destruct (Rltb WAVE_COOLDOWN (ct - last_toggle_time self) &&
              (3 <=? fingers_open lm)%nat && _is_palm_facing lm hd &&
              _detect_wave (history_append self (x (landmark lm 0)))).
    + exfalso. apply Hns. reflexivity.
    + unfold normal_operation.
      destruct (if is_tracking_pose lm then _ else _). reflexivity.
  - reflexivity.
  - reflexivity.
  - reflexivity.
  - unfold Config.worker_manager, Config.DEFAULT_PROFILE_click_threshold.
    rewrite (proj2 (Rltb_true _ _)) by lra. reflexivity.
Qed.

(** C7, as stated, fails: the threshold of a new manager is 0.14, not 0.20,
    so a thumb at ratio 0.17 is below 0.20 and yet not closed. *)
Lemma default_threshold_is_not_one_fifth :
  CLICK_THRESHOLD __init__ <> 20 / 100
  /\ click_ratio (pinch (17 / 100)) = 17 / 100
  /\ 17 / 100 < 20 / 100
  /\ is_thumb_closed __init__ (pinch (17 / 100)) = false.
Proof.
  split; [simpl; lra|].
  split; [apply pinch_ratio; lra|].
  split; [lra|].
  unfold is_thumb_closed. rewrite pinch_ratio by lra.
  apply Rltb_false. simpl. lra.
Qed.

(** The scenario of a pinch released in the tracking pose: ratios 0.10, 0.10,
    0.25 against the threshold 0.20. *)
Lemma pinch_closed_run :
  run awake_tuned [ seen 111 (pinch (10 / 100)); seen 112 (pinch (10 / 100)) ]
  = (pinched,
     [ (GestureState.TRACKING, GestureAction.NONE);
       (GestureState.TRACKING, GestureAction.NONE) ]).
Proof.
  unfold awake_tuned, woken_by_wave, set_click_threshold.
  cbn [CLICK_THRESHOLD hold_start_time current_state prev_state
       was_thumb_closed wrist_history last_toggle_time].
  repeat (rewrite run_cons; eval_tick; cbn [fst snd]).
  reflexivity.
Qed.

Lemma pinch_release_run :
  snd (run awake_tuned
         [ seen 111 (pinch (10 / 100)); seen 112 (pinch (10 / 100));
           seen 113 (pinch (25 / 100)) ])
  = [ (GestureState.TRACKING, GestureAction.NONE);
      (GestureState.TRACKING, GestureAction.NONE);
      (GestureState.CLICK_PENDING, GestureAction.CLICK) ].
Proof.
  change [ seen 111 (pinch (10 / 100)); seen 112 (pinch (10 / 100));
           seen 113 (pinch (25 / 100)) ]
    with ([ seen 111 (pinch (10 / 100)); seen 112 (pinch (10 / 100)) ]
          ++ [ seen 113 (pinch (25 / 100)) ]).
  rewrite run_app, pinch_closed_run. cbn [fst snd]. unfold pinched.
  rewrite run_cons. eval_tick. reflexivity.
Qed.

(** C1 at the release of that pinch. *)
Lemma click_exactly_on_release_edge_witness :
  current_state pinched <> GestureState.SLEEP
  /\ snd (snd (process pinched 113 113 (Some (pinch (25 / 100))) None))
     = GestureAction.CLICK.
Proof.
  assert (H : current_state pinched <> GestureState.SLEEP) by discriminate.
  split; [exact H|].
  apply (proj2 (proj1 (proj1 click_exactly_on_release_edge pinched 113 113
                         (pinch (25 / 100)) None H))).
  split; [eval_model; reflexivity|]. split; [reflexivity|].
  unfold is_thumb_closed. rewrite pinch_ratio by lra.
  apply Rltb_false. simpl. lra.
Defined.

(** C4 on the buffer that woke the sample session. *)
Lemma detect_wave_iff_witness :
  (length (wrist_history woken_by_wave) <= WAVE_HISTORY_SIZE)%nat
  /\ _detect_wave woken_by_wave = true.
Proof.
  assert (H : (length (wrist_history woken_by_wave) <= WAVE_HISTORY_SIZE)%nat)
    by (simpl; unfold WAVE_HISTORY_SIZE; lia).
  split; [exact H|].
  apply (proj1 (detect_wave_iff woken_by_wave H)).
  split; [reflexivity|].
  split; [eval_model; lra|].
  split; [eval_model; lra|].
  eval_model; lra.
Defined.

End GestureFacts.

(** ** The adaptive coordinate filter *)

Section FilterFacts.

Import OneEuroFilter.

Lemma low_pass_pass_through (f : LowPassFilter.t) (v : R) :
  snd (LowPassFilter.filter f v None) = v
  /\ LowPassFilter.last_val (fst (LowPassFilter.filter f v None)) = Some v.
Proof.
  unfold LowPassFilter.filter. destruct (LowPassFilter.last_val f); simpl.
  - replace (1 * v + (1 - 1) * r) with v by ring. auto.
  - auto.
Qed.

Lemma low_pass_blend (f : LowPassFilter.t) (v last a : R) :
  LowPassFilter.last_val f = Some last ->
  LowPassFilter.filter f v (Some a) =
  ({| LowPassFilter.last_val := Some (a * v + (1 - a) * last);
      LowPassFilter.forced_alpha := LowPassFilter.forced_alpha f |},
   a * v + (1 - a) * last).
Proof. intros H. unfold LowPassFilter.filter. rewrite H. reflexivity. Qed.

(** The blend factor in closed form. *)
Lemma alpha_of_bounds (self : t) (x y ts last vx vy : R) :
  0 < min_cutoff self -> 0 <= beta self -> last < ts ->
  let dt := ts - last in
  let cutoff := min_cutoff self
                + beta self * Rabs (Rabs ((x - vx) / dt) + Rabs ((y - vy) / dt)) in
  0 < cutoff
  /\ 2 * PI * cutoff <> 0
  /\ 1 + 1 / (2 * PI * cutoff) / dt <> 0
  /\ 0 < alpha_of self x y ts last vx vy < 1
  /\ 1 - alpha_of self x y ts last vx vy
     = 1 / (1 + 2 * PI * (min_cutoff self * dt
                          + beta self * (Rabs (x - vx) + Rabs (y - vy)))).
Proof.
  intros Hmc Hb Hlt. cbv zeta.
  assert (Hdt : 0 < ts - last) by lra.
  set (dt := ts - last) in *.
  set (e := Rabs (Rabs ((x - vx) / dt) + Rabs ((y - vy) / dt))).
  assert (He : 0 <= e) by apply Rabs_pos.
  assert (Hc : 0 < min_cutoff self + beta self * e).
  { assert (0 <= beta self * e) by (apply Rmult_le_pos; assumption). lra. }
  pose proof PI_RGT_0 as Hpi.
  assert (Hpc : 0 < 2 * PI * (min_cutoff self + beta self * e)).
  { apply Rmult_lt_0_compat; [lra|exact Hc]. }
  assert (Htau : 0 < 1 / (2 * PI * (min_cutoff self + beta self * e)) / dt).
  { apply Rdiv_lt_0_compat; [|exact Hdt].
    apply Rdiv_lt_0_compat; [lra|exact Hpc]. }
  assert (Hee : e * dt = Rabs (x - vx) + Rabs (y - vy)).
  { unfold e. rewrite Rabs_right.
    - unfold Rdiv. rewrite !Rabs_mult. rewrite (Rabs_right (/ dt)).
      + field. lra.
      + left. apply Rinv_0_lt_compat. exact Hdt.
    - apply Rle_ge. apply Rplus_le_le_0_compat; apply Rabs_pos. }
  split; [exact Hc|]. split; [lra|]. split; [lra|].
  unfold alpha_of. fold dt. fold e.
  set (tau_dt := 1 / (2 * PI * (min_cutoff self + beta self * e)) / dt) in *.
  split.
  - split.
    + apply Rdiv_lt_0_compat; lra.
    + apply (Rmult_lt_reg_r (1 + tau_dt)); [lra|].
      unfold Rdiv. rewrite Rmult_assoc, Rinv_l by lra. lra.
  - rewrite <- Hee. unfold tau_dt. field. repeat split; try lra.
    replace (2 * PI * (min_cutoff self * dt + beta self * (e * dt)))
      with (2 * PI * (min_cutoff self + beta self * e) * dt) by ring.
    assert (0 < 2 * PI * (min_cutoff self + beta self * e) * dt)
      by (apply Rmult_lt_0_compat; assumption).
    lra.
Qed.

(** One smoothing call on an initialised filter. *)
Lemma filter_step (self : t) (x y ts last vx vy : R) :
  last_time self = Some last ->
  LowPassFilter.last_val (x_filter self) = Some vx ->
  LowPassFilter.last_val (y_filter self) = Some vy ->
  0 < min_cutoff self -> 0 <= beta self -> last < ts ->
  let a := alpha_of self x y ts last vx vy in
  exists self',
    filter self x y ts
    = Return (self', (Some (a * x + (1 - a) * vx), Some (a * y + (1 - a) * vy)))
    /\ LowPassFilter.last_val (x_filter self') = Some (a * x + (1 - a) * vx)
    /\ LowPassFilter.last_val (y_filter self') = Some (a * y + (1 - a) * vy)
    /\ last_time self' = Some ts
    /\ min_cutoff self' = min_cutoff self
    /\ beta self' = beta self.
Proof.
  intros Hlast Hx Hy Hmc Hb Hlt. cbv zeta.
  destruct (alpha_of_bounds self x y ts last vx vy Hmc Hb Hlt)
    as (_ & Hc0 & Ht0 & _ & _).
  unfold filter. rewrite Hlast.
  rewrite (proj2 (Rleb_false (ts - last) 0)) by lra.
  rewrite Hx, Hy.
  destruct (low_pass_pass_through (dx_filter self)
              (Rabs ((x - vx) / (ts - last)) + Rabs ((y - vy) / (ts - last))))
    as (Hedx & _).
  destruct (LowPassFilter.filter (dx_filter self)
              (Rabs ((x - vx) / (ts - last)) + Rabs ((y - vy) / (ts - last)))
              None) as [dxf edx].
  simpl in Hedx. subst edx.
  rewrite (proj2 (Reqb_false _ 0) Hc0).
  rewrite (proj2 (Reqb_false _ 0) Ht0).
  rewrite (low_pass_blend (x_filter self) x vx _ Hx).
  rewrite (low_pass_blend (y_filter self) y vy _ Hy).
  eexists. split; [reflexivity|]. simpl. repeat split; reflexivity.
Qed.

Lemma filter_step_distance (self : t) (x y ts last : R) :
  initialised self last ->
  0 < min_cutoff self -> 0 <= beta self -> last < ts ->
  exists self' ox oy,
    filter self x y ts = Return (self', (Some ox, Some oy))
    /\ LowPassFilter.last_val (x_filter self') = Some ox
    /\ LowPassFilter.last_val (y_filter self') = Some oy
    /\ initialised self' ts
    /\ min_cutoff self' = min_cutoff self
    /\ beta self' = beta self
    /\ distance_to self' x y
       * (1 + 2 * PI * (min_cutoff self * (ts - last)
                        + beta self * distance_to self x y))
       = distance_to self x y.
Proof.
  intros (Hl & (vx & Hx) & (vy & Hy)) Hmc Hb Hlt.
  destruct (filter_step self x y ts last vx vy Hl Hx Hy Hmc Hb Hlt)
    as (self' & Hf & Hx' & Hy' & Hl' & Hmc' & Hb').
  destruct (alpha_of_bounds self x y ts last vx vy Hmc Hb Hlt)
    as (_ & _ & _ & Ha & H1a).
  cbv zeta in H1a.
  set (a := alpha_of self x y ts last vx vy) in *.
  exists self', (a * x + (1 - a) * vx), (a * y + (1 - a) * vy).
  split; [exact Hf|]. split; [exact Hx'|]. split; [exact Hy'|].
  split; [split; [exact Hl'|split; eauto]|].
  split; [exact Hmc'|]. split; [exact Hb'|].
  unfold distance_to. rewrite Hx, Hy, Hx', Hy'.
  replace (x - (a * x + (1 - a) * vx)) with ((1 - a) * (x - vx)) by ring.
  replace (y - (a * y + (1 - a) * vy)) with ((1 - a) * (y - vy)) by ring.
  rewrite !Rabs_mult, (Rabs_right (1 - a)) by lra.
  set (E := Rabs (x - vx) + Rabs (y - vy)) in *.
  assert (HE : 0 <= E)
    by (apply Rplus_le_le_0_compat; apply Rabs_pos).
  pose proof PI_RGT_0 as Hpi.
  assert (HD : 0 < 1 + 2 * PI * (min_cutoff self * (ts - last) + beta self * E)).
  { assert (0 <= min_cutoff self * (ts - last)) by (apply Rmult_le_pos; lra).
    assert (0 <= beta self * E) by (apply Rmult_le_pos; lra).
    assert (0 <= 2 * PI * (min_cutoff self * (ts - last) + beta self * E))
      by (apply Rmult_le_pos; lra).
    lra. }
  replace ((1 - a) * Rabs (x - vx) + (1 - a) * Rabs (y - vy))
    with ((1 - a) * E) by (unfold E; ring).
  rewrite H1a. field. lra.
Qed.

Lemma distance_to_nonneg (self : t) (x y : R) : 0 <= distance_to self x y.
Proof.
  unfold distance_to.
  destruct (LowPassFilter.last_val (x_filter self)),
    (LowPassFilter.last_val (y_filter self)); try lra.
  apply Rplus_le_le_0_compat; apply Rabs_pos.
Qed.

Lemma feed_bounds (x y : R) (stamps : list R) :
  forall (self : t) (last : R) (start : option R * option R),
    initialised self last ->
    0 < min_cutoff self -> 0 <= beta self ->
    Forall (fun dt => 0 < dt) (steps_from last stamps) ->
    exists self' out,
      feed self x y stamps start = Return (self', out)
      /\ (exists last', initialised self' last')
      /\ (stamps <> [] ->
          exists ox oy,
            out = (Some ox, Some oy)
            /\ distance_to self' x y = Rabs (x - ox) + Rabs (y - oy))
      /\ distance_to self' x y <= distance_to self x y
      /\ (forall delta, 0 < delta ->
            Forall (fun dt => delta <= dt) (steps_from last stamps) ->
            distance_to self' x y
            * (1 + 2 * PI * min_cutoff self * delta) ^ length stamps
            <= distance_to self x y)
      /\ distance_to self' x y
         * (1 + 2 * PI * beta self * INR (length stamps) * distance_to self x y)
         <= distance_to self x y.
Proof.
  induction stamps as [|ts rest IH]; intros self last start Hinit Hmc Hb Hpos.
  - exists self, start. simpl.
    pose proof (distance_to_nonneg self x y).
    split; [reflexivity|]. split; [eauto|]. split; [congruence|].
    split; [lra|]. split; [intros; lra|]. lra.
  - simpl in Hpos. inversion Hpos as [|dt l Hdt Hrest]; subst.
    assert (Hlt : last < ts) by lra.
    destruct (filter_step_distance self x y ts last Hinit Hmc Hb Hlt)
      as (s1 & ox & oy & Hf & Hx1 & Hy1 & Hinit1 & Hmc1 & Hb1 & HE).
    destruct (IH s1 ts (Some ox, Some oy) Hinit1
                ltac:(rewrite Hmc1; exact Hmc) ltac:(rewrite Hb1; exact Hb) Hrest)
      as (s' & out & Hfeed & Hinit' & Hout & Hmono & Hgeo & Hhar).
    exists s', out. cbn [feed]. rewrite Hf.
    pose proof PI_RGT_0 as Hpi.
    pose proof (distance_to_nonneg self x y) as HE0.
    pose proof (distance_to_nonneg s1 x y) as HE1.
    pose proof (distance_to_nonneg s' x y) as HEn.
    set (E := distance_to self x y) in *.
    set (E1 := distance_to s1 x y) in *.
    set (En := distance_to s' x y) in *.
    assert (Hmdt : 0 <= min_cutoff self * (ts - last))
      by (apply Rmult_le_pos; lra).
    assert (HbE : 0 <= beta self * E) by (apply Rmult_le_pos; lra).
    assert (Hstep : E1 <= E).
    { assert (0 <= E1 * (2 * PI * (min_cutoff self * (ts - last) + beta self * E))).
      { apply Rmult_le_pos; [lra|]. apply Rmult_le_pos; lra. }
      lra. }
    split; [exact Hfeed|]. split; [exact Hinit'|].
    split.
    { intros _. destruct rest as [|ts' rest'].
      - simpl in Hfeed.
        assert (Hs : s' = s1) by congruence.
        assert (Ho : out = (Some ox, Some oy)) by congruence.
        exists ox, oy. split; [exact Ho|].
        unfold En. rewrite Hs. unfold distance_to. rewrite Hx1, Hy1.
        reflexivity.
      - apply Hout. discriminate. }
    split; [lra|]. split.
    + intros delta Hd Hall. simpl in Hall.
      inversion Hall as [|dt l Hdt' Hrest']; subst.
      specialize (Hgeo delta Hd Hrest'). rewrite Hmc1 in Hgeo.
      set (Q := 1 + 2 * PI * min_cutoff self * delta) in *.
      assert (HQ : 1 <= Q).
      { unfold Q. assert (0 <= 2 * PI * min_cutoff self * delta).
        { apply Rmult_le_pos; [|lra]. apply Rmult_le_pos; lra. }
        lra. }
      assert (H1Q : E1 * Q <= E).
      { rewrite <- HE. apply Rmult_le_compat_l; [exact HE1|].
        unfold Q.
        assert (min_cutoff self * delta <= min_cutoff self * (ts - last))
          by (apply Rmult_le_compat_l; lra).
        assert (2 * PI * (min_cutoff self * delta)
                <= 2 * PI * (min_cutoff self * (ts - last) + beta self * E))
          by (apply Rmult_le_compat_l; lra).
        lra. }
      cbn [length pow].
      replace (En * (Q * Q ^ length rest)) with (En * Q ^ length rest * Q) by ring.
      apply Rle_trans with (E1 * Q); [|exact H1Q].
      apply Rmult_le_compat_r; lra.
    + rewrite Hb1 in Hhar. cbn [length]. rewrite S_INR.
      set (k := 2 * PI * beta self) in *.
      set (m := INR (length rest)) in *.
      assert (Hk : 0 <= k) by (unfold k; apply Rmult_le_pos; lra).
      assert (Hm : 0 <= m) by (unfold m; apply pos_INR).
      assert (H1A : E1 * (1 + k * E) <= E).
      { rewrite <- HE at 2. apply Rmult_le_compat_l; [exact HE1|].
        unfold k.
        assert (0 <= 2 * PI * (min_cutoff self * (ts - last)))
          by (apply Rmult_le_pos; lra).
        lra. }
      replace (2 * PI * beta self * m * E1) with (k * m * E1) in Hhar
        by (unfold k; ring).
      replace (2 * PI * beta self * (m + 1) * E) with (k * (m + 1) * E)
        by (unfold k; ring).
      assert (HB : 0 < 1 + k * m * E1).
      { assert (0 <= k * m * E1)
          by (apply Rmult_le_pos; [apply Rmult_le_pos|]; lra). lra. }
      apply (Rmult_le_reg_r (1 + k * m * E1)); [exact HB|].
      assert (HkmE : 0 <= k * m * E)
        by (apply Rmult_le_pos; [apply Rmult_le_pos|]; lra).
      assert (HkE : 0 <= k * E) by (apply Rmult_le_pos; lra).
      apply Rle_trans with (E1 * (1 + k * (m + 1) * E)).
      * replace (En * (1 + k * (m + 1) * E) * (1 + k * m * E1))
          with (En * (1 + k * m * E1) * (1 + k * (m + 1) * E)) by ring.
        apply Rmult_le_compat_r; [|exact Hhar].
        replace (k * (m + 1) * E) with (k * m * E + k * E) by ring. lra.
      * replace (E1 * (1 + k * (m + 1) * E))
          with (E1 * (1 + k * E) + k * m * E * E1) by ring.
        replace (E * (1 + k * m * E1)) with (E + k * m * E * E1) by ring.
        lra.
Qed.

(** From a bound [En * (1 + n * c) <= E] to [En < eps] for large [n]. *)
Lemma harmonic_small (E c eps : R) :
  0 <= E -> 0 < c -> 0 < eps ->
  exists N, (0 < N)%nat /\
    forall (n : nat) (En : R),
      (N <= n)%nat -> 0 <= En -> En * (1 + INR n * c) <= E -> En < eps.
Proof.
  intros HE Hc He.
  assert (Hq : 0 < c * eps / (E + 1)).
  { apply Rdiv_lt_0_compat; [apply Rmult_lt_0_compat; lra|lra]. }
  destruct (archimed_cor1 _ Hq) as (N & HN & HNpos).
  exists N. split; [exact HNpos|].
  intros n En Hn HEn Hb.
  assert (HNR : 0 < INR N) by (apply lt_0_INR; exact HNpos).
  assert (HnR : INR N <= INR n) by (apply le_INR; exact Hn).
  assert (H1 : E + 1 < INR N * (c * eps)).
  { apply (Rmult_lt_compat_l (INR N)) in HN; [|exact HNR].
    rewrite Rinv_r in HN by lra.
    apply (Rmult_lt_compat_r (E + 1)) in HN; [|lra].
    unfold Rdiv in HN.
    replace (INR N * (c * eps * / (E + 1)) * (E + 1))
      with (INR N * (c * eps) * ((E + 1) * / (E + 1))) in HN by ring.
    rewrite Rinv_r in HN by lra. lra. }
  destruct (Rlt_le_dec En eps) as [Hlt|Hge]; [exact Hlt|exfalso].
  assert (H2 : INR N * (c * eps) <= INR n * c * En).
  { replace (INR N * (c * eps)) with (INR N * c * eps) by ring.
    apply Rmult_le_compat; try lra.
    - apply Rmult_le_pos; lra.
    - apply Rmult_le_compat_r; lra. }
  replace (En * (1 + INR n * c)) with (En + INR n * c * En) in Hb by ring.
  lra.
Qed.

Lemma first_call_identity (min_cutoff beta d_cutoff freq x y ts : R) :
  filter (__init__ min_cutoff beta d_cutoff freq) x y ts =
  Return ({| freq := freq;
             min_cutoff := min_cutoff;
             beta := beta;
             d_cutoff := d_cutoff;
             x_filter := {| LowPassFilter.last_val := Some x;
                            LowPassFilter.forced_alpha := Some 1 |};
             y_filter := {| LowPassFilter.last_val := Some y;
                            LowPassFilter.forced_alpha := Some 1 |};
             dx_filter := LowPassFilter.__init__;
             last_time := Some ts |},
          (Some x, Some y)).
Proof. reflexivity. Qed.

Lemma feed_within (self : t) (x y last eps c : R) :
  initialised self last -> 0 < min_cutoff self -> 0 <= beta self ->
  0 < eps -> 0 < c ->
  exists N,
    forall (stamps : list R) (start : option R * option R),
      (N <= length stamps)%nat ->
      Forall (fun dt => 0 < dt) (steps_from last stamps) ->
      (forall self', distance_to self' x y <= distance_to self x y ->
         distance_to self' x y
         * (1 + 2 * PI * beta self * INR (length stamps) * distance_to self x y)
         <= distance_to self x y ->
         (forall delta, 0 < delta ->
            Forall (fun dt => delta <= dt) (steps_from last stamps) ->
            distance_to self' x y
            * (1 + 2 * PI * min_cutoff self * delta) ^ length stamps
            <= distance_to self x y) ->
         distance_to self' x y < eps
         \/ distance_to self' x y * (1 + INR (length stamps) * c)
            <= distance_to self x y) ->
      exists self' ox oy,
        feed self x y stamps start = Return (self', (Some ox, Some oy))
        /\ Rabs (x - ox) < eps /\ Rabs (y - oy) < eps.
Proof.
  intros Hinit Hmc Hb He Hc.
  destruct (harmonic_small (distance_to self x y) c eps
              (distance_to_nonneg self x y) Hc He) as (N & HN & Hsmall).
  exists N. intros stamps start Hlen Hpos Hbound.
  destruct (feed_bounds x y stamps self last start Hinit Hmc Hb Hpos)
    as (s' & out & Hfeed & _ & Hout & Hmono & Hgeo & Hhar).
  destruct Hout as (ox & oy & -> & Hd).
  { intros E. rewrite E in Hlen. simpl in Hlen. lia. }
  exists s', ox, oy. split; [exact Hfeed|].
  assert (Hs : distance_to s' x y < eps).
  { destruct (Hbound s' Hmono Hhar Hgeo) as [Hlt|Hle]; [exact Hlt|].
    apply (Hsmall (length stamps) _ Hlen (distance_to_nonneg s' x y) Hle). }
  rewrite Hd in Hs.
  pose proof (Rabs_pos (x - ox)). pose proof (Rabs_pos (y - oy)).
  split; lra.
Qed.

(** C9: the first call of a new filter returns its input.  On a filter that
    has seen a sample, with [min_cutoff] positive and [beta] not negative, a
    call with [dt > 0] blends by a factor [alpha] strictly between 0 and 1:
    each output coordinate is [alpha * input + (1 - alpha) * smoothed], its
    distance to the input is [(1 - alpha)] times the previous one, and it is
    the input once the smoothed value is.  On a stream that repeats
    [(x, y)] at increasing time stamps no call raises and the distance to
    [(x, y)] never grows; the output converges to [(x, y)]: within any
    [eps] after enough calls, for every such stream when [beta] is positive,
    and for every stream whose time steps are at least some [delta > 0]
    otherwise. *)
Theorem one_euro_identity_and_convergence
  (self : t) (x y last vx vy : R) :
  last_time self = Some last ->
  LowPassFilter.last_val (x_filter self) = Some vx ->
  LowPassFilter.last_val (y_filter self) = Some vy ->
  0 < min_cutoff self -> 0 <= beta self ->
  (forall mc b dc f px py ts,
      exists self1,
        filter (__init__ mc b dc f) px py ts = Return (self1, (Some px, Some py))
        /\ last_time self1 = Some ts
        /\ LowPassFilter.last_val (x_filter self1) = Some px
        /\ LowPassFilter.last_val (y_filter self1) = Some py)
  /\ (forall ts, last < ts ->
        let a := alpha_of self x y ts last vx vy in
        0 < a < 1
        /\ (exists self',
              filter self x y ts
              = Return (self', (Some (a * x + (1 - a) * vx),
                                Some (a * y + (1 - a) * vy)))
              /\ LowPassFilter.last_val (x_filter self')
                 = Some (a * x + (1 - a) * vx)
              /\ LowPassFilter.last_val (y_filter self')
                 = Some (a * y + (1 - a) * vy)
              /\ last_time self' = Some ts)
        /\ Rabs (x - (a * x + (1 - a) * vx)) = (1 - a) * Rabs (x - vx)
        /\ Rabs (y - (a * y + (1 - a) * vy)) = (1 - a) * Rabs (y - vy)
        /\ (vx = x -> a * x + (1 - a) * vx = x)
        /\ (vy = y -> a * y + (1 - a) * vy = y))
  /\ (forall stamps start,
        Forall (fun dt => 0 < dt) (steps_from last stamps) ->
        exists self' out,
          feed self x y stamps start = Return (self', out)
          /\ distance_to self' x y <= distance_to self x y)
  /\ (0 < beta self ->
      forall eps, 0 < eps ->
      exists N, forall stamps start,
        (N <= length stamps)%nat ->
        Forall (fun dt => 0 < dt) (steps_from last stamps) ->
        exists self' ox oy,
          feed self x y stamps start = Return (self', (Some ox, Some oy))
          /\ Rabs (x - ox) < eps /\ Rabs (y - oy) < eps)
  /\ (forall delta, 0 < delta ->
      forall eps, 0 < eps ->
      exists N, forall stamps start,
        (N <= length stamps)%nat ->
        Forall (fun dt => delta <= dt) (steps_from last stamps) ->
        exists self' ox oy,
          feed self x y stamps start = Return (self', (Some ox, Some oy))
          /\ Rabs (x - ox) < eps /\ Rabs (y - oy) < eps).
Proof.
  intros Hl Hx Hy Hmc Hb.
  assert (Hinit : initialised self last) by (split; [exact Hl|split; eauto]).
  pose proof PI_RGT_0 as Hpi.
  split; [|split; [|split; [|split]]].
  - intros mc b dc f px py ts. eexists.
    split; [apply first_call_identity|]. simpl. auto.
  - intros ts Hlt. cbv zeta.
    destruct (alpha_of_bounds self x y ts last vx vy Hmc Hb Hlt)
      as (_ & _ & _ & Ha & _).
    destruct (filter_step self x y ts last vx vy Hl Hx Hy Hmc Hb Hlt)
      as (self' & Hf & Hx' & Hy' & Hl' & _).
    set (a := alpha_of self x y ts last vx vy) in *.
    split; [exact Ha|]. split; [exists self'; auto|].
    replace (x - (a * x + (1 - a) * vx)) with ((1 - a) * (x - vx)) by ring.
    replace (y - (a * y + (1 - a) * vy)) with ((1 - a) * (y - vy)) by ring.
    rewrite !Rabs_mult, (Rabs_right (1 - a)) by lra.
    split; [reflexivity|]. split; [reflexivity|].
    split; intros ->; ring.
  - intros stamps start Hpos.
    destruct (feed_bounds x y stamps self last start Hinit Hmc Hb Hpos)
      as (s' & out & Hfeed & _ & _ & Hmono & _).
    exists s', out. auto.
  - intros Hbpos eps He.
    assert (Hc : 0 < 2 * PI * beta self * eps).
    { apply Rmult_lt_0_compat; [|exact He].
      apply Rmult_lt_0_compat; lra. }
    destruct (feed_within self x y last eps _ Hinit Hmc Hb He Hc) as (N & HN).
    exists N. intros stamps start Hlen Hpos.
    apply HN; try assumption.
    intros s' Hmono Hhar _.
    pose proof (distance_to_nonneg s' x y) as HEn.
    destruct (Rlt_le_dec (distance_to self x y) eps) as [Hlt|Hge];
      [left; lra|right].
    eapply Rle_trans; [|exact Hhar].
    apply Rmult_le_compat_l; [exact HEn|].
    assert (INR (length stamps) * (2 * PI * beta self * eps)
            <= 2 * PI * beta self * INR (length stamps) * distance_to self x y).
    { replace (INR (length stamps) * (2 * PI * beta self * eps))
        with (2 * PI * beta self * INR (length stamps) * eps) by ring.
      apply Rmult_le_compat_l; [|exact Hge].
      apply Rmult_le_pos; [|apply pos_INR].
      apply Rmult_le_pos; lra. }
    lra.
  - intros delta Hd eps He.
    assert (Hc : 0 < 2 * PI * min_cutoff self * delta).
    { apply Rmult_lt_0_compat; [|exact Hd].
      apply Rmult_lt_0_compat; lra. }
    destruct (feed_within self x y last eps _ Hinit Hmc Hb He Hc) as (N & HN).
    exists N. intros stamps start Hlen Hall.
    assert (Hpos : Forall (fun dt => 0 < dt) (steps_from last stamps)).
    { eapply Forall_impl; [|exact Hall]. intros dt Hdt. simpl in Hdt. lra. }
    apply HN; try assumption.
    intros s' _ _ Hgeo. right.
    pose proof (distance_to_nonneg s' x y) as HEn.
    eapply Rle_trans; [|exact (Hgeo delta Hd Hall)].
    apply Rmult_le_compat_l; [exact HEn|].
    apply poly. exact Hc.
Qed.

(** C8, amended: on a filter that has seen a sample, a call whose time stamp
    is not later than the recorded one returns the two smoothed values as
    they are and leaves the three low-pass filters and the parameters
    untouched; it records the call's time stamp, which is never later than
    the previous one: the record is unchanged when [dt = 0] and moved back
    when [dt < 0]. *)
Theorem filter_non_positive_dt (self : t) (x y ts last : R) :
  last_time self = Some last -> ts - last <= 0 ->
  exists self',
    filter self x y ts
    = Return (self', (LowPassFilter.last_val (x_filter self),
                      LowPassFilter.last_val (y_filter self)))
    /\ x_filter self' = x_filter self
    /\ y_filter self' = y_filter self
    /\ dx_filter self' = dx_filter self
    /\ min_cutoff self' = min_cutoff self
    /\ beta self' = beta self
    /\ d_cutoff self' = d_cutoff self
    /\ freq self' = freq self
    /\ last_time self' = Some ts
    /\ ts <= last
    /\ (ts = last -> self' = self).
Proof.
  intros Hl Hdt. unfold filter. rewrite Hl.
  rewrite (proj2 (Rleb_true _ _) Hdt).
  eexists. split; [reflexivity|]. simpl.
  repeat split; try reflexivity; try lra.
  intros ->. destruct self; simpl in *. subst. reflexivity.
Qed.

(** C8, as stated, fails: after a first call at time 10, a call at time 5
    returns the smoothed point unchanged but replaces the recorded time
    stamp 10 by 5. *)
Lemma rewound_timestamp_is_stored :
  filter (__init__ 1 0 1 30) (3 / 10) (4 / 10) 10
  = Return (started_at_10, (Some (3 / 10), Some (4 / 10)))
  /\ (exists self',
         filter started_at_10 (9 / 10) (9 / 10) 5
         = Return (self', (Some (3 / 10), Some (4 / 10)))
         /\ last_time self' = Some 5)
  /\ last_time started_at_10 = Some 10
  /\ Some 5 <> Some 10.
Proof.
  split; [reflexivity|]. split.
  - unfold filter. simpl. rewrite (proj2 (Rleb_true _ _)) by lra.
    eexists. split; reflexivity.
  - split; [reflexivity|]. intros H. injection H as H. lra.
Qed.

(** C8, amended, on a call five seconds in the past. *)
Lemma filter_non_positive_dt_witness :
  last_time started_at_10 = Some 10
  /\ 5 - 10 <= 0
  /\ exists self',
       filter started_at_10 (9 / 10) (9 / 10) 5
       = Return (self', (Some (3 / 10), Some (4 / 10)))
       /\ last_time self' = Some 5.
Proof.
  assert (H : 5 - 10 <= 0) by lra.
  split; [reflexivity|]. split; [exact H|].
  destruct (filter_non_positive_dt started_at_10 (9 / 10) (9 / 10) 5 10
              eq_refl H) as (self' & Hf & _ & _ & _ & _ & _ & _ & _ & Hl & _).
  exists self'. split; [exact Hf|exact Hl].
Defined.

(** C9 on the second call of a filter with the default parameters. *)
Lemma one_euro_identity_and_convergence_witness :
  last_time started_at_10 = Some 10
  /\ 0 < min_cutoff started_at_10
  /\ 0 <= beta started_at_10
  /\ 0 < alpha_of started_at_10 (9 / 10) (9 / 10) 11 10 (3 / 10) (4 / 10) < 1.
Proof.
  assert (Hmc : 0 < min_cutoff started_at_10) by (simpl; lra).
  assert (Hb : 0 <= beta started_at_10) by (simpl; lra).
  split; [reflexivity|]. split; [exact Hmc|]. split; [exact Hb|].
  apply (proj1 (proj2 (one_euro_identity_and_convergence started_at_10
                         (9 / 10) (9 / 10) 10 (3 / 10) (4 / 10)
                         eq_refl eq_refl eq_refl Hmc Hb))
           11 ltac:(lra)).
Defined.

End FilterFacts.

(** ** A constant stream that does not converge, and rounding *)

Section StallFacts.
Import OneEuroFilter.

Lemma halving_increasing (n : nat) :
  forall last step, 0 < step ->
    Forall (fun dt => 0 < dt) (steps_from last (halving last step n)).
Proof.
  induction n as [|n IH]; intros last step Hs; cbn [halving steps_from].
  - constructor.
  - constructor.
    + replace (last + step - last) with step by ring. exact Hs.
    + apply IH. lra.
Qed.

Lemma halving_stalls (x y : R) (n : nat) :
  forall (self : t) (last s : R) (start : option R * option R),
    initialised self last ->
    min_cutoff self = 1 -> beta self = 0 ->
    0 < s <= 1 / 32 ->
    exists self' out,
      feed self x y (halving last s n) start = Return (self', out)
      /\ distance_to self x y * (1 - 16 * s) <= distance_to self' x y
      /\ (n <> O ->
          exists ox oy,
            out = (Some ox, Some oy)
            /\ distance_to self' x y = Rabs (x - ox) + Rabs (y - oy)).
Proof.
  induction n as [|n IH]; intros self last s start Hinit Hmc Hb Hs.
  - exists self, start. cbn [halving feed]. split; [reflexivity|].
    pose proof (distance_to_nonneg self x y) as Hnn. split; [nra|].
    intros Hne. exfalso. apply Hne. reflexivity.
  - cbn [halving feed].
    destruct (filter_step_distance self x y (last + s) last Hinit
                ltac:(lra) ltac:(lra) ltac:(lra))
      as (self1 & ox & oy & Hf & Hox & Hoy & Hinit1 & Hmc1 & Hb1 & Hd).
    rewrite Hf.
    destruct (IH self1 (last + s) (s / 2) (Some ox, Some oy) Hinit1
                ltac:(congruence) ltac:(congruence) ltac:(lra))
      as (self' & out & Hfeed & Hle & Hout).
    exists self', out. split; [exact Hfeed|].
    rewrite Hmc, Hb in Hd.
    replace (last + s - last) with s in Hd by ring.
    pose proof (distance_to_nonneg self1 x y) as H1.
    pose proof PI_4 as Hpi4. pose proof PI_RGT_0 as Hpi0.
    split.
    + assert (Hd' : distance_to self x y
                    = distance_to self1 x y * (1 + 2 * PI * s)).
      { rewrite <- Hd. f_equal. ring. }
      rewrite Hd'.
      assert (Hstep : distance_to self1 x y * (1 + 2 * PI * s) * (1 - 16 * s)
                      <= distance_to self1 x y * (1 - 16 * (s / 2))).
      { rewrite Rmult_assoc. apply Rmult_le_compat_l; [exact H1|]. nra. }
      lra.
    + intros _. destruct n as [|n'].
      * cbn [halving feed] in Hfeed. injection Hfeed as <- <-.
        exists ox, oy. split; [reflexivity|].
        unfold distance_to. rewrite Hox, Hoy. reflexivity.
      * apply Hout. discriminate.
Qed.


Lemma started_at_10_initialised : initialised started_at_10 10.
Proof. repeat split; eexists; reflexivity. Qed.

Lemma resting_after_first_call :
  Binary64.OneEuroFilter.filter Binary64.OneEuroFilter.default
    Binary64.three_tenths Binary64.three_tenths Binary64.zero
  = Return (Binary64.resting,
            (Some Binary64.three_tenths, Some Binary64.three_tenths)).
Proof. reflexivity. Qed.

(** The filter with the constructor's defaults ([min_cutoff = 1], [beta = 0])
    after a first call at time 10 on (0.3, 0.4), fed the constant (0.9, 0.9)
    at strictly increasing times whose steps are 1/32, 1/64, ...: however
    many calls are made, the output stays at least 0.55 away from the
    constant.  And in double arithmetic a filter resting at (0.3, 0.3)
    that is fed (0.3, 0.3) one thirtieth of a second later returns
    0.30000000000000004, above the input. *)
Lemma constant_stream_need_not_converge :
  (0 < min_cutoff started_at_10 /\ beta started_at_10 = 0)
  /\ (forall n,
        Forall (fun dt => 0 < dt)
          (steps_from 10 (halving 10 (1 / 32) (S n)))
        /\ exists self' ox oy,
             feed started_at_10 (9 / 10) (9 / 10) (halving 10 (1 / 32) (S n))
               (None, None)
             = Return (self', (Some ox, Some oy))
             /\ 11 / 20 <= Rabs (9 / 10 - ox) + Rabs (9 / 10 - oy))
  /\ Binary64.OneEuroFilter.filter Binary64.OneEuroFilter.default
       Binary64.three_tenths Binary64.three_tenths Binary64.zero
     = Return (Binary64.resting,
               (Some Binary64.three_tenths, Some Binary64.three_tenths))
  /\ Binary64.OneEuroFilter.returned
       (Binary64.OneEuroFilter.filter Binary64.resting
          Binary64.three_tenths Binary64.three_tenths Binary64.one_thirtieth)
     = Some (Some Binary64.above_three_tenths,
             Some Binary64.above_three_tenths)
  /\ PrimFloat.ltb Binary64.three_tenths Binary64.above_three_tenths = true.
Proof.
  split; [split; [simpl; lra|reflexivity]|]. split.
  - intros n. split; [apply halving_increasing; lra|].
    destruct (halving_stalls (9 / 10) (9 / 10) (S n) started_at_10 10 (1 / 32)
                (None, None) started_at_10_initialised eq_refl eq_refl
                ltac:(lra))
      as (self' & out & Hfeed & Hle & Hout).
    destruct (Hout ltac:(discriminate)) as (ox & oy & -> & Hd).
    exists self', ox, oy. split; [exact Hfeed|].
    rewrite <- Hd.
    assert (Hd0 : distance_to started_at_10 (9 / 10) (9 / 10) = 11 / 10).
    { unfold distance_to, started_at_10. cbn.
      rewrite !Rabs_pos_eq by lra. lra. }
    rewrite Hd0 in Hle. lra.
  - split; [exact resting_after_first_call|].
    split; [vm_compute; reflexivity|reflexivity].
Qed.

End StallFacts.

(** ** Sessions and hand geometry *)

Section SessionFacts.

Import GestureManager.
Import GestureSession.

Lemma normal_operation_awake (s : t) (lm : Landmarks) :
  current_state (fst (normal_operation s lm)) <> GestureState.SLEEP.
Proof.
  unfold normal_operation.
  destruct (is_tracking_pose lm), (was_thumb_closed s && negb (is_thumb_closed s lm)),
    (is_scroll_pose lm); simpl; discriminate.
Qed.

(** Sleep and wakefulness across one call. *)
Lemma tick_sleepness (self : t) (tk : Tick) :
  let r := tick self tk in
  (snd (snd r) = GestureAction.WAKE ->
   current_state self = GestureState.SLEEP
   /\ current_state (fst r) = GestureState.IDLE)
  /\ (snd (snd r) = GestureAction.SLEEP ->
      current_state self <> GestureState.SLEEP
      /\ current_state (fst r) = GestureState.SLEEP)
  /\ (is_toggle (snd (snd r)) = false ->
      (current_state (fst r) = GestureState.SLEEP
       <-> current_state self = GestureState.SLEEP)).
Proof.
  cbv zeta. unfold tick.
  destruct (tick_landmarks tk) as [lm|].
  2: { simpl. repeat split; intros; try discriminate; auto. }
  rewrite process_cases.
  destruct (GestureState.eqb (current_state self) GestureState.SLEEP) eqn:Hst.
  - apply GestureState_eqb_eq in Hst.
    destruct (hold_to_wake_guard self (tick_hold_time tk) lm (tick_handedness tk)).
    + simpl. repeat split; intros; try discriminate; auto.
    + cbn [andb]. rewrite wave_and_after_cases. cbv zeta.
      destruct (before_wave_frame self (tick_hold_time tk) lm (tick_handedness tk))
        as (Hcs & _).
      rewrite Hcs, Hst. cbn [GestureState.eqb].
      destruct (_ && _); simpl; repeat split; intros; try discriminate; auto;
        congruence.
  - cbn [andb]. rewrite wave_and_after_cases. cbv zeta.
    destruct (before_wave_frame self (tick_hold_time tk) lm (tick_handedness tk))
      as (Hcs & _).
    rewrite Hcs, Hst.
    assert (Hne : current_state self <> GestureState.SLEEP)
      by (apply GestureState_eqb_neq; exact Hst).
    destruct (_ && _).
    + simpl. repeat split; intros; try discriminate; auto.
    + pose proof (normal_operation_action
                    (history_append (before_wave self (tick_hold_time tk) lm
                                       (tick_handedness tk)) (x (landmark lm 0))) lm)
        as (Hnw & Hns).
      pose proof (normal_operation_awake
                    (history_append (before_wave self (tick_hold_time tk) lm
                                       (tick_handedness tk)) (x (landmark lm 0))) lm)
        as Haw.
      repeat split; intros; try contradiction; tauto.
Qed.

Lemma toggle_actions_cons (self : t) (tk : Tick) (rest : list Tick) :
  toggle_actions self (tk :: rest) =
  if is_toggle (snd (snd (tick self tk)))
  then snd (snd (tick self tk)) :: toggle_actions (fst (tick self tk)) rest
  else toggle_actions (fst (tick self tk)) rest.
Proof.
  unfold toggle_actions. rewrite run_cons. cbn [snd map List.filter].
  reflexivity.
Qed.

(** X2: the Wake and Sleep actions of a session alternate, whichever path
    (wave or hold) produced them: from any instance the first toggle is a
    Wake exactly when the instance is asleep, and a session that starts from
    [__init__] starts with a Wake. *)
Theorem toggles_alternate (ticks : list Tick) :
  (forall self,
      alternates
        (if GestureState.eqb (current_state self) GestureState.SLEEP
         then GestureAction.WAKE else GestureAction.SLEEP)
        (toggle_actions self ticks))
  /\ alternates GestureAction.WAKE (toggle_actions __init__ ticks).
Proof.
  assert (H : forall self,
      alternates
        (if GestureState.eqb (current_state self) GestureState.SLEEP
         then GestureAction.WAKE else GestureAction.SLEEP)
        (toggle_actions self ticks)).
  { induction ticks as [|tk rest IH]; intros self; [exact I|].
    rewrite toggle_actions_cons.
    destruct (tick_sleepness self tk) as (Hw & Hs & Hn). cbv zeta in *.
    specialize (IH (fst (tick self tk))).
    destruct (snd (snd (tick self tk))) eqn:Ha; cbn [is_toggle].
    - destruct (Hn eq_refl) as (H1 & H2).
      destruct (GestureState.eqb (current_state self) GestureState.SLEEP) eqn:E.
      + apply GestureState_eqb_eq in E.
        rewrite (proj2 (GestureState_eqb_eq _ _) (H2 E)) in IH. exact IH.
      + destruct (GestureState.eqb (current_state (fst (tick self tk)))
                    GestureState.SLEEP) eqn:E'; [|exact IH].
        apply GestureState_eqb_eq in E'. apply H1 in E'.
        apply GestureState_eqb_neq in E. contradiction.
    - destruct (Hn eq_refl) as (H1 & H2).
      destruct (GestureState.eqb (current_state self) GestureState.SLEEP) eqn:E.
      + apply GestureState_eqb_eq in E.
        rewrite (proj2 (GestureState_eqb_eq _ _) (H2 E)) in IH. exact IH.
      + destruct (GestureState.eqb (current_state (fst (tick self tk)))
                    GestureState.SLEEP) eqn:E'; [|exact IH].
        apply GestureState_eqb_eq in E'. apply H1 in E'.
        apply GestureState_eqb_neq in E. contradiction.
    - destruct (Hw eq_refl) as (H1 & H2).
      rewrite H1. cbn [GestureState.eqb alternates]. split; [reflexivity|].
      rewrite H2 in IH. exact IH.
    - destruct (Hs eq_refl) as (H1 & H2).
      apply GestureState_eqb_neq in H1. rewrite H1.
      cbn [alternates]. split; [reflexivity|].
      rewrite H2 in IH. exact IH.
    - destruct (Hn eq_refl) as (H1 & H2).
      destruct (GestureState.eqb (current_state self) GestureState.SLEEP) eqn:E.
      + apply GestureState_eqb_eq in E.
        rewrite (proj2 (GestureState_eqb_eq _ _) (H2 E)) in IH. exact IH.
      + destruct (GestureState.eqb (current_state (fst (tick self tk)))
                    GestureState.SLEEP) eqn:E'; [|exact IH].
        apply GestureState_eqb_eq in E'. apply H1 in E'.
        apply GestureState_eqb_neq in E. contradiction. }
  split; [exact H|]. exact (H __init__).
Qed.

(** One click per pinch. *)
(** X3: one click per pinch.  After a call that returned Click, no later
    call returns Click as long as the thumb stays open in every observed
    hand: the thumb has to close again first. *)
Theorem click_needs_new_pinch (self : t) (tk : Tick) (ticks : list Tick) :
  snd (snd (tick self tk)) = GestureAction.CLICK ->
  (forall t lm, In t ticks -> tick_landmarks t = Some lm ->
                is_thumb_closed self lm = false) ->
  forall out, In out (snd (run (fst (tick self tk)) ticks)) ->
              snd out <> GestureAction.CLICK.
Proof.
  intros Hc Hopen.
  unfold tick in Hc. pose proof Hc as Hc'.
  apply click_needs_edge in Hc'.
  destruct Hc' as (lm & Hlm & Hawake & Htr & Hl & Ho).
  assert (Hproc : tick self tk =
                  process self (tick_time tk) (tick_hold_time tk) (Some lm)
                    (tick_handedness tk))
    by (unfold tick; rewrite Hlm; reflexivity).
  rewrite Hproc.
  rewrite (click_on_edge self _ _ lm _ Hawake Htr Hl Ho). cbn [fst].
  apply sustained_open_no_click; [reflexivity|].
  intros t lm' Hin Hlm'. unfold is_thumb_closed. cbn [CLICK_THRESHOLD].
  exact (Hopen t lm' Hin Hlm').
Qed.

Lemma pose_few_fingers (lm : Landmarks) :
  is_tracking_pose lm = true \/ is_scroll_pose lm = true ->
  (3 <=? fingers_open lm)%nat = false.
Proof.
  unfold is_tracking_pose, is_scroll_pose, fingers_open.
  destruct (is_index_up lm), (is_middle_up lm), (is_ring_up lm),
    (is_pinky_up lm); simpl; intros [H|H]; try discriminate; reflexivity.
Qed.

Lemma poses_exclusive (lm : Landmarks) :
  is_tracking_pose lm = true -> is_scroll_pose lm = true -> False.
Proof.
  unfold is_tracking_pose, is_scroll_pose.
  destruct (is_index_up lm), (is_middle_up lm), (is_ring_up lm),
    (is_pinky_up lm); simpl; intros; discriminate.
Qed.

(** While awake in a pointer pose the call never toggles. *)
(** X4: while the manager is awake, a hand in the tracking pose or in the
    scroll pose never toggles it: the call returns no Wake or Sleep, leaves
    the manager awake and the cooldown clock untouched, and reports
    Scrolling/Scroll for the scroll pose and Tracking or a Click for the
    tracking pose. *)
Theorem pointer_pose_never_sleeps
  (self : t) (ct ht : R) (lm : Landmarks) (hd : option string) :
  current_state self <> GestureState.SLEEP ->
  is_tracking_pose lm = true \/ is_scroll_pose lm = true ->
  let r := process self ct ht (Some lm) hd in
  is_toggle (snd (snd r)) = false
  /\ current_state (fst r) <> GestureState.SLEEP
  /\ last_toggle_time (fst r) = last_toggle_time self
  /\ (is_scroll_pose lm = true ->
      snd r = (GestureState.SCROLLING, GestureAction.SCROLL))
  /\ (is_tracking_pose lm = true ->
      snd r = (if was_thumb_closed self && negb (is_thumb_closed self lm)
               then (GestureState.CLICK_PENDING, GestureAction.CLICK)
               else (GestureState.TRACKING, GestureAction.NONE))).
Proof.
  intros Hawake Hpose. cbv zeta.
  unfold process. apply GestureState_eqb_neq in Hawake. rewrite Hawake.
  rewrite wave_and_after_cases. cbv zeta. rewrite Hawake.
  rewrite (pose_few_fingers lm Hpose), andb_false_r. cbn [andb].
  unfold normal_operation.
  change (is_thumb_closed (history_append self (x (landmark lm 0))) lm)
    with (is_thumb_closed self lm).
  change (was_thumb_closed (history_append self (x (landmark lm 0))))
    with (was_thumb_closed self).
  destruct (is_tracking_pose lm) eqn:Htr.
  - assert (Hsc : is_scroll_pose lm = false).
    { destruct (is_scroll_pose lm) eqn:E; [|reflexivity].
      exfalso. exact (poses_exclusive lm Htr E). }
    destruct (was_thumb_closed self && negb (is_thumb_closed self lm));
      simpl; repeat split; intros; try discriminate; try reflexivity;
      congruence.
  - destruct Hpose as [H|Hsc]; [discriminate|]. rewrite Hsc.
    simpl. repeat split; intros; try discriminate; reflexivity.
Qed.

(** How a call with landmarks writes the wrist history. *)
(** X5: what one call does to the wrist history.  Awake, the wrist position
    is appended once; asleep, twice (the sleep branch appends it and the
    wave branch appends it again), unless the hold gesture wakes the
    manager, which empties the history.  A history that is not empty ends
    with the wrist position of the call. *)
Theorem history_appends
  (self : t) (ct ht : R) (lm : Landmarks) (hd : option string) :
  let wx := x (landmark lm 0) in
  let h := wrist_history self in
  let h' := wrist_history (fst (process self ct ht (Some lm) hd)) in
  (current_state self <> GestureState.SLEEP ->
   h' = deque_append WAVE_HISTORY_SIZE h wx)
  /\ (current_state self = GestureState.SLEEP ->
      hold_to_wake_guard self ht lm hd = false ->
      h' = deque_append WAVE_HISTORY_SIZE (deque_append WAVE_HISTORY_SIZE h wx) wx)
  /\ (current_state self = GestureState.SLEEP ->
      hold_to_wake_guard self ht lm hd = true -> h' = [])
  /\ (h' <> [] -> last h' 0 = wx).
Proof.
  cbv zeta.
  assert (Hlast : forall l v, last (deque_append WAVE_HISTORY_SIZE l v) 0 = v).
  { intros l v. unfold deque_append, WAVE_HISTORY_SIZE.
    destruct (length l <? 20)%nat eqn:E.
    - apply last_last.
    - apply Nat.ltb_ge in E. destruct l as [|a l]; [simpl in E; lia|].
      cbn [app tl].
      destruct l as [|b l]; [simpl in E; lia|].
      change (b :: l) with ([b] ++ l). rewrite <- app_assoc.
      rewrite app_assoc. apply last_last. }
  assert (Hbw : current_state self = GestureState.SLEEP ->
                wrist_history (before_wave self ht lm hd)
                = deque_append WAVE_HISTORY_SIZE (wrist_history self)
                    (x (landmark lm 0))).
  { intros Hst. unfold before_wave.
    rewrite (proj2 (GestureState_eqb_eq _ _) Hst).
    destruct (_is_palm_facing lm hd); [|reflexivity].
    apply (detect_hold_frame (history_append self (x (landmark lm 0))) ht lm). }
  assert (Haw : current_state self <> GestureState.SLEEP ->
                before_wave self ht lm hd = self).
  { intros Hst. unfold before_wave.
    rewrite (proj2 (GestureState_eqb_neq _ _) Hst). reflexivity. }
  rewrite process_cases.
  destruct (GestureState.eqb (current_state self) GestureState.SLEEP) eqn:Hst.
  - apply GestureState_eqb_eq in Hst.
    destruct (hold_to_wake_guard self ht lm hd); cbn [andb].
    + repeat split; intros; try discriminate; try contradiction;
        try reflexivity.
    + rewrite wave_and_after_history, (Hbw Hst).
      repeat split; intros; try discriminate; try contradiction;
        try reflexivity. apply Hlast.
  - apply GestureState_eqb_neq in Hst. cbn [andb].
    rewrite wave_and_after_history, (Haw Hst).
    repeat split; intros; try discriminate; try contradiction;
      try reflexivity. apply Hlast.
Qed.


(** The second append of a sleeping call never widens the buffer. *)
Lemma deque_append_self_In (l : list R) (v : R) :
  In v (deque_append WAVE_HISTORY_SIZE l v).
Proof.
  unfold deque_append, WAVE_HISTORY_SIZE.
  destruct (length l <? 20)%nat eqn:E.
  - apply in_or_app. right. left. reflexivity.
  - apply Nat.ltb_ge in E. destruct l as [|a l]; [simpl in E; lia|].
    cbn [app tl]. apply in_or_app. right. left. reflexivity.
Qed.

Lemma repeated_append_range (l : list R) (v : R) :
  let h1 := deque_append WAVE_HISTORY_SIZE l v in
  let h2 := deque_append WAVE_HISTORY_SIZE h1 v in
  list_max h2 - list_min h2 <= list_max h1 - list_min h1.
Proof.
  cbv zeta.
  set (h1 := deque_append WAVE_HISTORY_SIZE l v).
  set (h2 := deque_append WAVE_HISTORY_SIZE h1 v).
  assert (Hsub : forall w, In w h2 -> In w h1).
  { intros w Hw. apply deque_append_In in Hw. destruct Hw as [->|Hw]; [|exact Hw].
    apply deque_append_self_In. }
  destruct (list_min_spec h1 (deque_append_nonempty l v)) as (_ & Hmin1).
  destruct (list_max_spec h1 (deque_append_nonempty l v)) as (_ & Hmax1).
  destruct (list_min_spec h2 (deque_append_nonempty h1 v)) as (Hmin2 & _).
  destruct (list_max_spec h2 (deque_append_nonempty h1 v)) as (Hmax2 & _).
  specialize (Hmin1 _ (Hsub _ Hmin2)). specialize (Hmax1 _ (Hsub _ Hmax2)).
  lra.
Qed.

(** X6: asleep, a wave needs real movement.  When the history after the
    first append of the call spans at most 0.15 and the hold gesture does
    not wake the manager, the call returns Sleep/None: the second append
    cannot widen the span. *)
Theorem steady_buffer_excludes_wave
  (self : t) (ct ht : R) (lm : Landmarks) (hd : option string) :
  current_state self = GestureState.SLEEP ->
  let h1 := deque_append WAVE_HISTORY_SIZE (wrist_history self)
              (x (landmark lm 0)) in
  list_max h1 - list_min h1 <= 15 / 100 ->
  hold_to_wake_guard self ht lm hd = false ->
  snd (process self ct ht (Some lm) hd)
  = (GestureState.SLEEP, GestureAction.NONE).
Proof.
  intros Hst h1 Hr Hg.
  rewrite process_cases, Hg, andb_false_r.
  rewrite wave_and_after_cases. cbv zeta.
  destruct (before_wave_frame self ht lm hd) as (Hcs & _).
  rewrite Hcs, Hst. cbn [GestureState.eqb].
  assert (Hbw : wrist_history (before_wave self ht lm hd) = h1).
  { unfold before_wave. rewrite (proj2 (GestureState_eqb_eq _ _) Hst).
    destruct (_is_palm_facing lm hd); [|reflexivity].
    apply (detect_hold_frame (history_append self (x (landmark lm 0))) ht lm). }
  assert (Hdet : _detect_wave
                   (history_append (before_wave self ht lm hd)
                      (x (landmark lm 0))) = false).
  { unfold _detect_wave.
    change (wrist_history (history_append (before_wave self ht lm hd)
                             (x (landmark lm 0))))
      with (deque_append WAVE_HISTORY_SIZE
              (wrist_history (before_wave self ht lm hd)) (x (landmark lm 0))).
    rewrite Hbw.
    pose proof (repeated_append_range (wrist_history self) (x (landmark lm 0)))
      as Hrange. cbv zeta in Hrange. fold h1 in Hrange.
    destruct (length _ <? WAVE_HISTORY_SIZE)%nat; [reflexivity|].
    destruct (_ || _); [reflexivity|].
    rewrite (proj2 (Rltb_false _ _)) by lra. reflexivity. }
  rewrite Hdet, !andb_false_r. reflexivity.
Qed.

Lemma Rltb_ext (a b c d : R) : (a < b <-> c < d) -> Rltb a b = Rltb c d.
Proof.
  intros H. destruct (Rltb c d) eqn:E.
  - apply Rltb_true. apply H. apply Rltb_true. exact E.
  - apply Rltb_false. apply Rltb_false in E.
    destruct (Rlt_le_dec a b) as [Hl|Hl]; [|exact Hl].
    apply H in Hl. lra.
Qed.

Lemma cross_z_similar (k a b : R) (lm : Landmarks) :
  cross_z (similar k a b lm) = k * k * cross_z lm.
Proof. unfold cross_z, similar, transform. cbn [landmark x y]. ring. Qed.

Lemma cross_z_mirrored (lm : Landmarks) :
  cross_z (mirrored lm) = - cross_z lm.
Proof. unfold cross_z, mirrored, transform. cbn [landmark x y]. ring. Qed.

(** X7: the finger flags, the finger counts, the two pointer poses and the
    palm test do not depend on where the hand is in the frame or on its
    size: they are unchanged when every landmark is scaled by a positive
    factor and moved. *)
Theorem pose_features_similarity (k a b : R) (lm : Landmarks) (hd : option string) :
  0 < k ->
  is_index_up (similar k a b lm) = is_index_up lm
  /\ is_middle_up (similar k a b lm) = is_middle_up lm
  /\ is_ring_up (similar k a b lm) = is_ring_up lm
  /\ is_pinky_up (similar k a b lm) = is_pinky_up lm
  /\ fingers_open (similar k a b lm) = fingers_open lm
  /\ is_tracking_pose (similar k a b lm) = is_tracking_pose lm
  /\ is_scroll_pose (similar k a b lm) = is_scroll_pose lm
  /\ hold_fingers_open (similar k a b lm) = hold_fingers_open lm
  /\ _is_palm_facing (similar k a b lm) hd = _is_palm_facing lm hd.
Proof.
  intros Hk.
  assert (Hcmp : forall i j,
             Rltb (y (landmark (similar k a b lm) i))
                  (y (landmark (similar k a b lm) j))
             = Rltb (y (landmark lm i)) (y (landmark lm j))).
  { intros i j. apply Rltb_ext. unfold similar, transform. cbn [landmark y].
    split; intros H; nra. }
  assert (H1 : is_index_up (similar k a b lm) = is_index_up lm) by apply Hcmp.
  assert (H2 : is_middle_up (similar k a b lm) = is_middle_up lm) by apply Hcmp.
  assert (H3 : is_ring_up (similar k a b lm) = is_ring_up lm) by apply Hcmp.
  assert (H4 : is_pinky_up (similar k a b lm) = is_pinky_up lm) by apply Hcmp.
  repeat split; try assumption.
  - unfold fingers_open. rewrite H1, H2, H3, H4. reflexivity.
  - unfold is_tracking_pose. rewrite H1, H2, H3, H4. reflexivity.
  - unfold is_scroll_pose. rewrite H1, H2, H3, H4. reflexivity.
  - unfold hold_fingers_open. cbn [fold_left seq nth tips_ids pips_ids].
    rewrite !Hcmp. reflexivity.
  - unfold _is_palm_facing. destruct hd as [h|]; [|reflexivity].
    rewrite cross_z_similar.
    assert (0 < k * k) by nra.
    rewrite (Rltb_ext 0 (k * k * cross_z lm) 0 (cross_z lm))
      by (split; intros; nra).
    rewrite (Rltb_ext (k * k * cross_z lm) 0 (cross_z lm) 0)
      by (split; intros; nra).
    reflexivity.
Qed.

Lemma sqrt_scaled (k u v : R) :
  0 <= k -> sqrt ((k * u) ^ 2 + (k * v) ^ 2) = k * sqrt (u ^ 2 + v ^ 2).
Proof.
  intros Hk.
  replace ((k * u) ^ 2 + (k * v) ^ 2) with (k * k * (u ^ 2 + v ^ 2)) by ring.
  rewrite sqrt_mult_alt by nra. rewrite sqrt_square by exact Hk. reflexivity.
Qed.

(** X8: the click ratio, and so the closed-thumb test, is unchanged by
    moving the hand and by scaling it, as long as the wrist-to-knuckle
    distance stays at or above the floor of 0.01 before and after. *)
Theorem click_ratio_similarity (k a b : R) (lm : Landmarks) :
  0 < k ->
  1 / 100 <= euclid (landmark lm 0) (landmark lm 5) ->
  1 / 100 <= k * euclid (landmark lm 0) (landmark lm 5) ->
  click_ratio (similar k a b lm) = click_ratio lm
  /\ (forall self, is_thumb_closed self (similar k a b lm)
                   = is_thumb_closed self lm).
Proof.
  intros Hk Hd Hkd.
  assert (Hr : click_ratio (similar k a b lm) = click_ratio lm).
  { unfold click_ratio, raw_dist, scale_ref, similar, transform, euclid in *.
    cbn [landmark x y] in *. cbv zeta.
    replace (a + k * x (landmark lm 4) - (a + k * x (landmark lm 5)))
      with (k * (x (landmark lm 4) - x (landmark lm 5))) by ring.
    replace (b + k * y (landmark lm 4) - (b + k * y (landmark lm 5)))
      with (k * (y (landmark lm 4) - y (landmark lm 5))) by ring.
    replace (a + k * x (landmark lm 0) - (a + k * x (landmark lm 5)))
      with (k * (x (landmark lm 0) - x (landmark lm 5))) by ring.
    replace (b + k * y (landmark lm 0) - (b + k * y (landmark lm 5)))
      with (k * (y (landmark lm 0) - y (landmark lm 5))) by ring.
    rewrite !sqrt_scaled by lra.
    set (d := sqrt ((x (landmark lm 0) - x (landmark lm 5)) ^ 2
                    + (y (landmark lm 0) - y (landmark lm 5)) ^ 2)) in *.
    rewrite (proj2 (Rltb_false (k * d) (1 / 100))) by lra.
    rewrite (proj2 (Rltb_false d (1 / 100))) by lra.
    field. split; lra. }
  split; [exact Hr|]. intros self. unfold is_thumb_closed. rewrite Hr. reflexivity.
Qed.

(** X9: reflecting the hand in the vertical axis keeps the finger counts,
    the poses and the click ratio, and exchanges the palm test of the right
    hand with that of the left hand; without a handedness label the palm
    test is unchanged. *)
Theorem mirror_symmetry (lm : Landmarks) :
  fingers_open (mirrored lm) = fingers_open lm
  /\ is_tracking_pose (mirrored lm) = is_tracking_pose lm
  /\ is_scroll_pose (mirrored lm) = is_scroll_pose lm
  /\ hold_fingers_open (mirrored lm) = hold_fingers_open lm
  /\ click_ratio (mirrored lm) = click_ratio lm
  /\ _is_palm_facing (mirrored lm) (Some "Right"%string)
     = _is_palm_facing lm (Some "Left"%string)
  /\ _is_palm_facing (mirrored lm) (Some "Left"%string)
     = _is_palm_facing lm (Some "Right"%string)
  /\ _is_palm_facing (mirrored lm) None = _is_palm_facing lm None.
Proof.
  repeat split.
  - unfold click_ratio, raw_dist, scale_ref, mirrored, transform.
    cbn [landmark x y]. cbv zeta.
    replace (1 - x (landmark lm 4) - (1 - x (landmark lm 5)))
      with (- (x (landmark lm 4) - x (landmark lm 5))) by ring.
    replace (1 - x (landmark lm 0) - (1 - x (landmark lm 5)))
      with (- (x (landmark lm 0) - x (landmark lm 5))) by ring.
    replace ((- (x (landmark lm 4) - x (landmark lm 5))) ^ 2)
      with ((x (landmark lm 4) - x (landmark lm 5)) ^ 2) by ring.
    replace ((- (x (landmark lm 0) - x (landmark lm 5))) ^ 2)
      with ((x (landmark lm 0) - x (landmark lm 5)) ^ 2) by ring.
    reflexivity.
  - unfold _is_palm_facing. cbn. rewrite cross_z_mirrored.
    apply Rltb_ext. split; intros; lra.
  - unfold _is_palm_facing. cbn. rewrite cross_z_mirrored.
    apply Rltb_ext. split; intros; lra.
Qed.

Lemma pinched_release_click :
  snd (snd (tick pinched (seen 113 (pinch (25 / 100))))) = GestureAction.CLICK.
Proof. eval_tick. reflexivity. Qed.

Lemma click_needs_new_pinch_witness :
  snd (snd (tick pinched (seen 113 (pinch (25 / 100))))) = GestureAction.CLICK
  /\ (forall out,
         In out (snd (run (fst (tick pinched (seen 113 (pinch (25 / 100)))))
                        [seen 114 (pinch (25 / 100)); seen 115 (pinch (3 / 10))])) ->
         snd out <> GestureAction.CLICK).
Proof.
  split; [exact pinched_release_click|].
  apply (click_needs_new_pinch pinched (seen 113 (pinch (25 / 100)))
           [seen 114 (pinch (25 / 100)); seen 115 (pinch (3 / 10))]
           pinched_release_click).
  intros t lm [<-|[<-|[]]] Heq; injection Heq as <-;
    unfold is_thumb_closed; rewrite pinch_ratio by lra;
    apply Rltb_false; simpl; lra.
Defined.

Lemma pinch_is_tracking_pose (ratio : R) : is_tracking_pose (pinch ratio) = true.
Proof. eval_model. reflexivity. Qed.

Lemma pointer_pose_never_sleeps_witness :
  current_state pinched <> GestureState.SLEEP
  /\ is_toggle (snd (snd (process pinched 113 113 (Some (pinch (25 / 100))) None)))
     = false.
Proof.
  assert (H : current_state pinched <> GestureState.SLEEP) by discriminate.
  split; [exact H|].
  exact (proj1 (pointer_pose_never_sleeps pinched 113 113 (pinch (25 / 100)) None
                  H (or_introl (pinch_is_tracking_pose (25 / 100))))).
Defined.

Lemma holding_steady_range :
  list_max (deque_append WAVE_HISTORY_SIZE (wrist_history holding)
              (x (landmark (open_palm (1 / 2)) 0)))
  - list_min (deque_append WAVE_HISTORY_SIZE (wrist_history holding)
                (x (landmark (open_palm (1 / 2)) 0))) <= 15 / 100.
Proof. eval_model. lra. Qed.

Lemma holding_guard_early :
  hold_to_wake_guard holding (1005 / 10) (open_palm (1 / 2)) None = false.
Proof. eval_model. reflexivity. Qed.

Lemma steady_buffer_excludes_wave_witness :
  current_state holding = GestureState.SLEEP
  /\ snd (process holding (1005 / 10) (1005 / 10) (Some (open_palm (1 / 2))) None)
     = (GestureState.SLEEP, GestureAction.NONE).
Proof.
  split; [reflexivity|].
  exact (steady_buffer_excludes_wave holding (1005 / 10) (1005 / 10)
           (open_palm (1 / 2)) None eq_refl holding_steady_range
           holding_guard_early).
Defined.

Lemma pose_features_similarity_witness :
  0 < 2
  /\ _is_palm_facing (similar 2 0 0 (open_palm (1 / 2))) (Some "Right"%string)
     = _is_palm_facing (open_palm (1 / 2)) (Some "Right"%string).
Proof.
  assert (H : 0 < 2) by lra.
  split; [exact H|].
  apply (pose_features_similarity 2 0 0 (open_palm (1 / 2))
           (Some "Right"%string) H).
Defined.

Lemma pinch_hand_size (ratio : R) :
  euclid (landmark (pinch ratio) 0) (landmark (pinch ratio) 5) = 4 / 10.
Proof.
  unfold euclid, pinch, sample_hand. cbn [landmark x y].
  rewrite sqrt_vertical by lra. lra.
Qed.

Lemma click_ratio_similarity_witness :
  0 < 2
  /\ click_ratio (similar 2 0 0 (pinch (1 / 4))) = click_ratio (pinch (1 / 4)).
Proof.
  assert (H : 0 < 2) by lra.
  split; [exact H|].
  apply (click_ratio_similarity 2 0 0 (pinch (1 / 4)) H);
    rewrite pinch_hand_size; lra.
Defined.

End SessionFacts.

(** ** Streams of filter calls *)

Section StreamFacts.

Import OneEuroFilter.
Import FilterStream.

Lemma blend_between (a v last lo hi : R) :
  0 < a < 1 -> lo <= v <= hi -> lo <= last <= hi ->
  lo <= a * v + (1 - a) * last <= hi.
Proof. intros Ha Hv Hl. split; nra. Qed.

Lemma box_step (mc b lx hx ly hy : R) (self : t) (x y ts : R) :
  0 < mc -> 0 <= b ->
  box_inv mc b lx hx ly hy self ->
  lx <= x <= hx -> ly <= y <= hy ->
  exists self' out,
    filter self x y ts = Return (self', out)
    /\ in_box lx hx ly hy out
    /\ box_inv mc b lx hx ly hy self'.
Proof.
  intros Hmc Hb (last & vx & vy & Hl & Hx & Hy & Hm & Hbt & Bx & By) Hxb Hyb.
  destruct (Rle_dec (ts - last) 0) as [Hdt|Hdt].
  - unfold filter. rewrite Hl. rewrite (proj2 (Rleb_true _ _)) by exact Hdt.
    eexists. eexists. split; [reflexivity|]. rewrite Hx, Hy. split.
    + simpl. tauto.
    + exists ts, vx, vy. cbn. repeat split; auto; tauto.
  - assert (Hlt : last < ts) by lra.
    assert (Hmc' : 0 < min_cutoff self) by (rewrite Hm; exact Hmc).
    assert (Hb' : 0 <= beta self) by (rewrite Hbt; exact Hb).
    destruct (filter_step self x y ts last vx vy Hl Hx Hy Hmc' Hb' Hlt)
      as (self' & Hf & Hx' & Hy' & Hl' & Hm' & Hbt').
    destruct (alpha_of_bounds self x y ts last vx vy Hmc' Hb' Hlt)
      as (_ & _ & _ & Ha & _).
    pose proof (blend_between _ x vx lx hx Ha Hxb Bx) as Bx'.
    pose proof (blend_between _ y vy ly hy Ha Hyb By) as By'.
    eexists. eexists. split; [exact Hf|]. split.
    + simpl. tauto.
    + eexists ts, _, _. rewrite Hx', Hy', Hl', Hm', Hbt'.
      repeat split; auto; tauto.
Qed.

Lemma box_stream (mc b lx hx ly hy : R) (samples : list (R * R * R)) :
  0 < mc -> 0 <= b ->
  Forall (fun s => lx <= fst (fst s) <= hx /\ ly <= snd (fst s) <= hy) samples ->
  forall self, box_inv mc b lx hx ly hy self ->
  exists self' outs,
    filter_all self samples = Return (self', outs)
    /\ length outs = length samples
    /\ Forall (in_box lx hx ly hy) outs.
Proof.
  intros Hmc Hb HF. induction HF as [|[[x y] ts] rest [Hxb Hyb] HF IH];
    intros self Hinv.
  - exists self, []. repeat split; constructor.
  - cbn [fst snd] in Hxb, Hyb.
    destruct (box_step mc b lx hx ly hy self x y ts Hmc Hb Hinv Hxb Hyb)
      as (self1 & out & Hf & Hout & Hinv1).
    destruct (IH self1 Hinv1) as (self2 & outs & Hall & Hlen & Houts).
    exists self2, (out :: outs). cbn [filter_all]. rewrite Hf, Hall.
    repeat split; [simpl; lia|constructor; assumption].
Qed.

Lemma tuned_step (mc b : R) (self : t) (x y ts : R) :
  0 < mc -> 0 <= b ->
  min_cutoff self = mc -> beta self = b ->
  (exists last, initialised self last) ->
  exists self' ox oy,
    filter self x y ts = Return (self', (Some ox, Some oy))
    /\ min_cutoff self' = mc /\ beta self' = b
    /\ (exists last, initialised self' last).
Proof.
  intros Hmc Hb Hm Hbt (last & Hl & (vx & Hx) & (vy & Hy)).
  assert (Hinv : box_inv mc b (Rmin vx x) (Rmax vx x) (Rmin vy y) (Rmax vy y)
                   self).
  { exists last, vx, vy. repeat split; auto; try apply Rmin_l; try apply Rmax_l. }
  destruct (box_step mc b (Rmin vx x) (Rmax vx x) (Rmin vy y) (Rmax vy y)
              self x y ts Hmc Hb Hinv)
    as (self' & out & Hf & Hout & Hinv').
  { split; [apply Rmin_r|apply Rmax_r]. }
  { split; [apply Rmin_r|apply Rmax_r]. }
  destruct out as [[ox|] [oy|]]; try contradiction.
  exists self', ox, oy. split; [exact Hf|].
  destruct Hinv' as (last' & vx' & vy' & Hl' & Hx' & Hy' & Hm' & Hb' & _).
  repeat split; auto. exists last'. repeat split; eauto.
Qed.

Lemma tuned_stream (mc b : R) (samples : list (R * R * R)) :
  0 < mc -> 0 <= b ->
  forall self,
    min_cutoff self = mc -> beta self = b ->
    (exists last, initialised self last) ->
    exists self' outs,
      filter_all self samples = Return (self', outs)
      /\ length outs = length samples
      /\ Forall (fun out => exists ox oy, out = (Some ox, Some oy)) outs.
Proof.
  intros Hmc Hb. induction samples as [|[[x y] ts] rest IH];
    intros self Hm Hbt Hinit.
  - exists self, []. repeat split; constructor.
  - destruct (tuned_step mc b self x y ts Hmc Hb Hm Hbt Hinit)
      as (self1 & ox & oy & Hf & Hm1 & Hb1 & Hinit1).
    destruct (IH self1 Hm1 Hb1 Hinit1) as (self2 & outs & Hall & Hlen & Houts).
    exists self2, ((Some ox, Some oy) :: outs). cbn [filter_all].
    rewrite Hf, Hall. repeat split; [simpl; lia|].
    constructor; [eauto|assumption].
Qed.

(** X10: a filter built with a positive [min_cutoff] and a non-negative
    [beta] never raises and never returns [None], whatever the inputs and
    the time stamps (repeated or going backwards included): every call of a
    stream returns a point. *)
Theorem stream_never_raises
  (mc b dc f : R) (samples : list (R * R * R)) :
  0 < mc -> 0 <= b ->
  exists self' outs,
    filter_all (__init__ mc b dc f) samples = Return (self', outs)
    /\ length outs = length samples
    /\ Forall (fun out => exists ox oy, out = (Some ox, Some oy)) outs.
Proof.
  intros Hmc Hb. destruct samples as [|[[x y] ts] rest].
  - eexists. exists []. repeat split; constructor.
  - cbn [filter_all]. rewrite first_call_identity.
    edestruct (tuned_stream mc b rest Hmc Hb) as
      (self2 & outs & Hall & Hlen & Houts);
      [| | |rewrite Hall; exists self2, ((Some x, Some y) :: outs);
            repeat split; [simpl; lia|constructor; [eauto|assumption]]];
      try reflexivity.
    exists ts. repeat split; cbn; eauto.
Qed.

Lemma stream_never_raises_witness :
  0 < 1 / 10
  /\ exists self' outs,
       filter_all (__init__ (1 / 10) (1 / 2) 1 30)
         [ (3 / 10, 4 / 10, 10); (9 / 10, 1 / 10, 5); (1 / 2, 1 / 2, 5);
           (0, 1, 6) ]
       = Return (self', outs)
       /\ length outs = 4%nat.
Proof.
  assert (H : 0 < 1 / 10) by lra.
  split; [exact H|].
  destruct (stream_never_raises (1 / 10) (1 / 2) 1 30
              [ (3 / 10, 4 / 10, 10); (9 / 10, 1 / 10, 5); (1 / 2, 1 / 2, 5);
                (0, 1, 6) ] H ltac:(lra)) as (self' & outs & Hr & Hlen & _).
  exists self', outs. split; [exact Hr|exact Hlen].
Defined.

Lemma speed_zero (x y vx vy dt : R) :
  0 < dt ->
  (Rabs (Rabs ((x - vx) / dt) + Rabs ((y - vy) / dt)) = 0
   <-> x = vx /\ y = vy).
Proof.
  intros Hdt.
  pose proof (Rabs_pos ((x - vx) / dt)) as H1.
  pose proof (Rabs_pos ((y - vy) / dt)) as H2.
  rewrite (Rabs_pos_eq (_ + _)) by lra.
  split.
  - intros H.
    assert (Hx : Rabs ((x - vx) / dt) = 0) by lra.
    assert (Hy : Rabs ((y - vy) / dt) = 0) by lra.
    assert (Hx0 : (x - vx) / dt = 0).
    { destruct (Req_dec ((x - vx) / dt) 0) as [E|E]; [exact E|].
      apply Rabs_no_R0 in E. contradiction. }
    assert (Hy0 : (y - vy) / dt = 0).
    { destruct (Req_dec ((y - vy) / dt) 0) as [E|E]; [exact E|].
      apply Rabs_no_R0 in E. contradiction. }
    assert (x - vx = 0).
    { replace (x - vx) with ((x - vx) / dt * dt) by (field; lra).
      rewrite Hx0. ring. }
    assert (y - vy = 0).
    { replace (y - vy) with ((y - vy) / dt * dt) by (field; lra).
      rewrite Hy0. ring. }
    split; lra.
  - intros [-> ->]. unfold Rminus. rewrite !Rplus_opp_r.
    unfold Rdiv. rewrite Rmult_0_l, Rabs_R0. lra.
Qed.

(** X11: with non-negative tuning, a call on a filter that has seen a sample
    raises [ZeroDivisionError] exactly when time advanced, [min_cutoff] is
    zero and either [beta] is zero or the input equals the smoothed point;
    it never raises [TypeError]. *)
Theorem zero_cutoff_raises (self : t) (x y ts last vx vy : R) :
  last_time self = Some last ->
  LowPassFilter.last_val (x_filter self) = Some vx ->
  LowPassFilter.last_val (y_filter self) = Some vy ->
  0 <= min_cutoff self -> 0 <= beta self ->
  (filter self x y ts = Raise ZeroDivisionError
   <-> last < ts /\ min_cutoff self = 0
       /\ (beta self = 0 \/ (x = vx /\ y = vy)))
  /\ filter self x y ts <> Raise TypeError.
Proof.
  intros Hl Hx Hy Hmc Hb.
  unfold filter. rewrite Hl, Hx, Hy.
  destruct (Rle_dec (ts - last) 0) as [Hdt|Hdt].
  - rewrite (proj2 (Rleb_true _ _)) by exact Hdt.
    split; [|discriminate]. split; [discriminate|]. intros (H & _). lra.
  - rewrite (proj2 (Rleb_false _ _)) by lra.
    assert (Hlt : 0 < ts - last) by lra.
    destruct (LowPassFilter.filter (dx_filter self)
                (Rabs ((x - vx) / (ts - last)) + Rabs ((y - vy) / (ts - last)))
                None) as [dxf edx] eqn:Hdx.
    pose proof (low_pass_pass_through (dx_filter self)
                  (Rabs ((x - vx) / (ts - last))
                   + Rabs ((y - vy) / (ts - last)))) as [Hpt _].
    rewrite Hdx in Hpt. cbn [snd] in Hpt. subst edx.
    set (mag := Rabs (Rabs ((x - vx) / (ts - last))
                      + Rabs ((y - vy) / (ts - last)))).
    assert (Hmag : 0 <= mag) by apply Rabs_pos.
    assert (Hprod : 0 <= beta self * mag) by (apply Rmult_le_pos; assumption).
    pose proof PI_RGT_0 as Hpi.
    destruct (Req_dec (min_cutoff self + beta self * mag) 0) as [Hc|Hc].
    + rewrite (proj2 (Reqb_true _ _)) by (rewrite Hc; ring).
      split; [|discriminate]. split; [|reflexivity]. intros _.
      split; [lra|]. split; [lra|].
      assert (Hz : beta self * mag = 0) by lra.
      apply Rmult_integral in Hz. destruct Hz as [Hz|Hz]; [left; exact Hz|].
      right. apply (speed_zero x y vx vy (ts - last) Hlt). exact Hz.
    + assert (Hpos : 0 < min_cutoff self + beta self * mag) by lra.
      assert (Hden : 0 < 2 * PI * (min_cutoff self + beta self * mag))
        by (apply Rmult_lt_0_compat; lra).
      rewrite (proj2 (Reqb_false _ _)) by lra.
      assert (Htau : 0 < 1 / (2 * PI * (min_cutoff self + beta self * mag)))
        by (apply Rdiv_lt_0_compat; lra).
      assert (Hq : 0 < 1 / (2 * PI * (min_cutoff self + beta self * mag))
                       / (ts - last))
        by (apply Rdiv_lt_0_compat; lra).
      rewrite (proj2 (Reqb_false _ _)) by lra.
      destruct (LowPassFilter.filter (x_filter self) x _) as [xf ox].
      destruct (LowPassFilter.filter (y_filter self) y _) as [yf oy].
      split; [|discriminate]. split; [discriminate|].
      intros (_ & Hm0 & [Hb0|[Hxe Hye]]).
      * exfalso. apply Hc. rewrite Hm0, Hb0. ring.
      * exfalso. apply Hc.
        assert (Hz : mag = 0) by (apply (speed_zero x y vx vy (ts - last) Hlt); tauto).
        rewrite Hm0, Hz. ring.
Qed.

Lemma zero_cutoff_raises_witness :
  0 <= min_cutoff uncut_at_10
  /\ filter uncut_at_10 (1 / 2) (1 / 2) 11 = Raise ZeroDivisionError.
Proof.
  assert (Hmc : 0 <= min_cutoff uncut_at_10) by (simpl; lra).
  assert (Hb : 0 <= beta uncut_at_10) by (simpl; lra).
  split; [exact Hmc|].
  apply (proj2 (proj1 (zero_cutoff_raises uncut_at_10 (1 / 2) (1 / 2) 11 10
                         (3 / 10) (4 / 10) eq_refl eq_refl eq_refl Hmc Hb))).
  split; [lra|]. split; [reflexivity|]. left. reflexivity.
Defined.

Lemma same_core_step (f g : t) (x y ts : R) :
  same_core f g ->
  match filter f x y ts, filter g x y ts with
  | Return (f', o1), Return (g', o2) => o1 = o2 /\ same_core f' g'
  | Raise e1, Raise e2 => e1 = e2
  | _, _ => False
  end.
Proof.
  intros (Hm & Hb & Hx & Hy & Hl).
  unfold filter. rewrite <- Hl, <- Hx, <- Hy, <- Hm, <- Hb.
  destruct (last_time f) as [last|].
  - destruct (Rleb (ts - last) 0).
    + split; [reflexivity|]. unfold same_core. cbn. auto.
    + destruct (LowPassFilter.last_val (x_filter f)) as [vx|] eqn:Ex;
        [|reflexivity].
      destruct (LowPassFilter.last_val (y_filter f)) as [vy|] eqn:Ey;
        [|reflexivity].
      set (m := Rabs ((x - vx) / (ts - last)) + Rabs ((y - vy) / (ts - last))).
      destruct (LowPassFilter.filter (dx_filter f) m None) as [d1 e1] eqn:E1.
      destruct (LowPassFilter.filter (dx_filter g) m None) as [d2 e2] eqn:E2.
      pose proof (low_pass_pass_through (dx_filter f) m) as [P1 _].
      pose proof (low_pass_pass_through (dx_filter g) m) as [P2 _].
      rewrite E1 in P1. rewrite E2 in P2. cbn [snd] in P1, P2. subst e1 e2.
      destruct (Reqb _ 0); [reflexivity|].
      destruct (Reqb _ 0); [reflexivity|].
      symmetry in Hx, Hy.
      rewrite (low_pass_blend (x_filter f) x vx _ Ex).
      rewrite (low_pass_blend (y_filter f) y vy _ Ey).
      rewrite (low_pass_blend (x_filter g) x vx _ Hx).
      rewrite (low_pass_blend (y_filter g) y vy _ Hy).
      split; [reflexivity|]. unfold same_core. cbn. auto.
  - unfold LowPassFilter.filter, LowPassFilter.set_alpha.
    cbn [LowPassFilter.last_val].
    destruct (LowPassFilter.last_val (x_filter f)) as [vx|] eqn:Ex;
      destruct (LowPassFilter.last_val (y_filter f)) as [vy|] eqn:Ey;
      rewrite <- ?Hx, <- ?Hy;
      (split; [reflexivity|]); unfold same_core; cbn; auto.
Qed.

Lemma same_core_stream (samples : list (R * R * R)) :
  forall f g, same_core f g ->
  results (filter_all f samples) = results (filter_all g samples).
Proof.
  induction samples as [|[[x y] ts] rest IH]; intros f g H; [reflexivity|].
  cbn [filter_all].
  pose proof (same_core_step f g x y ts H) as Hs.
  destruct (filter f x y ts) as [[f' o1]|e1], (filter g x y ts) as [[g' o2]|e2];
    try contradiction.
  - destruct Hs as [-> Hc]. specialize (IH f' g' Hc).
    destruct (filter_all f' rest) as [[? ?]|?], (filter_all g' rest) as [[? ?]|?];
      cbn [results] in *; congruence.
  - cbn [results]. congruence.
Qed.

(** X12: the results of a stream of calls (the returned points, or the
    exception) depend only on [min_cutoff], [beta], the two smoothed
    coordinates and the last time stamp: [freq], [d_cutoff], the forced
    alpha and the state of the derivative filter never change them. *)
Theorem dead_parameters (samples : list (R * R * R)) :
  (forall f g, same_core f g ->
     results (filter_all f samples) = results (filter_all g samples))
  /\ (forall mc b dc f dc' f',
        results (filter_all (__init__ mc b dc f) samples)
        = results (filter_all (__init__ mc b dc' f') samples)).
Proof.
  split; [apply same_core_stream|].
  intros. apply same_core_stream. unfold same_core. cbn. auto.
Qed.

End StreamFacts.

(** ** Truncation, the input controller and the worker loop *)

Section PyInt.

Lemma Int_part_bounds (v : R) : IZR (Int_part v) <= v < IZR (Int_part v) + 1.
Proof. destruct (base_Int_part v) as [H1 H2]. lra. Qed.

Lemma py_int_nonneg (v : R) :
  0 <= v -> IZR (py_int v) <= v < IZR (py_int v) + 1 /\ (0 <= py_int v)%Z.
Proof.
  intros H. unfold py_int. rewrite (proj2 (Rleb_true _ _)) by exact H.
  pose proof (Int_part_bounds v) as B. split; [exact B|].
  apply le_IZR. destruct (Z_lt_le_dec (Int_part v) 0) as [Hn|Hp].
  - assert (Int_part v <= -1)%Z as Hle by lia. apply IZR_le in Hle. lra.
  - apply IZR_le. exact Hp.
Qed.

Lemma py_int_neg (v : R) :
  v < 0 -> IZR (py_int v) - 1 < v <= IZR (py_int v) /\ (py_int v <= 0)%Z.
Proof.
  intros H. unfold py_int. rewrite (proj2 (Rleb_false _ _)) by exact H.
  pose proof (Int_part_bounds (- v)) as B. rewrite opp_IZR.
  split; [lra|].
  assert (0 <= Int_part (- v))%Z; [|lia].
  apply le_IZR. destruct (Z_lt_le_dec (Int_part (- v)) 0) as [Hn|Hp].
  - assert (Int_part (- v) <= -1)%Z as Hle by lia. apply IZR_le in Hle. lra.
  - apply IZR_le. exact Hp.
Qed.

Lemma py_int_zero (v : R) : py_int v = 0%Z <-> -1 < v < 1.
Proof.
  destruct (Rle_dec 0 v) as [Hv|Hv].
  - destruct (py_int_nonneg v Hv) as [B Hz]. split.
    + intros E. rewrite E in B. simpl in B. lra.
    + intros Hlt. assert (py_int v < 1)%Z; [|lia]. apply lt_IZR. lra.
  - destruct (py_int_neg v ltac:(lra)) as [B Hz]. split.
    + intros E. rewrite E in B. simpl in B. lra.
    + intros Hlt. assert (-1 < py_int v)%Z; [|lia]. apply lt_IZR. lra.
Qed.

Lemma py_int_IZR (z : Z) : py_int (IZR z) = z.
Proof.
  destruct (Z_le_gt_dec 0 z) as [Hz|Hz].
  - destruct (py_int_nonneg (IZR z) (IZR_le _ _ Hz)) as [[B1 B2] _].
    apply le_IZR in B1. assert (z < py_int (IZR z) + 1)%Z; [|lia].
    apply lt_IZR. rewrite plus_IZR. exact B2.
  - assert (Hn : IZR z < 0) by (apply (IZR_lt z 0); lia).
    destruct (py_int_neg (IZR z) Hn) as [[B1 B2] _].
    apply le_IZR in B2. assert (py_int (IZR z) - 1 < z)%Z; [|lia].
    apply lt_IZR. rewrite minus_IZR. exact B1.
Qed.

Lemma py_int_unique (v : R) (z : Z) :
  (0 <= v -> IZR z <= v < IZR z + 1) ->
  (v < 0 -> IZR z - 1 < v <= IZR z) ->
  py_int v = z.
Proof.
  intros Hp Hn. destruct (Rle_dec 0 v) as [Hv|Hv].
  - destruct (py_int_nonneg v Hv) as [B _]. specialize (Hp Hv).
    assert (py_int v < z + 1)%Z by (apply lt_IZR; rewrite plus_IZR; lra).
    assert (z < py_int v + 1)%Z by (apply lt_IZR; rewrite plus_IZR; lra).
    lia.
  - destruct (py_int_neg v ltac:(lra)) as [B _]. specialize (Hn ltac:(lra)).
    assert (py_int v - 1 < z)%Z by (apply lt_IZR; rewrite minus_IZR; lra).
    assert (z - 1 < py_int v)%Z by (apply lt_IZR; rewrite minus_IZR; lra).
    lia.
Qed.

Lemma py_int_opp (v : R) : py_int (- v) = (- py_int v)%Z.
Proof.
  apply py_int_unique; intros H; rewrite opp_IZR.
  - destruct (Req_dec v 0) as [->|Hne].
    + change 0 with (IZR 0). rewrite py_int_IZR. simpl. lra.
    + destruct (py_int_neg v ltac:(lra)) as [B _]. lra.
  - destruct (py_int_nonneg v ltac:(lra)) as [B _]. lra.
Qed.

End PyInt.

Section InputFacts.

Import InputController.

Lemma c_long_small (v : Z) : (- 2 ^ 31 <= v < 2 ^ 31)%Z -> c_long v = v.
Proof.
  intros H. unfold c_long. rewrite Z.mod_small by lia. lia.
Qed.

Lemma c_long_c_ulong (v : Z) : c_long (c_ulong v) = c_long v.
Proof.
  unfold c_long, c_ulong.
  rewrite Zplus_mod_idemp_l. reflexivity.
Qed.

Lemma py_int_abs (v : R) :
  Rabs (IZR (py_int v)) <= Rabs v < Rabs (IZR (py_int v)) + 1
  /\ 0 <= IZR (py_int v) * v.
Proof.
  destruct (Rle_dec 0 v) as [Hv|Hv].
  - destruct (py_int_nonneg v Hv) as [B Hz]. apply IZR_le in Hz.
    rewrite !Rabs_pos_eq by lra. split; [lra|]. apply Rmult_le_pos; lra.
  - destruct (py_int_neg v ltac:(lra)) as [B Hz]. apply IZR_le in Hz.
    rewrite (Rabs_left v) by lra.
    destruct (Req_dec (IZR (py_int v)) 0) as [E|E].
    + rewrite E, Rabs_R0. split; lra.
    + rewrite (Rabs_left (IZR (py_int v))) by lra. split; [lra|]. nra.
Qed.

Lemma py_int_range (v : R) (n : Z) :
  (0 < n)%Z -> Rabs v < IZR n -> (- n < py_int v < n)%Z.
Proof.
  intros Hn Hv. destruct (py_int_abs v) as [[B _] _].
  assert (Hlt : Rabs (IZR (py_int v)) < IZR n) by lra.
  apply Rabs_def2 in Hlt. destruct Hlt as [H1 H2].
  rewrite <- opp_IZR in H2. apply lt_IZR in H1, H2. lia.
Qed.

(** X13: [move_cursor_relative] sends nothing exactly when both scaled deltas
    are smaller than one pixel in size; otherwise it sends one MOVE
    structure whose deltas are the scaled deltas truncated toward zero. *)
Theorem sub_pixel_moves_dropped (dx dy sensitivity : R) :
  (move_cursor_relative dx dy sensitivity = []
   <-> -1 < dx * sensitivity < 1 /\ -1 < dy * sensitivity < 1)
  /\ (move_cursor_relative dx dy sensitivity <> [] ->
      exists e,
        move_cursor_relative dx dy sensitivity = [e]
        /\ type e = 0%Z
        /\ dwFlags e = MOUSEEVENTF_MOVE
        /\ mouseData e = 0%Z
        /\ (Rabs (dx * sensitivity) < IZR (2 ^ 31) ->
            InputController.dx e = py_int (dx * sensitivity)
            /\ Rabs (IZR (InputController.dx e)) <= Rabs (dx * sensitivity)
               < Rabs (IZR (InputController.dx e)) + 1
            /\ 0 <= IZR (InputController.dx e) * (dx * sensitivity))
        /\ (Rabs (dy * sensitivity) < IZR (2 ^ 31) ->
            InputController.dy e = py_int (dy * sensitivity)
            /\ Rabs (IZR (InputController.dy e)) <= Rabs (dy * sensitivity)
               < Rabs (IZR (InputController.dy e)) + 1
            /\ 0 <= IZR (InputController.dy e) * (dy * sensitivity))).
Proof.
  unfold move_cursor_relative. cbv zeta.
  destruct ((py_int (dx * sensitivity) =? 0)%Z
            && (py_int (dy * sensitivity) =? 0)%Z) eqn:E.
  - apply andb_true_iff in E. destruct E as [E1 E2].
    apply Z.eqb_eq in E1, E2. apply py_int_zero in E1, E2.
    split; [tauto|]. intros H. contradiction.
  - split.
    + split; [discriminate|]. intros [H1 H2].
      apply py_int_zero in H1, H2. rewrite H1, H2 in E. discriminate.
    + intros _. eexists. split; [reflexivity|]. cbn [type dwFlags mouseData
        InputController.dx InputController.dy].
      repeat split; try reflexivity.
      * apply c_long_small. pose proof (py_int_range _ (2 ^ 31) eq_refl H). lia.
      * rewrite c_long_small
          by (pose proof (py_int_range _ (2 ^ 31) eq_refl H); lia).
        apply py_int_abs.
      * rewrite c_long_small
          by (pose proof (py_int_range _ (2 ^ 31) eq_refl H); lia).
        apply py_int_abs.
      * rewrite c_long_small
          by (pose proof (py_int_range _ (2 ^ 31) eq_refl H); lia).
        apply py_int_abs.
      * apply c_long_small. pose proof (py_int_range _ (2 ^ 31) eq_refl H). lia.
      * rewrite c_long_small
          by (pose proof (py_int_range _ (2 ^ 31) eq_refl H); lia).
        apply py_int_abs.
      * rewrite c_long_small
          by (pose proof (py_int_range _ (2 ^ 31) eq_refl H); lia).
        apply py_int_abs.
      * rewrite c_long_small
          by (pose proof (py_int_range _ (2 ^ 31) eq_refl H); lia).
        apply py_int_abs.
Qed.

(** X14: [scroll_vertical] always sends exactly one WHEEL structure, also for
    a zero amount.  The amount [int(steps * 120)] is stored in the unsigned
    [mouseData] field modulo 2^32; while it fits in 32 bits, reading the
    field as a signed number gives the amount back, and a negative amount
    is stored as 2^32 plus the amount. *)
Theorem scroll_always_sends (steps : R) :
  exists e,
    scroll_vertical steps = [e]
    /\ type e = 0%Z /\ dwFlags e = MOUSEEVENTF_WHEEL
    /\ InputController.dx e = 0%Z /\ InputController.dy e = 0%Z
    /\ (0 <= mouseData e < 2 ^ 32)%Z
    /\ (Rabs (steps * 120) < IZR (2 ^ 31) ->
        c_long (mouseData e) = py_int (steps * 120)
        /\ (steps * 120 <= -1 ->
            mouseData e = (2 ^ 32 + py_int (steps * 120))%Z)
        /\ (0 <= steps ->  mouseData e = py_int (steps * 120))).
Proof.
  eexists. split; [reflexivity|].
  cbn [type dwFlags mouseData InputController.dx InputController.dy].
  repeat split; try reflexivity.
  - apply Z.mod_pos_bound. lia.
  - apply Z.mod_pos_bound. lia.
  - rewrite c_long_c_ulong. apply c_long_small.
    pose proof (py_int_range _ (2 ^ 31) eq_refl H). lia.
  - intros Hneg. pose proof (py_int_range _ (2 ^ 31) eq_refl H) as Hr.
    destruct (py_int_neg (steps * 120) ltac:(lra)) as [[B1 B2] Hz].
    assert (py_int (steps * 120) < 0)%Z.
    { apply lt_IZR. lra. }
    unfold c_ulong.
    rewrite <- (Z.mod_add _ 1) by lia. rewrite Z.mod_small by lia. lia.
  - intros Hpos. pose proof (py_int_range _ (2 ^ 31) eq_refl H) as Hr.
    destruct (py_int_nonneg (steps * 120) ltac:(lra)) as [_ Hz].
    unfold c_ulong. apply Z.mod_small. lia.
Qed.

End InputFacts.

Section WorkerFacts.

Import GestureManager.
Import InputController.
Import VisionWorker.

Lemma process_shape (self : GestureManager.t) (ct ht : R) (lm : Landmarks)
  (hd : option string) :
  let r := process self ct ht (Some lm) hd in
  fst (snd r) = current_state (fst r)
  /\ (snd (snd r) = GestureAction.CLICK ->
      fst (snd r) = GestureState.CLICK_PENDING)
  /\ (snd (snd r) = GestureAction.SLEEP <-> fst (snd r) = GestureState.SLEEP
                                            /\ current_state self <> GestureState.SLEEP)
  /\ (current_state self = GestureState.SLEEP ->
      fst (snd r) = GestureState.SLEEP \/ fst (snd r) = GestureState.IDLE).
Proof.
  cbv zeta. rewrite process_cases.
  destruct (GestureState.eqb (current_state self) GestureState.SLEEP
            && hold_to_wake_guard self ht lm hd) eqn:Hg.
  - apply andb_true_iff in Hg. destruct Hg as [Hs _].
    apply GestureState_eqb_eq in Hs. cbn [fst snd].
    repeat split; try discriminate; auto;
      try (intros [H _]; discriminate).
  - rewrite wave_and_after_cases. cbv zeta.
    destruct (before_wave_frame self ht lm hd) as (Hcs & _).
    rewrite Hcs.
    destruct (_ && _ && _ && _).
    + destruct (GestureState.eqb (current_state self) GestureState.SLEEP) eqn:E;
        cbn [fst snd current_state set_current_state];
        [apply GestureState_eqb_eq in E|apply GestureState_eqb_neq in E];
        repeat split; try discriminate; auto;
        try (intros [H _]; discriminate); try (intros H; contradiction).
    + destruct (GestureState.eqb (current_state self) GestureState.SLEEP) eqn:E.
      * apply GestureState_eqb_eq in E. cbn [fst snd].
        unfold history_append. cbn [current_state]. rewrite ?Hcs.
        repeat split; try discriminate; auto;
          try (intros [_ H]; contradiction).
      * apply GestureState_eqb_neq in E.
        unfold normal_operation.
        destruct (is_tracking_pose lm);
          [destruct (was_thumb_closed _ && negb _)|destruct (is_scroll_pose lm)];
          cbn [fst snd current_state];
          repeat split; try discriminate; auto;
          try (intros [H _]; discriminate); try (intros H; contradiction).
Qed.

Lemma override_sleep_cases (self : VisionWorker.t) (mgr : GestureManager.t)
  (state : GestureState.t) (action : GestureAction.t) :
  state = current_state mgr ->
  (action = GestureAction.SLEEP -> state = GestureState.SLEEP) ->
  let r := override_sleep self mgr state action in
  snd r = current_state (fst r)
  /\ (keep_awake self = true -> snd r <> GestureState.SLEEP)
  /\ (state <> GestureState.SLEEP -> r = (mgr, state))
  /\ (snd r = state \/ (state = GestureState.SLEEP /\ snd r = GestureState.IDLE)).
Proof.
  intros Hst Hact. unfold override_sleep.
  destruct action, (keep_awake self), state; cbn;
    try (specialize (Hact eq_refl); discriminate);
    repeat split; auto; try discriminate; try congruence;
    try (intros H; exfalso; apply H; reflexivity); try tauto.
Qed.

Lemma apply_requests_settings (self : VisionWorker.t) (mgr : GestureManager.t) :
  let r := apply_requests self mgr in
  sensitivity_x (fst r) = sensitivity_x self
  /\ sensitivity_y (fst r) = sensitivity_y self
  /\ keep_awake (fst r) = keep_awake self
  /\ invert_scroll (fst r) = invert_scroll self
  /\ current_click_thresh_val (fst r) = current_click_thresh_val self
  /\ request_wake (fst r) = false.
Proof.
  unfold apply_requests.
  destruct (Rltb 0 (pending_click_thresh self));
    destruct (request_wake self) eqn:E; cbn; rewrite ?E; auto 10.
Qed.

Lemma smoother_step (sm : OneEuroFilter.t) (x y ts : R) :
  smoother_ready sm ->
  exists sm' ox oy,
    OneEuroFilter.filter sm x y ts = Return (sm', (Some ox, Some oy))
    /\ smoother_ready sm'.
Proof.
  intros [->|(Hmc & Hb & last & vx & vy & Hl & Hx & Hy)].
  - rewrite first_call_identity. eexists. exists x, y. split; [reflexivity|].
    right. cbn. repeat split; try reflexivity. exists ts, x, y. auto.
  - assert (Hinv : FilterStream.box_inv (1 / 10) (1 / 2) (Rmin vx x) (Rmax vx x)
                     (Rmin vy y) (Rmax vy y) sm).
    { exists last, vx, vy. repeat split; auto;
        try apply Rmin_l; try apply Rmax_l. }
    destruct (box_step (1 / 10) (1 / 2) (Rmin vx x) (Rmax vx x)
                (Rmin vy y) (Rmax vy y) sm x y ts ltac:(lra) ltac:(lra) Hinv)
      as (sm' & out & Hf & Hout & Hinv').
    { split; [apply Rmin_r|apply Rmax_r]. }
    { split; [apply Rmin_r|apply Rmax_r]. }
    destruct out as [[ox|] [oy|]]; try contradiction.
    exists sm', ox, oy. split; [exact Hf|].
    destruct Hinv' as (last' & vx' & vy' & Hl' & Hx' & Hy' & Hm' & Hb' & _).
    right. repeat split; auto. exists last', vx', vy'. auto.
Qed.

Lemma iteration_no_hand (self : VisionWorker.t) (l : Locals) (f : Frame) :
  landmarks f = None ->
  iteration self l f =
  Return {| worker := fst (apply_requests self (gesture_mgr l));
            locals := {| gesture_mgr := snd (apply_requests self (gesture_mgr l));
                         smoother := smoother l;
                         prev_x := prev_x l;
                         prev_y := prev_y l;
                         first_frame := true;
                         screen_w := screen_w l;
                         screen_h := screen_h l |};
            sent := [];
            signal := None |}.
Proof.
  intros H. unfold iteration. rewrite H.
  destruct (apply_requests self (gesture_mgr l)) as [self1 mgr1]. reflexivity.
Qed.

Lemma iteration_hand (self : VisionWorker.t) (l : Locals) (f : Frame)
  (lm : Landmarks) :
  landmarks f = Some lm ->
  smoother_ready (smoother l) ->
  let self1 := fst (apply_requests self (gesture_mgr l)) in
  let mgr1 := snd (apply_requests self (gesture_mgr l)) in
  let p := process mgr1 (process_time f) (hold_time f) (Some lm) (handedness f) in
  let o := override_sleep self1 (fst p) (fst (snd p)) (snd (snd p)) in
  exists sm cx cy,
    OneEuroFilter.filter (smoother l) (x (landmark lm 8)) (y (landmark lm 8))
      (filter_time f) = Return (sm, (Some cx, Some cy))
    /\ smoother_ready sm
    /\ iteration self l f =
       Return {| worker := self1;
                 locals := {| gesture_mgr := fst o;
                              smoother := sm;
                              prev_x := cx;
                              prev_y := cy;
                              first_frame := false;
                              screen_w := screen_w l;
                              screen_h := screen_h l |};
                 sent := pointer_events self1 (snd o) (snd (snd p)) cx cy
                           (if first_frame l then cx else prev_x l)
                           (if first_frame l then cy else prev_y l);
                 signal :=
                   Some {| ui_x := py_int (cx * IZR (screen_w l));
                           ui_y := py_int (cy * IZR (screen_h l));
                           is_tracking :=
                             GestureState.eqb (snd o) GestureState.TRACKING
                             || GestureState.eqb (snd o)
                                  GestureState.CLICK_PENDING;
                           is_sleep :=
                             GestureState.eqb (snd o) GestureState.SLEEP;
                           is_scrolling :=
                             GestureState.eqb (snd o) GestureState.SCROLLING
                        |} |}.
Proof.
  intros Hlm Hready. cbv zeta.
  destruct (smoother_step (smoother l) (x (landmark lm 8)) (y (landmark lm 8))
              (filter_time f) Hready) as (sm & cx & cy & Hf & Hr).
  exists sm, cx, cy. split; [exact Hf|]. split; [exact Hr|].
  unfold iteration. rewrite Hlm.
  destruct (apply_requests self (gesture_mgr l)) as [self1 mgr1]. cbn [fst snd].
  destruct (process mgr1 (process_time f) (hold_time f) (Some lm) (handedness f))
    as [mgr2 [state action]]. cbn [fst snd].
  destruct (override_sleep self1 mgr2 state action) as [mgr3 state3].
  cbn [fst snd]. rewrite Hf.
  destruct (first_frame l); reflexivity.
Qed.


(** X15: an iteration of the worker loop whose smoother is the one the loop
    built always returns.  Without a hand it sends nothing, emits no signal,
    keeps smoother and previous point and marks the next frame as first;
    whenever it sends anything, a hand was seen, the manager is awake and
    the signal reports tracking or scrolling and not sleep. *)
Theorem input_only_while_pointing
  (self : VisionWorker.t) (l : Locals) (f : Frame) :
  smoother_ready (smoother l) ->
  exists r,
    iteration self l f = Return r
    /\ smoother_ready (smoother (locals r))
    /\ (landmarks f = None ->
        sent r = [] /\ signal r = None
        /\ first_frame (locals r) = true
        /\ smoother (locals r) = smoother l
        /\ prev_x (locals r) = prev_x l /\ prev_y (locals r) = prev_y l)
    /\ (sent r <> [] ->
        landmarks f <> None
        /\ current_state (gesture_mgr (locals r)) <> GestureState.SLEEP
        /\ exists sg,
             signal r = Some sg
             /\ is_sleep sg = false
             /\ is_tracking sg || is_scrolling sg = true).
Proof.
  intros Hready. destruct (landmarks f) as [lm|] eqn:Hlm.
  - destruct (iteration_hand self l f lm Hlm Hready)
      as (sm & cx & cy & _ & Hsm & Hit).
    cbv zeta in Hit. eexists. split; [exact Hit|].
    cbn [locals smoother sent signal gesture_mgr].
    split; [exact Hsm|]. split; [discriminate|].
    set (self1 := fst (apply_requests self (gesture_mgr l))).
    set (mgr1 := snd (apply_requests self (gesture_mgr l))).
    set (p := process mgr1 (process_time f) (hold_time f) (Some lm)
                (handedness f)).
    destruct (process_shape mgr1 (process_time f) (hold_time f) lm
                (handedness f)) as (Hs & Hclick & Hsleep & _).
    fold p in Hs, Hclick, Hsleep.
    destruct (override_sleep_cases self1 (fst p) (fst (snd p)) (snd (snd p)) Hs
                (fun H => proj1 (proj1 Hsleep H)))
      as (Hcur & _ & Hkeep & Hor).
    set (o := override_sleep self1 (fst p) (fst (snd p)) (snd (snd p))) in *.
    intros Hsent. split; [discriminate|].
    assert (Hpt : GestureState.eqb (snd o) GestureState.TRACKING
                  || GestureState.eqb (snd o) GestureState.CLICK_PENDING
                  || GestureState.eqb (snd o) GestureState.SCROLLING = true).
    { destruct (GestureState.eqb (snd o) GestureState.TRACKING
                || GestureState.eqb (snd o) GestureState.CLICK_PENDING
                || GestureState.eqb (snd o) GestureState.SCROLLING) eqn:E;
        [reflexivity|].
      exfalso. apply Hsent. unfold pointer_events.
      apply orb_false_iff in E. destruct E as [E1 E2]. rewrite E1, E2.
      cbn [app].
      destruct (snd (snd p)) eqn:Ha; try reflexivity.
      specialize (Hclick eq_refl).
      assert (Hne : fst (snd p) <> GestureState.SLEEP) by (rewrite Hclick; discriminate).
      specialize (Hkeep Hne). fold o in Hkeep.
      rewrite Hkeep in E1. cbn [snd] in E1. rewrite Hclick in E1.
      discriminate. }
    rewrite <- Hcur.
    split.
    + intros Habs. rewrite Habs in Hpt. discriminate.
    + eexists. split; [reflexivity|]. cbn [is_sleep is_tracking is_scrolling].
      split; [|rewrite <- orb_assoc in Hpt; rewrite <- orb_assoc; exact Hpt].
      destruct (snd o); try reflexivity. discriminate.
  - rewrite (iteration_no_hand self l f Hlm). eexists. split; [reflexivity|].
    cbn [locals smoother sent signal first_frame prev_x prev_y].
    split; [exact Hready|]. split; [auto 10|].
    intros H. contradiction.
Qed.

(** X16: with [keep_awake] set, an iteration that sees a hand leaves the
    manager awake and reports a state that is not Sleep, whatever [process]
    returned. *)
Theorem keep_awake_holds
  (self : VisionWorker.t) (l : Locals) (f : Frame) (lm : Landmarks) :
  smoother_ready (smoother l) ->
  keep_awake self = true ->
  landmarks f = Some lm ->
  exists r sg,
    iteration self l f = Return r
    /\ signal r = Some sg
    /\ is_sleep sg = false
    /\ current_state (gesture_mgr (locals r)) <> GestureState.SLEEP.
Proof.
  intros Hready Hka Hlm.
  destruct (iteration_hand self l f lm Hlm Hready)
    as (sm & cx & cy & _ & Hsm & Hit).
  cbv zeta in Hit. eexists. eexists. split; [exact Hit|].
  cbn [locals signal gesture_mgr]. split; [reflexivity|].
  cbn [is_sleep].
  set (self1 := fst (apply_requests self (gesture_mgr l))).
  set (mgr1 := snd (apply_requests self (gesture_mgr l))).
  set (p := process mgr1 (process_time f) (hold_time f) (Some lm)
              (handedness f)).
  destruct (process_shape mgr1 (process_time f) (hold_time f) lm
              (handedness f)) as (Hs & _ & Hsleep & _).
  fold p in Hs, Hsleep.
  destruct (override_sleep_cases self1 (fst p) (fst (snd p)) (snd (snd p)) Hs
              (fun H => proj1 (proj1 Hsleep H)))
    as (Hcur & Hawake & _ & _).
  assert (Hka1 : keep_awake self1 = true).
  { unfold self1.
    destruct (apply_requests_settings self (gesture_mgr l)) as (_ & _ & H & _).
    rewrite H. exact Hka. }
  specialize (Hawake Hka1). rewrite <- Hcur. split; [|exact Hawake].
  destruct (snd (override_sleep self1 (fst p) (fst (snd p)) (snd (snd p))));
    try reflexivity. exfalso. apply Hawake. reflexivity.
Qed.

Lemma move_nothing (v w s : R) :
  InputController.move_cursor_relative (v - v) (w - w) s = [].
Proof.
  unfold move_cursor_relative. cbv zeta.
  replace ((v - v) * s) with 0 by ring. replace ((w - w) * s) with 0 by ring.
  rewrite (proj2 (py_int_zero 0)) by lra. reflexivity.
Qed.

(** X17: on the first frame after the hand was lost (or after the start) the
    iteration sends no MOVE and no WHEEL structure: it sends nothing at all,
    or just the two structures of a left click. *)
Theorem reacquired_hand_does_not_jump
  (self : VisionWorker.t) (l : Locals) (f : Frame) :
  smoother_ready (smoother l) ->
  first_frame l = true ->
  exists r,
    iteration self l f = Return r
    /\ (sent r = [] \/ sent r = InputController.left_click).
Proof.
  intros Hready Hfirst. destruct (landmarks f) as [lm|] eqn:Hlm.
  - destruct (iteration_hand self l f lm Hlm Hready)
      as (sm & cx & cy & _ & Hsm & Hit).
    cbv zeta in Hit. eexists. split; [exact Hit|]. cbn [sent].
    rewrite Hfirst. unfold pointer_events. cbv zeta.
    rewrite move_nothing.
    replace (cy - cy) with 0 by ring. rewrite Rabs_R0.
    rewrite (proj2 (Rltb_false _ _)) by lra.
    match goal with
    | |- context [(if ?a then _ else if ?b then _ else _) ++ _] =>
        destruct a; [|destruct b]
    end; cbn [app];
      match goal with
      | |- context [match ?a with GestureAction.CLICK => _ | _ => _ end] =>
          destruct a
      end; auto.
  - rewrite (iteration_no_hand self l f Hlm). eexists. split; [reflexivity|].
    left. reflexivity.
Qed.

Lemma py_int_at_least (v : R) (n : Z) :
  IZR n < v -> (0 <= n)%Z -> (n <= py_int v)%Z.
Proof.
  intros Hv Hn. apply IZR_le in Hn.
  destruct (py_int_nonneg v ltac:(lra)) as [[_ B] _].
  assert (n < py_int v + 1)%Z; [|lia]. apply lt_IZR. rewrite plus_IZR. lra.
Qed.

(** X18: in the scrolling state a vertical change of the smoothed point of at
    most 0.002 scrolls nothing; a larger change sends one WHEEL structure
    whose signed amount is the change times 6000 truncated toward zero,
    12 or more in size, negative when the point moved down, and of the
    opposite sign when [invert_scroll] is set. *)
Theorem scroll_direction
  (self : VisionWorker.t) (curr_x_norm curr_y_norm prev_x prev_y : R) :
  let dy := curr_y_norm - prev_y in
  let turn := if invert_scroll self then dy else - dy in
  let evs := pointer_events self GestureState.SCROLLING GestureAction.SCROLL
               curr_x_norm curr_y_norm prev_x prev_y in
  (Rabs dy <= 2 / 1000 -> evs = [])
  /\ (2 / 1000 < Rabs dy ->
      evs = InputController.scroll_vertical (turn * 50)
      /\ (Rabs dy * 6000 < IZR (2 ^ 31) ->
          exists e,
            evs = [e]
            /\ dwFlags e = MOUSEEVENTF_WHEEL
            /\ c_long (mouseData e) = py_int (turn * 6000)
            /\ (0 < turn -> (12 <= c_long (mouseData e))%Z)
            /\ (turn < 0 -> (c_long (mouseData e) <= -12)%Z))).
Proof.
  cbv zeta. unfold pointer_events. cbn [GestureState.eqb orb app].
  rewrite app_nil_r.
  set (dy := curr_y_norm - prev_y).
  split.
  - intros H. rewrite (proj2 (Rltb_false _ _)) by exact H. reflexivity.
  - intros H. rewrite (proj2 (Rltb_true _ _)) by exact H.
    assert (Hsteps :
              (if invert_scroll self
               then - (if Rltb 0 dy then -1 else 1)
               else if Rltb 0 dy then -1 else 1) * (Rabs dy * 50)
              = (if invert_scroll self then dy else - dy) * 50).
    { destruct (Rlt_dec 0 dy) as [Hp|Hn].
      - rewrite (proj2 (Rltb_true _ _)) by exact Hp.
        rewrite (Rabs_pos_eq dy) by lra.
        destruct (invert_scroll self); ring.
      - rewrite (proj2 (Rltb_false _ _)) by lra.
        rewrite (Rabs_left1 dy) by lra.
        destruct (invert_scroll self); ring. }
    rewrite Hsteps. split; [reflexivity|].
    set (turn := if invert_scroll self then dy else - dy).
    assert (Habs : Rabs turn = Rabs dy).
    { unfold turn. destruct (invert_scroll self); [reflexivity|apply Rabs_Ropp]. }
    intros Hfit.
    assert (Hamount : turn * 50 * 120 = turn * 6000) by ring.
    assert (Hrange : (- 2 ^ 31 < py_int (turn * 6000) < 2 ^ 31)%Z).
    { apply (py_int_range _ (2 ^ 31) eq_refl).
      rewrite Rabs_mult, Habs, (Rabs_pos_eq 6000) by lra. exact Hfit. }
    eexists. split; [reflexivity|].
    cbn [dwFlags mouseData]. rewrite Hamount.
    split; [reflexivity|].
    rewrite c_long_c_ulong, c_long_small by lia.
    split; [reflexivity|]. split.
    + intros Hpos. rewrite Rabs_pos_eq in Habs by lra.
      apply py_int_at_least; [|lia]. lra.
    + intros Hneg. rewrite Rabs_left in Habs by lra.
      assert (Hopp : (12 <= py_int (- (turn * 6000)))%Z)
        by (apply py_int_at_least; [lra|lia]).
      rewrite py_int_opp in Hopp. lia.
Qed.

Lemma iteration_returns (self : VisionWorker.t) (l : Locals) (f : Frame) :
  smoother_ready (smoother l) ->
  exists r, iteration self l f = Return r
            /\ smoother_ready (smoother (locals r))
            /\ screen_w (locals r) = screen_w l
            /\ screen_h (locals r) = screen_h l.
Proof.
  intros Hready. destruct (landmarks f) as [lm|] eqn:Hlm.
  - destruct (iteration_hand self l f lm Hlm Hready)
      as (sm & cx & cy & _ & Hsm & Hit).
    cbv zeta in Hit. eexists. split; [exact Hit|]. cbn. auto.
  - rewrite (iteration_no_hand self l f Hlm). eexists. split; [reflexivity|].
    cbn. auto.
Qed.

Lemma dialog_commands_range (cs : list Command) :
  Forall dialog_command cs ->
  forall self, 100 <= sensitivity_x self <= 5000 ->
               100 <= sensitivity_x (fold_left command cs self) <= 5000.
Proof.
  induction 1 as [|c cs Hc _ IH]; intros self Hs; cbn [fold_left]; [exact Hs|].
  apply IH. destruct c; cbn in *; tauto.
Qed.

Lemma loop_in_range (frames : list (list Command * Frame)) :
  Forall (fun cf => Forall dialog_command (fst cf)) frames ->
  forall (self : VisionWorker.t) (l : Locals),
    100 <= sensitivity_x self <= 5000 ->
    smoother_ready (smoother l) ->
    exists self' l' evs,
      loop self l frames = Return (self', l', evs)
      /\ smoother_ready (smoother l')
      /\ screen_w l' = screen_w l /\ screen_h l' = screen_h l
      /\ 100 <= sensitivity_x self' <= 5000.
Proof.
  induction 1 as [|[cs f] rest Hcs _ IH]; intros self l Hs Hready.
  - exists self, l, []. auto.
  - cbn [loop]. cbn [fst] in Hcs.
    pose proof (dialog_commands_range cs Hcs self Hs) as Hs1.
    destruct (iteration_returns (fold_left command cs self) l f Hready)
      as (r & Hit & Hr & Hw & Hh).
    rewrite Hit.
    assert (Hs2 : 100 <= sensitivity_x (worker r) <= 5000).
    { destruct (landmarks f) as [lm|] eqn:Hlm.
      - destruct (iteration_hand (fold_left command cs self) l f lm Hlm Hready)
          as (sm & cx & cy & _ & _ & Hit').
        cbv zeta in Hit'. rewrite Hit' in Hit. injection Hit as <-.
        cbn [worker].
        destruct (apply_requests_settings (fold_left command cs self)
                    (gesture_mgr l)) as (Hsx & _).
        rewrite Hsx. exact Hs1.
      - rewrite (iteration_no_hand _ l f Hlm) in Hit. injection Hit as <-.
        cbn [worker].
        destruct (apply_requests_settings (fold_left command cs self)
                    (gesture_mgr l)) as (Hsx & _).
        rewrite Hsx. exact Hs1. }
    destruct (IH (worker r) (locals r) Hs2 Hr)
      as (self' & l' & evs & Hl & Hr' & Hw' & Hh' & Hs').
    rewrite Hl. exists self', l', (sent r ++ evs).
    split; [reflexivity|]. split; [exact Hr'|].
    split; [congruence|]. split; [congruence|exact Hs'].
Qed.

(** X19: the worker loop, started as [run] starts it with a horizontal
    sensitivity in the range of the settings dialog (100 to 5000, the
    constructor's 1500 included), never raises, whatever the frames, the
    clock readings and the commands of the dialog: the smoother built with
    [min_cutoff=0.1] and [beta=0.5] never divides by zero and never returns
    [None], and the sensitivity stays in that range.  A sensitivity that
    is not a finite number is outside this statement. *)
Theorem loop_never_raises
  (self : VisionWorker.t) (w h : Z) (frames : list (list Command * Frame)) :
  100 <= sensitivity_x self <= 5000 ->
  Forall (fun cf => Forall dialog_command (fst cf)) frames ->
  exists self' l' evs,
    loop self (start w h) frames = Return (self', l', evs)
    /\ smoother_ready (smoother l')
    /\ screen_w l' = w /\ screen_h l' = h
    /\ 100 <= sensitivity_x self' <= 5000.
Proof.
  intros Hs Hframes.
  destruct (loop_in_range frames Hframes self (start w h) Hs)
    as (self' & l' & evs & H).
  - left. reflexivity.
  - exists self', l', evs. exact H.
Qed.

Lemma loop_never_raises_witness :
  100 <= sensitivity_x VisionWorker.__init__ <= 5000
  /\ exists self' l' evs,
       loop VisionWorker.__init__ (start 1920 1080)
         [ ([SetSensitivity 2000 2000; SetKeepAwake true], pinch_frame);
           ([], pinch_frame) ]
       = Return (self', l', evs)
       /\ 100 <= sensitivity_x self' <= 5000.
Proof.
  assert (Hs : 100 <= sensitivity_x VisionWorker.__init__ <= 5000)
    by (cbn; lra).
  split; [exact Hs|].
  destruct (loop_never_raises VisionWorker.__init__ 1920 1080
              [ ([SetSensitivity 2000 2000; SetKeepAwake true], pinch_frame);
                ([], pinch_frame) ] Hs)
    as (self' & l' & evs & Hl & _ & _ & _ & Hs').
  - repeat constructor; cbn; lra.
  - exists self', l', evs. split; [exact Hl|exact Hs'].
Defined.

Lemma process_threshold (self : GestureManager.t) (ct ht : R)
  (lms : option Landmarks) (hd : option string) :
  CLICK_THRESHOLD (fst (process self ct ht lms hd)) = CLICK_THRESHOLD self.
Proof.
  destruct lms as [lm|]; [|reflexivity].
  rewrite process_cases.
  destruct (GestureState.eqb (current_state self) GestureState.SLEEP
            && hold_to_wake_guard self ht lm hd).
  - cbn [fst CLICK_THRESHOLD set_wrist_history set_current_state
         set_last_toggle_time].
    apply (detect_hold_frame (history_append self (x (landmark lm 0))) ht lm).
  - rewrite wave_and_after_cases. cbv zeta.
    destruct (before_wave_frame self ht lm hd) as (_ & _ & _ & Hth).
    destruct (_ && _ && _ && _);
      [destruct (GestureState.eqb _ _)
      |destruct (GestureState.eqb _ _); [|unfold normal_operation;
         destruct (if is_tracking_pose lm then _ else _)]];
      cbn; exact Hth.
Qed.

Lemma override_sleep_threshold (self : VisionWorker.t) (mgr : GestureManager.t)
  (state : GestureState.t) (action : GestureAction.t) :
  CLICK_THRESHOLD (fst (override_sleep self mgr state action))
  = CLICK_THRESHOLD mgr.
Proof.
  unfold override_sleep.
  destruct action, (keep_awake self), state; reflexivity.
Qed.

(** X21: a click threshold handed to the worker reaches the manager at the
    next iteration exactly when it is positive, and the request is then
    cleared; a threshold that is zero or negative leaves the manager's
    threshold as it was, although the worker records it as current. *)
Theorem click_threshold_applied
  (self : VisionWorker.t) (l : Locals) (f : Frame) (val : R) :
  smoother_ready (smoother l) ->
  exists r,
    iteration (VisionWorker.set_click_threshold self val) l f = Return r
    /\ current_click_thresh_val (worker r) = val
    /\ (0 < val ->
        CLICK_THRESHOLD (gesture_mgr (locals r)) = val
        /\ pending_click_thresh (worker r) = -1)
    /\ (val <= 0 ->
        CLICK_THRESHOLD (gesture_mgr (locals r))
        = CLICK_THRESHOLD (gesture_mgr l)
        /\ pending_click_thresh (worker r) = val).
Proof.
  intros Hready.
  set (self0 := VisionWorker.set_click_threshold self val).
  assert (Hreq :
            current_click_thresh_val (fst (apply_requests self0 (gesture_mgr l)))
            = val
            /\ (0 < val ->
                CLICK_THRESHOLD (snd (apply_requests self0 (gesture_mgr l))) = val
                /\ pending_click_thresh
                     (fst (apply_requests self0 (gesture_mgr l))) = -1)
            /\ (val <= 0 ->
                CLICK_THRESHOLD (snd (apply_requests self0 (gesture_mgr l)))
                = CLICK_THRESHOLD (gesture_mgr l)
                /\ pending_click_thresh
                     (fst (apply_requests self0 (gesture_mgr l))) = val)).
  { unfold apply_requests, self0, VisionWorker.set_click_threshold.
    cbn [pending_click_thresh request_wake].
    destruct (Rlt_dec 0 val) as [Hp|Hn].
    - rewrite (proj2 (Rltb_true _ _)) by exact Hp.
      destruct (request_wake self); cbn; repeat split; auto; intros; lra.
    - rewrite (proj2 (Rltb_false _ _)) by lra.
      destruct (request_wake self); cbn; repeat split; auto; intros; lra. }
  destruct Hreq as (Hcur & Hpos & Hneg).
  destruct (landmarks f) as [lm|] eqn:Hlm.
  - destruct (iteration_hand self0 l f lm Hlm Hready)
      as (sm & cx & cy & _ & _ & Hit).
    cbv zeta in Hit. eexists. split; [exact Hit|].
    cbn [worker locals gesture_mgr].
    rewrite override_sleep_threshold, process_threshold. auto.
  - rewrite (iteration_no_hand self0 l f Hlm). eexists. split; [reflexivity|].
    cbn [worker locals gesture_mgr]. auto.
Qed.

Lemma with_y_command (a b : VisionWorker.t) (c : Command) (y0 y1 : R) :
  with_sensitivity_y a y1 = with_sensitivity_y b y1 ->
  with_sensitivity_y (command a c) y1
  = with_sensitivity_y (command b (command_with_y y0 c)) y1.
Proof.
  destruct a, b. unfold with_sensitivity_y, set_sensitivity. cbn.
  intros H. injection H as -> -> -> -> -> ->. destruct c; reflexivity.
Qed.

Lemma with_y_commands (cs : list Command) (y0 y1 : R) :
  forall a b,
    with_sensitivity_y a y1 = with_sensitivity_y b y1 ->
    with_sensitivity_y (fold_left command cs a) y1
    = with_sensitivity_y (fold_left command (map (command_with_y y0) cs) b) y1.
Proof.
  induction cs as [|c cs IH]; intros a b H; cbn [fold_left map]; [exact H|].
  apply IH. apply with_y_command. exact H.
Qed.

Lemma iteration_with_y (a b : VisionWorker.t) (l : Locals) (f : Frame) (y1 : R) :
  with_sensitivity_y a y1 = with_sensitivity_y b y1 ->
  match iteration a l f, iteration b l f with
  | Return ra, Return rb =>
      with_sensitivity_y (worker ra) y1 = with_sensitivity_y (worker rb) y1
      /\ locals ra = locals rb /\ sent ra = sent rb /\ signal ra = signal rb
  | Raise ea, Raise eb => ea = eb
  | _, _ => False
  end.
Proof.
  destruct a as [sx sy ka rw inv p c], b as [sx' sy' ka' rw' inv' p' c'].
  unfold with_sensitivity_y, set_sensitivity. cbn. intros H.
  injection H as -> -> -> -> -> ->.
  unfold iteration, apply_requests.
  cbn - [process OneEuroFilter.filter].
  destruct (Rltb 0 p'), rw'; cbn - [process OneEuroFilter.filter];
    (destruct (landmarks f) as [lm|];
     [|cbn - [process OneEuroFilter.filter]; auto]);
    match goal with
    | |- context [process ?m ?a ?b ?c ?d] =>
        destruct (process m a b c d) as [mgr2 [state action]]
    end;
    unfold override_sleep; cbn - [process OneEuroFilter.filter];
    destruct action, ka', state; cbn - [process OneEuroFilter.filter];
    destruct (OneEuroFilter.filter (smoother l) (x (landmark lm 8))
                (y (landmark lm 8)) (filter_time f))
      as [[sm [[cx|] [cy|]]]|e];
    try reflexivity; destruct (first_frame l);
    cbn - [process OneEuroFilter.filter]; auto.
Qed.

Lemma loop_with_y (frames : list (list Command * Frame)) (y0 : R) :
  forall (a b : VisionWorker.t) (l : Locals),
    with_sensitivity_y a y0 = with_sensitivity_y b y0 ->
    effects (loop a l frames)
    = effects (loop b l
                 (map (fun cf => (map (command_with_y y0) (fst cf), snd cf))
                    frames)).
Proof.
  induction frames as [|[cs f] rest IH]; intros a b l Hab; [reflexivity|].
  cbn [loop map fst snd].
  assert (Hcs : with_sensitivity_y (fold_left command cs a) y0
                = with_sensitivity_y
                    (fold_left command (map (command_with_y y0) cs) b) y0).
  { apply with_y_commands. exact Hab. }
  pose proof (iteration_with_y _ _ l f y0 Hcs) as Hit.
  destruct (iteration (fold_left command cs a) l f) as [ra|ea],
           (iteration (fold_left command (map (command_with_y y0) cs) b) l f)
             as [rb|eb]; try contradiction.
  - destruct Hit as (Hw & Hl & Hs & _).
    specialize (IH (worker ra) (worker rb) (locals ra) Hw).
    rewrite <- Hl.
    destruct (loop (worker ra) (locals ra) rest) as [[[? ?] ?]|?],
             (loop (worker rb) (locals ra) _) as [[[? ?] ?]|?];
      cbn [effects] in *; try congruence.
  - cbn [effects]. congruence.
Qed.

(** X20: the vertical sensitivity has no effect.  Replacing it, in the worker
    and in every command of a session, by any other value changes neither
    what is sent to [SendInput] nor the locals of the loop: both pixel
    deltas are scaled by the horizontal sensitivity. *)
Theorem vertical_sensitivity_unused
  (self : VisionWorker.t) (l : Locals) (frames : list (list Command * Frame))
  (y : R) :
  effects (loop self l frames)
  = effects (loop (with_sensitivity_y self y) l
               (map (fun cf => (map (command_with_y y) (fst cf), snd cf))
                  frames)).
Proof.
  apply loop_with_y. destruct self; reflexivity.
Qed.

Lemma start_ready (w h : Z) : smoother_ready (smoother (start w h)).
Proof. left. reflexivity. Qed.

Lemma input_only_while_pointing_witness :
  smoother_ready (smoother (start 1920 1080))
  /\ exists r,
       iteration VisionWorker.__init__ (start 1920 1080) pinch_frame = Return r
       /\ smoother_ready (smoother (locals r)).
Proof.
  split; [exact (start_ready 1920 1080)|].
  destruct (input_only_while_pointing VisionWorker.__init__ (start 1920 1080)
              pinch_frame (start_ready 1920 1080)) as (r & Hit & Hr & _).
  exists r. split; [exact Hit|exact Hr].
Defined.

Lemma keep_awake_holds_witness :
  keep_awake (set_keep_awake VisionWorker.__init__ true) = true
  /\ exists r sg,
       iteration (set_keep_awake VisionWorker.__init__ true) (start 1920 1080)
         pinch_frame = Return r
       /\ signal r = Some sg
       /\ is_sleep sg = false
       /\ current_state (gesture_mgr (locals r)) <> GestureState.SLEEP.
Proof.
  split; [reflexivity|].
  exact (keep_awake_holds (set_keep_awake VisionWorker.__init__ true)
           (start 1920 1080) pinch_frame (pinch (25 / 100))
           (start_ready 1920 1080) eq_refl eq_refl).
Defined.

Lemma reacquired_hand_does_not_jump_witness :
  first_frame (start 1920 1080) = true
  /\ exists r,
       iteration VisionWorker.__init__ (start 1920 1080) pinch_frame = Return r
       /\ (sent r = [] \/ sent r = InputController.left_click).
Proof.
  split; [reflexivity|].
  exact (reacquired_hand_does_not_jump VisionWorker.__init__ (start 1920 1080)
           pinch_frame (start_ready 1920 1080) eq_refl).
Defined.

Lemma click_threshold_applied_witness :
  0 < 20 / 100
  /\ exists r,
       iteration (VisionWorker.set_click_threshold VisionWorker.__init__ (20 / 100))
         (start 1920 1080) pinch_frame = Return r
       /\ CLICK_THRESHOLD (gesture_mgr (locals r)) = 20 / 100.
Proof.
  assert (H : 0 < 20 / 100) by lra.
  split; [exact H|].
  destruct (click_threshold_applied VisionWorker.__init__ (start 1920 1080)
              pinch_frame (20 / 100) (start_ready 1920 1080))
    as (r & Hit & _ & Hpos & _).
  exists r. split; [exact Hit|]. exact (proj1 (Hpos H)).
Defined.

End WorkerFacts.

(** ** The profiles of the configuration file *)

Section ConfigFacts.

Import ConfigFile.

Lemma dict_get_set (d : dict) (k k' : string) (v : value) :
  dict_get (set d k v) k'
  = if String.eqb k k' then Some v else dict_get d k'.
Proof.
  induction d as [|[k0 v0] rest IH]; cbn [set dict_get].
  - reflexivity.
  - destruct (String.eqb k0 k) eqn:E; cbn [dict_get].
    + apply String.eqb_eq in E. subst k0.
      destruct (String.eqb k k'); reflexivity.
    + destruct (String.eqb k0 k') eqn:E'.
      * apply String.eqb_eq in E'. subst k0. rewrite String.eqb_sym, E. reflexivity.
      * exact IH.
Qed.

Lemma set_same (d : dict) (k : string) (v : value) :
  dict_get d k = Some v -> set d k v = d.
Proof.
  induction d as [|[k0 v0] rest IH]; cbn [set dict_get]; [discriminate|].
  destruct (String.eqb k0 k); intros H.
  - injection H as ->. reflexivity.
  - rewrite IH by exact H. reflexivity.
Qed.

Lemma fill_get (defaults p : dict) (k : string) :
  dict_get
    (fold_left (fun p kv => if contains p (fst kv) then p
                            else set p (fst kv) (snd kv)) defaults p) k
  = match dict_get p k with
    | Some v => Some v
    | None => dict_get defaults k
    end.
Proof.
  revert p. induction defaults as [|[k0 v0] rest IH]; intros p; cbn [fold_left].
  - destruct (dict_get p k); reflexivity.
  - rewrite IH. cbn [fst snd dict_get]. unfold contains.
    destruct (dict_get p k0) eqn:E0.
    + destruct (dict_get p k) eqn:Ek; [reflexivity|].
      destruct (String.eqb k0 k) eqn:E; [|reflexivity].
      apply String.eqb_eq in E. subst k0. congruence.
    + rewrite dict_get_set.
      destruct (String.eqb k0 k) eqn:E.
      * apply String.eqb_eq in E. subst k0. rewrite E0. reflexivity.
      * reflexivity.
Qed.

Lemma fill_same (defaults p : dict) :
  (forall k v, In (k, v) defaults -> contains p k = true) ->
  fold_left (fun p kv => if contains p (fst kv) then p
                         else set p (fst kv) (snd kv)) defaults p = p.
Proof.
  revert p. induction defaults as [|[k0 v0] rest IH]; intros p H; [reflexivity|].
  cbn [fold_left fst snd]. rewrite (H k0 v0) by (left; reflexivity).
  apply IH. intros k v Hin. apply (H k v). right. exact Hin.
Qed.

Lemma get_set (d : dict) (k k' : string) (v default : value) :
  get (set d k v) k' default = if String.eqb k k' then v else get d k' default.
Proof.
  unfold get. rewrite dict_get_set. destruct (String.eqb k k'); reflexivity.
Qed.

Ltac keys :=
  cbn [String.eqb Ascii.eqb Bool.eqb andb orb].

Lemma lt_orderable (v : value) (c : R) :
  (orderable v = true /\ exists b, lt v c = Ok b)
  \/ (orderable v = false /\ lt v c = Err TypeError).
Proof. destruct v; cbn; eauto. Qed.

Lemma gt_orderable (v : value) (c : R) :
  (orderable v = true /\ exists b, gt v c = Ok b)
  \/ (orderable v = false /\ gt v c = Err TypeError).
Proof. destruct v; cbn; eauto. Qed.

Lemma lt_present (d : dict) (k : string) (c : R) :
  0 < c -> lt (get d k (Number 0)) c = Ok false ->
  exists v, dict_get d k = Some v /\ lt v c = Ok false.
Proof.
  intros Hc. unfold get. destruct (dict_get d k) as [v|].
  - intros H. exists v. auto.
  - cbn. rewrite (proj2 (Rltb_true 0 c)) by exact Hc. discriminate.
Qed.

Lemma checked_get (d : dict) (lx ly lc hc : bool) (k : string) :
  dict_get (checked d lx ly lc hc) k
  = if String.eqb "click_threshold" k && (hc || lc)
    then Some (Number (20 / 100))
    else if String.eqb "sensitivity_y" k && ly
    then Some (Number 1500)
    else if String.eqb "sensitivity_x" k && lx
    then Some (Number 1500)
    else dict_get d k.
Proof.
  unfold checked.
  destruct hc, lc, ly, lx; rewrite ?dict_get_set;
    destruct (String.eqb "click_threshold" k),
      (String.eqb "sensitivity_y" k), (String.eqb "sensitivity_x" k);
    reflexivity.
Qed.

Lemma sanitize_profile_ok (d : dict) (lx ly lc hc : bool) :
  lt (get d "sensitivity_x" (Number 0)) 100 = Ok lx ->
  lt (get d "sensitivity_y" (Number 0)) 100 = Ok ly ->
  lt (get d "click_threshold" (Number 0)) (5 / 100) = Ok lc ->
  gt (if lc then Number (20 / 100) else get d "click_threshold" (Number 0)) 1
  = Ok hc ->
  sanitize_profile (Object d)
  = Ok (Object (fill_missing (checked d lx ly lc hc))).
Proof.
  intros Hx Hy Hc Hh. unfold sanitize_profile, checked, raise_to, cap_at.
  rewrite Hx. cbn [bind].
  set (d1 := if lx then set d "sensitivity_x" (Number 1500) else d).
  assert (Hy1 : get d1 "sensitivity_y" (Number 0)
                = get d "sensitivity_y" (Number 0)).
  { unfold d1. destruct lx; [|reflexivity]. rewrite get_set. reflexivity. }
  rewrite Hy1, Hy. cbn [bind].
  set (d2 := if ly then set d1 "sensitivity_y" (Number 1500) else d1).
  assert (Hc2 : get d2 "click_threshold" (Number 0)
                = get d "click_threshold" (Number 0)).
  { unfold d2, d1. destruct ly, lx; rewrite ?get_set; reflexivity. }
  rewrite Hc2, Hc. cbn [bind].
  set (d3 := if lc then set d2 "click_threshold" (Number (20 / 100)) else d2).
  assert (Hc3 : get d3 "click_threshold" (Number 0)
                = if lc then Number (20 / 100)
                  else get d "click_threshold" (Number 0)).
  { unfold d3. destruct lc; [rewrite get_set; reflexivity|exact Hc2]. }
  rewrite Hc3, Hh. cbn [bind]. reflexivity.
Qed.

Lemma sanitize_profile_cases (d : dict) :
  (exists lx ly lc hc,
      lt (get d "sensitivity_x" (Number 0)) 100 = Ok lx
      /\ lt (get d "sensitivity_y" (Number 0)) 100 = Ok ly
      /\ lt (get d "click_threshold" (Number 0)) (5 / 100) = Ok lc
      /\ gt (if lc then Number (20 / 100)
            else get d "click_threshold" (Number 0)) 1 = Ok hc
      /\ orderable (get d "sensitivity_x" (Number 0)) = true
      /\ orderable (get d "sensitivity_y" (Number 0)) = true
      /\ orderable (get d "click_threshold" (Number 0)) = true
      /\ sanitize_profile (Object d)
         = Ok (Object (fill_missing (checked d lx ly lc hc))))
  \/ ((orderable (get d "sensitivity_x" (Number 0)) = false
       \/ orderable (get d "sensitivity_y" (Number 0)) = false
       \/ orderable (get d "click_threshold" (Number 0)) = false)
      /\ sanitize_profile (Object d) = Err TypeError).
Proof.
  destruct (lt_orderable (get d "sensitivity_x" (Number 0)) 100)
    as [(Ox & lx & Hx)|(Ox & Hx)].
  2: { right. split; [auto|].
       unfold sanitize_profile, raise_to. rewrite Hx. reflexivity. }
  destruct (lt_orderable (get d "sensitivity_y" (Number 0)) 100)
    as [(Oy & ly & Hy)|(Oy & Hy)].
  2: { right. split; [auto|].
       unfold sanitize_profile, raise_to. rewrite Hx. cbn [bind].
       destruct lx; rewrite ?get_set; keys; rewrite Hy; reflexivity. }
  destruct (lt_orderable (get d "click_threshold" (Number 0)) (5 / 100))
    as [(Oc & lc & Hc)|(Oc & Hc)].
  2: { right. split; [auto|].
       unfold sanitize_profile, raise_to. rewrite Hx. cbn [bind].
       assert (Hy1 : get (if lx then set d "sensitivity_x" (Number 1500) else d)
                       "sensitivity_y" (Number 0)
                     = get d "sensitivity_y" (Number 0))
         by (destruct lx; [rewrite get_set|]; reflexivity).
       rewrite Hy1, Hy. cbn [bind].
       assert (Hc1 : get (if ly
                          then set (if lx
                                    then set d "sensitivity_x" (Number 1500)
                                    else d) "sensitivity_y" (Number 1500)
                          else if lx then set d "sensitivity_x" (Number 1500)
                               else d)
                       "click_threshold" (Number 0)
                     = get d "click_threshold" (Number 0))
         by (destruct lx, ly; rewrite ?get_set; reflexivity).
       rewrite Hc1, Hc. reflexivity. }
  assert (Hh : exists hc,
             gt (if lc then Number (20 / 100)
                 else get d "click_threshold" (Number 0)) 1 = Ok hc).
  { destruct lc; [cbn; eauto|].
    destruct (gt_orderable (get d "click_threshold" (Number 0)) 1)
      as [(_ & hc & Hg)|(Og & _)]; [eauto|congruence]. }
  destruct Hh as (hc & Hh).
  left. exists lx, ly, lc, hc. repeat split; try assumption.
  apply sanitize_profile_ok; assumption.
Qed.

Lemma sanitized_get (d : dict) (lx ly lc hc : bool) (k : string) :
  dict_get (fill_missing (checked d lx ly lc hc)) k
  = match dict_get (checked d lx ly lc hc) k with
    | Some v => Some v
    | None => dict_get DEFAULT_PROFILE k
    end.
Proof. unfold fill_missing. apply fill_get. Qed.

Lemma sanitized_gets (d : dict) (lx ly lc hc : bool) :
  lt (get d "sensitivity_x" (Number 0)) 100 = Ok lx ->
  lt (get d "sensitivity_y" (Number 0)) 100 = Ok ly ->
  lt (get d "click_threshold" (Number 0)) (5 / 100) = Ok lc ->
  let d' := fill_missing (checked d lx ly lc hc) in
  dict_get d' "sensitivity_x"
  = (if lx then Some (Number 1500) else dict_get d "sensitivity_x")
  /\ dict_get d' "sensitivity_y"
     = (if ly then Some (Number 1500) else dict_get d "sensitivity_y")
  /\ dict_get d' "click_threshold"
     = (if hc || lc then Some (Number (20 / 100))
        else dict_get d "click_threshold")
  /\ (forall k, k <> "sensitivity_x"%string ->
                k <> "sensitivity_y"%string ->
                k <> "click_threshold"%string ->
                dict_get d' k
                = match dict_get d k with
                  | Some v => Some v
                  | None => dict_get DEFAULT_PROFILE k
                  end).
Proof.
  intros Hx Hy Hc. cbv zeta. repeat split.
  - rewrite sanitized_get, checked_get. keys.
    destruct lx; [reflexivity|].
    destruct (lt_present d _ 100 ltac:(lra) Hx) as (v & Hv & _).
    rewrite Hv. reflexivity.
  - rewrite sanitized_get, checked_get. keys.
    destruct ly; [reflexivity|].
    destruct (lt_present d _ 100 ltac:(lra) Hy) as (v & Hv & _).
    rewrite Hv. reflexivity.
  - rewrite sanitized_get, checked_get. keys.
    destruct hc; [reflexivity|]. destruct lc; [reflexivity|]. cbn [orb].
    destruct (lt_present d _ (5 / 100) ltac:(lra) Hc) as (v & Hv & _).
    rewrite Hv. reflexivity.
  - intros k H1 H2 H3. rewrite sanitized_get, checked_get.
    rewrite (proj2 (String.eqb_neq _ _)) by congruence.
    rewrite (proj2 (String.eqb_neq _ _)) by congruence.
    rewrite (proj2 (String.eqb_neq _ _)) by congruence.
    reflexivity.
Qed.

Lemma sanitized_settled (d : dict) (lx ly lc hc : bool) :
  lt (get d "sensitivity_x" (Number 0)) 100 = Ok lx ->
  lt (get d "sensitivity_y" (Number 0)) 100 = Ok ly ->
  lt (get d "click_threshold" (Number 0)) (5 / 100) = Ok lc ->
  gt (if lc then Number (20 / 100) else get d "click_threshold" (Number 0)) 1
  = Ok hc ->
  settled (fill_missing (checked d lx ly lc hc)).
Proof.
  intros Hx Hy Hc Hh.
  destruct (sanitized_gets d lx ly lc hc Hx Hy Hc) as (Gx & Gy & Gc & Gk).
  unfold settled, get. rewrite Gx, Gy, Gc.
  split; [|split; [|split; [|split]]].
  - destruct lx.
    + cbn. rewrite (proj2 (Rltb_false _ _)) by lra. reflexivity.
    + exact Hx.
  - destruct ly.
    + cbn. rewrite (proj2 (Rltb_false _ _)) by lra. reflexivity.
    + exact Hy.
  - destruct hc; cbn [orb].
    + cbn. rewrite (proj2 (Rltb_false _ _)) by lra. reflexivity.
    + destruct lc.
      * cbn. rewrite (proj2 (Rltb_false _ _)) by lra. reflexivity.
      * exact Hc.
  - destruct hc; cbn [orb].
    + cbn. rewrite (proj2 (Rltb_false _ _)) by lra. reflexivity.
    + destruct lc.
      * cbn. rewrite (proj2 (Rltb_false _ _)) by lra. reflexivity.
      * exact Hh.
  - intros k v Hin. unfold contains. unfold DEFAULT_PROFILE in Hin.
    cbn [In] in Hin.
    destruct Hin as [H|[H|[H|[H|[H|[H|[]]]]]]]; injection H as <- <-.
    + rewrite Gx. destruct lx; [reflexivity|].
      destruct (lt_present d _ 100 ltac:(lra) Hx) as (v & Hv & _).
      rewrite Hv. reflexivity.
    + rewrite Gy. destruct ly; [reflexivity|].
      destruct (lt_present d _ 100 ltac:(lra) Hy) as (v & Hv & _).
      rewrite Hv. reflexivity.
    + rewrite Gc. destruct hc; [reflexivity|]. destruct lc; [reflexivity|].
      destruct (lt_present d _ (5 / 100) ltac:(lra) Hc) as (v & Hv & _).
      cbn [orb]. rewrite Hv. reflexivity.
    + rewrite Gk by discriminate.
      destruct (dict_get d "keep_awake"); reflexivity.
    + rewrite Gk by discriminate.
      destruct (dict_get d "high_performance"); reflexivity.
    + rewrite Gk by discriminate.
      destruct (dict_get d "invert_scroll"); reflexivity.
Qed.

Lemma settled_fixed (d : dict) :
  settled d -> sanitize_profile (Object d) = Ok (Object d).
Proof.
  intros (Hx & Hy & Hc & Hh & Hkeys).
  rewrite (sanitize_profile_ok d false false false false Hx Hy Hc Hh).
  unfold checked, fill_missing. rewrite fill_same; [reflexivity|exact Hkeys].
Qed.

Lemma number_not_below (v : value) (r lo : R) :
  as_number v = Some r -> lo <= r -> lt v lo = Ok false.
Proof.
  intros Hn Hr. destruct v; try discriminate; cbn in *;
    injection Hn as <-; rewrite (proj2 (Rltb_false _ _)) by lra; reflexivity.
Qed.

Lemma number_not_above (v : value) (r hi : R) :
  as_number v = Some r -> r <= hi -> gt v hi = Ok false.
Proof.
  intros Hn Hr. destruct v; try discriminate; cbn in *;
    injection Hn as <-; rewrite (proj2 (Rltb_false _ _)) by lra; reflexivity.
Qed.

Lemma valid_settled (d : dict) : valid d -> settled d.
Proof.
  intros ((vx & rx & Hvx & Hnx & Hrx) & (vy & ry & Hvy & Hny & Hry)
          & (vc & rc & Hvc & Hnc & Hrc) & Hka & Hhp & His).
  unfold settled, get. rewrite Hvx, Hvy, Hvc.
  split; [apply (number_not_below vx rx); assumption|].
  split; [apply (number_not_below vy ry); assumption|].
  split; [apply (number_not_below vc rc); [assumption|lra]|].
  split; [apply (number_not_above vc rc); [assumption|lra]|].
  intros k v Hin. unfold DEFAULT_PROFILE in Hin. cbn [In] in Hin.
  destruct Hin as [H|[H|[H|[H|[H|[H|[]]]]]]]; injection H as <- <-;
    try assumption; unfold contains; rewrite ?Hvx, ?Hvy, ?Hvc; reflexivity.
Qed.

Lemma finite_not_below (v : value) (lo : R) :
  as_number v <> None -> lt v lo = Ok false ->
  exists r, as_number v = Some r /\ lo <= r.
Proof.
  intros Hn Hl. destruct v; cbn in *; try (exfalso; apply Hn; reflexivity);
    injection Hl as Hl; apply Rltb_false in Hl; eauto.
Qed.

Lemma finite_not_above (v : value) (r hi : R) :
  as_number v = Some r -> gt v hi = Ok false -> r <= hi.
Proof.
  intros Hn Hg. destruct v; cbn in *; try discriminate;
    injection Hn as <-; injection Hg as Hg; apply Rltb_false in Hg; exact Hg.
Qed.

Lemma settled_finite_valid (d : dict) :
  settled d -> finite_numbers d -> valid d.
Proof.
  intros (Hx & Hy & Hc & Hh & Hkeys) (Fx & Fy & Fc).
  destruct (lt_present d _ 100 ltac:(lra) Hx) as (vx & Hvx & Hlx).
  destruct (lt_present d _ 100 ltac:(lra) Hy) as (vy & Hvy & Hly).
  destruct (lt_present d _ (5 / 100) ltac:(lra) Hc) as (vc & Hvc & Hlc).
  unfold get in Fx, Fy, Fc, Hh. rewrite ?Hvx, ?Hvy, ?Hvc in *.
  destruct (finite_not_below vx 100 Fx Hlx) as (rx & Hnx & Hrx).
  destruct (finite_not_below vy 100 Fy Hly) as (ry & Hny & Hry).
  destruct (finite_not_below vc (5 / 100) Fc Hlc) as (rc & Hnc & Hrc).
  pose proof (finite_not_above vc rc 1 Hnc Hh) as Hrc1.
  unfold valid, at_least.
  split; [exists vx, rx; auto|]. split; [exists vy, ry; auto|].
  split; [exists vc, rc; auto|].
  repeat split; apply (Hkeys _ (Boolean false)); unfold DEFAULT_PROFILE;
    cbn [In]; auto 10.
Qed.

(** X22: sanitising a profile raises [AttributeError] exactly when the
    profile is not a dictionary, and [TypeError] exactly when one of
    [sensitivity_x], [sensitivity_y], [click_threshold] is present with a
    value that Python does not order against a float: anything but a
    number (finite or not) or a boolean. *)
Theorem sanitize_profile_errors (p : value) :
  (sanitize_profile p = Err AttributeError <-> forall d, p <> Object d)
  /\ (sanitize_profile p = Err TypeError
      <-> exists d,
            p = Object d
            /\ (orderable (get d "sensitivity_x" (Number 0)) = false
                \/ orderable (get d "sensitivity_y" (Number 0)) = false
                \/ orderable (get d "click_threshold" (Number 0)) = false)).
Proof.
  destruct p as [| b | r | | neg | s0 | items | d];
    try (split; [split; [intros _ d; discriminate|reflexivity]
                |split; [discriminate|intros (d & H & _); discriminate]]).
  destruct (sanitize_profile_cases d)
    as [(lx & ly & lc & hc & _ & _ & _ & _ & Ox & Oy & Oc & Hok)
       |(Hnone & Herr)].
  - rewrite Hok. split.
    + split; [discriminate|]. intros H. exfalso. apply (H d). reflexivity.
    + split; [discriminate|]. intros (d' & Hd & Hn). injection Hd as <-.
      rewrite Ox, Oy, Oc in Hn. destruct Hn as [Hn|[Hn|Hn]]; discriminate.
  - rewrite Herr. split.
    + split; [discriminate|]. intros H. exfalso. apply (H d). reflexivity.
    + split; [|reflexivity]. intros _. exists d. split; [reflexivity|exact Hnone].
Qed.

(** X23: a profile that sanitising accepts comes out settled: the six keys
    of the default profile are present and no guard fires any more, so a
    sensitivity is at least 100 and the click threshold lies in [0.05, 1]
    unless the value is not finite.  A value on which no guard fires is
    kept, so a [NaN] under a checked key survives; a value on which one
    fires becomes 1500 (sensitivities) or 0.20 (threshold); all other keys
    are kept.  When the three checked values are finite the result is
    valid. *)
Theorem sanitize_profile_settles (p p' : value) :
  sanitize_profile p = Ok p' ->
  exists d d',
    p = Object d /\ p' = Object d'
    /\ settled d'
    /\ (finite_numbers d -> valid d')
    /\ (forall k v, dict_get d k = Some v ->
                    k <> "sensitivity_x"%string ->
                    k <> "sensitivity_y"%string ->
                    k <> "click_threshold"%string ->
                    dict_get d' k = Some v)
    /\ (forall k, k = "sensitivity_x"%string \/ k = "sensitivity_y"%string ->
          (lt (get d k (Number 0)) 100 = Ok false ->
           dict_get d' k = dict_get d k)
          /\ (lt (get d k (Number 0)) 100 = Ok true ->
              dict_get d' k = Some (Number 1500)))
    /\ (lt (get d "click_threshold" (Number 0)) (5 / 100) = Ok false ->
        gt (get d "click_threshold" (Number 0)) 1 = Ok false ->
        dict_get d' "click_threshold" = dict_get d "click_threshold")
    /\ (lt (get d "click_threshold" (Number 0)) (5 / 100) = Ok true
        \/ gt (get d "click_threshold" (Number 0)) 1 = Ok true ->
        dict_get d' "click_threshold" = Some (Number (20 / 100)))
    /\ (forall k, k = "sensitivity_x"%string \/ k = "sensitivity_y"%string
                  \/ k = "click_threshold"%string ->
                  dict_get d k = Some NaN -> dict_get d' k = Some NaN).
Proof.
  intros Hok.
  destruct p as [| b | r | | neg | s0 | items | d]; try discriminate.
  destruct (sanitize_profile_cases d)
    as [(lx & ly & lc & hc & Hx & Hy & Hc & Hh & _ & _ & _ & Hs)|(_ & Herr)];
    [|congruence].
  rewrite Hs in Hok. injection Hok as <-.
  exists d, (fill_missing (checked d lx ly lc hc)).
  split; [reflexivity|]. split; [reflexivity|].
  destruct (sanitized_gets d lx ly lc hc Hx Hy Hc) as (Gx & Gy & Gc & Gk).
  pose proof (sanitized_settled d lx ly lc hc Hx Hy Hc Hh) as Hset.
  split; [exact Hset|].
  split.
  { intros (Fx & Fy & Fc). apply settled_finite_valid; [exact Hset|].
    unfold finite_numbers, get. rewrite Gx, Gy, Gc.
    split; [|split].
    - destruct lx; [discriminate|]. exact Fx.
    - destruct ly; [discriminate|]. exact Fy.
    - destruct (hc || lc); [discriminate|]. exact Fc. }
  split.
  { intros k v Hv H1 H2 H3. rewrite (Gk k H1 H2 H3), Hv. reflexivity. }
  split.
  { intros k [->| ->]; split; intros H.
    - rewrite Gx. rewrite H in Hx. injection Hx as <-. reflexivity.
    - rewrite Gx. rewrite H in Hx. injection Hx as <-. reflexivity.
    - rewrite Gy. rewrite H in Hy. injection Hy as <-. reflexivity.
    - rewrite Gy. rewrite H in Hy. injection Hy as <-. reflexivity. }
  split.
  { intros Hl Hg. rewrite Gc. rewrite Hl in Hc. injection Hc as <-.
    rewrite Hg in Hh. injection Hh as <-. reflexivity. }
  split.
  { intros [Hl|Hg]; rewrite Gc.
    - rewrite Hl in Hc. injection Hc as <-. rewrite orb_true_r. reflexivity.
    - destruct lc; [rewrite orb_true_r; reflexivity|].
      rewrite Hg in Hh. injection Hh as <-. reflexivity. }
  { intros k [->|[->| ->]] Hnan.
    - rewrite Gx. unfold get in Hx. rewrite Hnan in Hx. cbn in Hx.
      injection Hx as <-. exact Hnan.
    - rewrite Gy. unfold get in Hy. rewrite Hnan in Hy. cbn in Hy.
      injection Hy as <-. exact Hnan.
    - rewrite Gc. unfold get in Hc, Hh. rewrite Hnan in Hc. cbn in Hc.
      injection Hc as <-. rewrite Hnan in Hh. cbn in Hh.
      injection Hh as <-. exact Hnan. }
Qed.

Lemma sanitize_profile_makes_settled (p p' : value) :
  sanitize_profile p = Ok p' -> exists d', p' = Object d' /\ settled d'.
Proof.
  intros Hok.
  destruct p as [| b | r | | neg | s0 | items | d]; try discriminate.
  destruct (sanitize_profile_cases d)
    as [(lx & ly & lc & hc & Hx & Hy & Hc & Hh & _ & _ & _ & Hs)|(_ & Herr)];
    [|congruence].
  rewrite Hs in Hok. injection Hok as <-.
  eexists. split; [reflexivity|]. apply sanitized_settled; assumption.
Qed.

Lemma default_profile_valid : valid DEFAULT_PROFILE.
Proof.
  unfold valid, at_least, contains, DEFAULT_PROFILE. cbn.
  repeat split; try reflexivity;
    try (eexists; eexists; repeat split; try reflexivity; lra).
Qed.

(** X24: sanitising leaves a valid profile exactly as it is, so sanitising
    twice is the same as sanitising once, and the default profile is
    unchanged. *)
Theorem sanitize_profile_fixed_point :
  (forall d, valid d -> sanitize_profile (Object d) = Ok (Object d))
  /\ (forall p p', sanitize_profile p = Ok p' -> sanitize_profile p' = Ok p')
  /\ sanitize_profile (Object DEFAULT_PROFILE) = Ok (Object DEFAULT_PROFILE).
Proof.
  split; [intros d Hv; apply settled_fixed, valid_settled; exact Hv|]. split.
  - intros p p' H.
    destruct (sanitize_profile_makes_settled p p' H) as (d' & -> & Hv).
    apply settled_fixed. exact Hv.
  - apply settled_fixed, valid_settled. exact default_profile_valid.
Qed.

Lemma sanitize_profiles_result (ps : dict) :
  forall ps',
    sanitize_profiles ps = Ok ps' ->
    map fst ps' = map fst ps
    /\ Forall (fun np => exists d, snd np = Object d /\ settled d) ps'
    /\ sanitize_profiles ps' = Ok ps'
    /\ Forall2 (fun a b => sanitize_profile (snd a) = Ok (snd b)) ps ps'.
Proof.
  induction ps as [|[name p] rest IH]; intros ps' H; cbn [sanitize_profiles] in H.
  - injection H as <-. repeat split; constructor.
  - destruct (sanitize_profile p) as [p1|e] eqn:Hp; [|discriminate].
    cbn [bind] in H.
    destruct (sanitize_profiles rest) as [rest1|e] eqn:Hr; [|discriminate].
    cbn [bind] in H. injection H as <-.
    destruct (IH rest1 eq_refl) as (Hn & Hv & Hi & Hf).
    destruct (sanitize_profile_makes_settled p p1 Hp) as (d1 & -> & Hv1).
    split; [cbn [map fst]; rewrite Hn; reflexivity|]. split; [|split].
    + constructor; [exists d1; auto|exact Hv].
    + cbn [sanitize_profiles]. rewrite (settled_fixed d1 Hv1). cbn [bind].
      rewrite Hi. reflexivity.
    + constructor; [exact Hp|exact Hf].
Qed.

(** X25: when the loop over the profiles succeeds, the profile names and
    their order are unchanged, every profile is the sanitised form of the
    profile it replaces and is a settled dictionary (valid when the checked
    values it came from are finite), and running the loop again changes
    nothing. *)
Theorem sanitize_profiles_settle (ps ps' : dict) :
  sanitize_profiles ps = Ok ps' ->
  map fst ps' = map fst ps
  /\ Forall (fun np => exists d, snd np = Object d /\ settled d) ps'
  /\ sanitize_profiles ps' = Ok ps'
  /\ Forall2 (fun a b => sanitize_profile (snd a) = Ok (snd b)) ps ps'
  /\ (Forall (fun np => forall d, snd np = Object d -> finite_numbers d) ps ->
      Forall (fun np => exists d, snd np = Object d /\ valid d) ps').
Proof.
  intros H. destruct (sanitize_profiles_result ps ps' H) as (Hn & Hv & Hi & Hf).
  repeat split; try assumption.
  clear Hn Hv Hi H. induction Hf as [|[n p] [n' p'] rest rest' Hp Hf IH];
    intros Hfin; [constructor|].
  inversion Hfin as [|? ? Hd Hrest]; subst. cbn [snd] in *.
  constructor; [|apply IH; exact Hrest].
  destruct p as [| b | r | | neg | s0 | items | d]; try discriminate.
  destruct (sanitize_profile_cases d)
    as [(lx & ly & lc & hc & Hx & Hy & Hc & Hh & _ & _ & _ & Hs)|(_ & Herr)];
    [|congruence].
  rewrite Hs in Hp. injection Hp as <-. eexists. split; [reflexivity|].
  destruct (sanitized_gets d lx ly lc hc Hx Hy Hc) as (Gx & Gy & Gc & _).
  destruct (Hd d eq_refl) as (Fx & Fy & Fc).
  apply settled_finite_valid; [apply sanitized_settled; assumption|].
  unfold finite_numbers, get. rewrite Gx, Gy, Gc.
  split; [|split].
  - destruct lx; [discriminate|]. exact Fx.
  - destruct ly; [discriminate|]. exact Fy.
  - destruct (hc || lc); [discriminate|]. exact Fc.
Qed.

Lemma rough_profile_sanitized :
  sanitize_profile (Object rough_profile) = Ok (Object smooth_profile).
Proof. eval_model. reflexivity. Qed.

Lemma sanitize_profile_settles_witness :
  sanitize_profile (Object rough_profile) = Ok (Object smooth_profile)
  /\ settled smooth_profile
  /\ dict_get smooth_profile "sensitivity_x" = Some NaN.
Proof.
  split; [exact rough_profile_sanitized|].
  destruct (sanitize_profile_settles _ _ rough_profile_sanitized)
    as (d & d' & Hd & Hd' & Hv & _ & _ & _ & _ & _ & Hnan).
  injection Hd as <-. injection Hd' as <-.
  split; [exact Hv|]. apply Hnan; [left; reflexivity|reflexivity].
Defined.

Lemma rough_profiles_sanitized :
  sanitize_profiles [ ("Default"%string, Object DEFAULT_PROFILE);
                      ("Rough"%string, Object rough_profile) ]
  = Ok [ ("Default"%string, Object DEFAULT_PROFILE);
         ("Rough"%string, Object smooth_profile) ].
Proof.
  cbn [sanitize_profiles].
  rewrite (settled_fixed _ (valid_settled _ default_profile_valid)),
    rough_profile_sanitized.
  reflexivity.
Qed.

Lemma sanitize_profiles_settle_witness :
  sanitize_profiles [ ("Default"%string, Object DEFAULT_PROFILE);
                      ("Rough"%string, Object rough_profile) ]
  = Ok [ ("Default"%string, Object DEFAULT_PROFILE);
         ("Rough"%string, Object smooth_profile) ]
  /\ sanitize_profiles [ ("Default"%string, Object DEFAULT_PROFILE);
                         ("Rough"%string, Object smooth_profile) ]
     = Ok [ ("Default"%string, Object DEFAULT_PROFILE);
            ("Rough"%string, Object smooth_profile) ].
Proof.
  split; [exact rough_profiles_sanitized|].
  exact (proj1 (proj2 (proj2 (sanitize_profiles_settle _ _
                                rough_profiles_sanitized)))).
Defined.

End ConfigFacts.
